(** * Landing Factory: renderer, cadence calculator and publish pipeline

    A shallow embedding of the parts of the Landing Factory sources that the
    specification speaks about, followed by the properties proved about them.

    - [apps/renderer] (index.ts of the renderer): [radiusTokenToPx],
      [escapeHtml], [routeToFile], [resolveSlotHref], the slot table built in
      the [POST /render/site/:siteId] handler and [renderBlocksWithSlots].
    - [apps/api/src/index.ts]: [computeNextRunAt], [ensureIndexPage],
      [runAutopostSchedule], [internalPublishSite] and the
      [POST /sites/:id/publish] handler.

    Conventions of the embedding.

    - JSON documents typed [any] in the sources are values of [Js.value].
      JavaScript numbers are restricted to integers ([Z]); [NaN] is the
      [None] of an [option Z].
    - Strings are [string]s; every character test of the sources ranges over
      ASCII characters only, so a string stands for its sequence of code
      units.
    - A JavaScript exception is the [Throw] of the result type [Js.res].
    - A [Date] is its time value, a number of milliseconds since the epoch.
      Local time is the time value shifted by a constant offset [tza]: the
      server is taken to run in a time zone without daylight saving, such
      as UTC ([tza = 0]).  The range check of a time value (ECMA-262
      TimeClip, |t| <= 8.64e15) is not modelled.
    - The relational store read and written through Prisma is a record of
      tables (lists of rows), threaded through a state-and-exception monad.
    - The calls of the site handler to the file system and to the store are
      a log of the calls carried out; which call is refused, and with which
      error, is left to a function [io_error] of the log and the call.  The
      paths are strings, joined by [path.join] of Node (POSIX). *)

From Stdlib Require Import ZArith Lia String Ascii List Bool DecimalString.
From stdpp Require Import base tactics option list strings gmap.

Local Open Scope string_scope.
Local Open Scope Z_scope.

Set Warnings "-register-all".

(** ** JavaScript values and primitive operations *)

Module Js.

Inductive value : Type :=
| VUndef
| VNull
| VBool (b : bool)
| VNum (n : Z)
| VStr (s : string)
| VArr (items : list value)
| VObj (fields : list (string * value))
| VBuiltin (name : string).
(* [VNum n]: the numbers are the integers; a fraction, an infinity and the
   rounding of a large integer to a double have no counterpart.
   [VBuiltin k]: the member [k] that every plain object inherits from
   [Object.prototype] (a function, or the prototype object itself). *)

(** Results of computations that may throw; the payload is the message of
    the error object. *)
Inductive res (A : Type) : Type :=
| Ok (a : A)
| Throw (msg : string).
Arguments Ok {A} a.
Arguments Throw {A} msg.

Definition bind {A B : Type} (m : res A) (k : A -> res B) : res B :=
  match m with
  | Ok a => k a
  | Throw e => Throw e
  end.

Notation "x <- m ;; k" := (bind m (fun x => k))
  (at level 100, m at next level, right associativity, only parsing).

Fixpoint mapM {A B : Type} (f : A -> res B) (l : list A) : res (list B) :=
  match l with
  | [] => Ok []
  | x :: r => y <- f x ;; ys <- mapM f r ;; Ok (y :: ys)
  end.

(** Names that a plain object ([{}] or an object literal) inherits from
    [Object.prototype]. *)
Definition object_prototype_keys : list string :=
  [ "constructor"; "__defineGetter__"; "__defineSetter__"; "hasOwnProperty";
    "__lookupGetter__"; "__lookupSetter__"; "isPrototypeOf";
    "propertyIsEnumerable"; "toString"; "valueOf"; "__proto__";
    "toLocaleString" ].

Definition is_prototype_key (k : string) : bool :=
  bool_decide (k ∈ object_prototype_keys).

Fixpoint assoc {A : Type} (k : string) (l : list (string * A)) : option A :=
  match l with
  | [] => None
  | (k', v) :: r => if String.eqb k k' then Some v else assoc k r
  end.

(** [o[k]] on a plain object with own properties [fields]. *)
Definition obj_get (fields : list (string * value)) (k : string) : value :=
  match assoc k fields with
  | Some v => v
  | None => if is_prototype_key k then VBuiltin k else VUndef
  end.

(** [v.k]: a TypeError on [undefined] and [null].  On arrays and
    primitives the sources only read names that these do not define. *)
Definition prop (v : value) (k : string) : res value :=
  match v with
  | VUndef | VNull => Throw "TypeError: Cannot read properties of undefined"
  | VObj fields => Ok (obj_get fields k)
  | _ => Ok VUndef
  end.

(** [v?.k] *)
Definition oprop (v : value) (k : string) : value :=
  match v with
  | VUndef | VNull => VUndef
  | VObj fields => obj_get fields k
  | _ => VUndef
  end.

(** [a ?? b] *)
Definition nullish (a b : value) : value :=
  match a with
  | VUndef | VNull => b
  | _ => a
  end.

(** ToBoolean *)
Definition truthy (v : value) : bool :=
  match v with
  | VUndef | VNull => false
  | VBool b => b
  | VNum n => negb (Z.eqb n 0)
  | VStr s => negb (String.eqb s "")
  | VArr _ | VObj _ | VBuiltin _ => true
  end.

(** [v === "s"] *)
Definition strict_eq_str (v : value) (s : string) : bool :=
  match v with VStr s' => String.eqb s' s | _ => false end.

(** [v !== false] *)
Definition strict_ne_false (v : value) : bool :=
  match v with VBool false => false | _ => true end.

(** *** Characters and strings *)

Definition is_digit (c : ascii) : bool :=
  let n := nat_of_ascii c in (48 <=? n)%nat && (n <=? 57)%nat.

Definition is_upper (c : ascii) : bool :=
  let n := nat_of_ascii c in (65 <=? n)%nat && (n <=? 90)%nat.

Fixpoint forallb_string (p : ascii -> bool) (s : string) : bool :=
  match s with
  | EmptyString => true
  | String c r => p c && forallb_string p r
  end.

(** Longest prefix of characters satisfying [p], and the rest. *)
Fixpoint span (p : ascii -> bool) (s : string) : string * string :=
  match s with
  | EmptyString => (EmptyString, EmptyString)
  | String c r =>
      if p c then let '(a, b) := span p r in (String c a, b)
      else (EmptyString, s)
  end.

(** [s.replace(/c/g, rep)] for a single character [c]. *)
Fixpoint replace_all_char (c : ascii) (rep : string) (s : string) : string :=
  match s with
  | EmptyString => EmptyString
  | String x r =>
      if Ascii.eqb x c then rep ++ replace_all_char c rep r
      else String x (replace_all_char c rep r)
  end.

(** [s.replace(/^\//, "")] *)
Definition drop_leading_slash (s : string) : string :=
  match s with
  | String "/" r => r
  | _ => s
  end.

(** [s.replace(/\/$/, "")] *)
Fixpoint drop_trailing_slash (s : string) : string :=
  match s with
  | EmptyString => EmptyString
  | String c r =>
      match r with
      | EmptyString => if Ascii.eqb c "/" then EmptyString else s
      | _ => String c (drop_trailing_slash r)
      end
  end.

Definition dquote : ascii := "034".

(** The one-character string made of a double quote, and a line feed. *)
Definition q : string := String dquote EmptyString.
Definition nl : string := String "010" EmptyString.

(** [s.endsWith("/")] *)
Fixpoint ends_with_slash (s : string) : bool :=
  match s with
  | EmptyString => false
  | String c EmptyString => Ascii.eqb c "/"
  | String _ r => ends_with_slash r
  end.

Fixpoint join (sep : string) (l : list string) : string :=
  match l with
  | [] => ""
  | [x] => x
  | x :: r => x ++ sep ++ join sep r
  end.

(** JavaScript white space among the characters below 256. *)
Definition is_space (c : ascii) : bool :=
  let n := nat_of_ascii c in
  ((9 <=? n)%nat && (n <=? 13)%nat) || (n =? 32)%nat || (n =? 160)%nat.

(** [s.trim()] is the empty string exactly when [s] is all white space. *)
Definition trim_is_empty (s : string) : bool := forallb_string is_space s.

Definition to_upper (c : ascii) : ascii :=
  let n := nat_of_ascii c in
  if (97 <=? n)%nat && (n <=? 122)%nat then ascii_of_nat (n - 32) else c.

(** [k.charAt(0).toUpperCase() + k.slice(1)] *)
Definition capitalize (k : string) : string :=
  match k with
  | EmptyString => EmptyString
  | String c r => String (to_upper c) r
  end.

Definition Z_to_string (n : Z) : string :=
  NilEmpty.string_of_int (Z.to_int n).

(** [s.toUpperCase()] on ASCII letters. *)
Fixpoint toUpperCase (s : string) : string :=
  match s with
  | EmptyString => EmptyString
  | String c r => String (to_upper c) (toUpperCase r)
  end.

(** [s.startsWith(p)] *)
Definition startsWith (s p : string) : bool := String.prefix p s.

(** The text of a member inherited from [Object.prototype]: [constructor]
    is the function [Object], [__proto__] is the prototype object itself, and
    the other members are functions that carry their own name. *)
Definition builtin_text (k : string) : string :=
  if String.eqb k "constructor" then "function Object() { [native code] }"
  else if String.eqb k "__proto__" then "[object Object]"
  else "function " ++ k ++ "() { [native code] }".

(** [String(v)], as a template literal converts an interpolated value.  An
    object holding an own [toString] (never callable in a JSON document) has
    no primitive form. *)
Fixpoint to_string (v : value) : res string :=
  match v with
  | VUndef => Ok "undefined"
  | VNull => Ok "null"
  | VBool true => Ok "true"
  | VBool false => Ok "false"
  | VNum n => Ok (Z_to_string n)
  | VStr s => Ok s
  | VArr l =>
      ss <- (fix elems (l : list value) : res (list string) :=
               match l with
               | [] => Ok []
               | x :: r =>
                   sx <- match x with
                         | VUndef | VNull => Ok ""
                         | _ => to_string x
                         end ;;
                   sr <- elems r ;;
                   Ok (sx :: sr)
               end) l ;;
      Ok (join "," ss)
  | VObj fields =>
      match assoc "toString" fields with
      | Some _ => Throw "TypeError: Cannot convert object to primitive value"
      | None => Ok "[object Object]"
      end
  | VBuiltin k => Ok (builtin_text k)
  end.

(** [arr.find(p)] *)
Fixpoint array_find (p : value -> res bool) (l : list value) : res value :=
  match l with
  | [] => Ok VUndef
  | x :: r =>
      b <- p x ;;
      if b then Ok x else array_find p r
  end.

(** *** Numbers *)

Definition digit_value (c : ascii) : Z := Z.of_nat (nat_of_ascii c) - 48.

Fixpoint digits_value (acc : Z) (s : string) : Z :=
  match s with
  | EmptyString => acc
  | String c r => digits_value (10 * acc + digit_value c) r
  end.

Fixpoint drop_spaces (s : string) : string :=
  match s with
  | String c r => if is_space c then drop_spaces r else s
  | EmptyString => EmptyString
  end.

(** The value of a digit in a radix up to sixteen, if it is one. *)
Definition radix_digit (radix : Z) (c : ascii) : option Z :=
  let n := Z.of_nat (nat_of_ascii c) in
  let v := if (48 <=? n) && (n <=? 57) then n - 48
           else if (97 <=? n) && (n <=? 102) then n - 87
           else if (65 <=? n) && (n <=? 70) then n - 55
           else 16 in
  if v <? radix then Some v else None.

Fixpoint radix_value (radix acc : Z) (s : string) : option Z :=
  match s with
  | EmptyString => Some acc
  | String c r =>
      match radix_digit radix c with
      | Some v => radix_value radix (radix * acc + v) r
      | None => None
      end
  end.

(** A literal with a radix prefix ([0x], [0o], [0b]): [None] without such
    a prefix, otherwise its value or [NaN]. *)
Definition radix_literal (body : string) : option (option Z) :=
  match body with
  | String z (String p ds) =>
      if Ascii.eqb z "0" then
        let radix := if Ascii.eqb p "x" || Ascii.eqb p "X" then Some 16
                     else if Ascii.eqb p "o" || Ascii.eqb p "O" then Some 8
                     else if Ascii.eqb p "b" || Ascii.eqb p "B" then Some 2
                     else None in
        match radix with
        | Some rx => Some (if String.eqb ds "" then None else radix_value rx 0 ds)
        | None => None
        end
      else None
  | _ => None
  end.

(** A signed run of decimal digits. *)
Definition signed_digits (s : string) : option Z :=
  let '(neg, ds) :=
    match s with
    | String c r =>
        if Ascii.eqb c "-" then (true, r)
        else if Ascii.eqb c "+" then (false, r)
        else (false, s)
    | EmptyString => (false, s)
    end in
  if String.eqb ds "" || negb (forallb_string is_digit ds) then None
  else Some (if neg then - digits_value 0 ds else digits_value 0 ds).

(** The exponent part of a decimal literal (absent: 0). *)
Definition exponent_part (s : string) : option Z :=
  match s with
  | EmptyString => Some 0
  | String e r => if Ascii.eqb e "e" || Ascii.eqb e "E" then signed_digits r else None
  end.

(** An unsigned decimal literal: digits, an optional fraction, an optional
    exponent.  Its value is given when it is an integer; a literal that
    denotes a fraction has no value in this model of numbers. *)
Definition decimal_literal (s : string) : option Z :=
  let '(ip, r1) := span is_digit s in
  let '(fp, r2) :=
    match r1 with
    | String c r => if Ascii.eqb c "." then span is_digit r else (EmptyString, r1)
    | EmptyString => (EmptyString, r1)
    end in
  if String.eqb ip "" && String.eqb fp "" then None
  else
    match exponent_part r2 with
    | None => None
    | Some e =>
        let m := digits_value 0 (ip ++ fp) in
        let k := e - Z.of_nat (String.length fp) in
        if 0 <=? k then Some (m * 10 ^ k)
        else if m mod 10 ^ (- k) =? 0 then Some (m / 10 ^ (- k))
        else None
    end.

(** StringToNumber: white space around the literal is dropped, the empty
    string is 0, a literal is decimal (with sign, fraction and exponent) or
    has a radix prefix; [None] is [NaN].  Numbers are the integers here: the
    result is exact, without the rounding of large values to a double, and a
    literal that denotes a fraction or [Infinity] is not covered (it comes
    out as [None]). *)
Definition string_to_number (s : string) : option Z :=
  let '(body, rest) := span (fun c => negb (is_space c)) (drop_spaces s) in
  if negb (trim_is_empty rest) then None
  else
    match body with
    | EmptyString => Some 0
    | String c r =>
        match radix_literal body with
        | Some v => v
        | None =>
            if Ascii.eqb c "-" then option_map Z.opp (decimal_literal r)
            else if Ascii.eqb c "+" then decimal_literal r
            else decimal_literal body
        end
    end.

(** [Number(v)]; [None] is [NaN].  An array converts through its string
    form, a plain object and a function are [NaN].  An object with an own
    [toString] member makes the conversion throw in the program; that case
    is not covered (it comes out as [None]). *)
Definition Number (v : value) : option Z :=
  match v with
  | VUndef => None
  | VNull => Some 0
  | VBool b => Some (if b then 1 else 0)
  | VNum n => Some n
  | VStr s => string_to_number s
  | VArr _ =>
      match to_string v with
      | Ok s => string_to_number s
      | Throw _ => None
      end
  | VObj _ | VBuiltin _ => None
  end.

(** *** Dates (ECMA-262, section "Time Values and Time Range") *)

Definition msPerDay : Z := 86400000.
Definition msPerHour : Z := 3600000.
Definition msPerMinute : Z := 60000.
Definition msPerSecond : Z := 1000.

Definition Day (t : Z) : Z := t / msPerDay.
Definition TimeWithinDay (t : Z) : Z := t mod msPerDay.

Definition DaysInYear (y : Z) : Z :=
  if negb (y mod 4 =? 0) then 365
  else if negb (y mod 100 =? 0) then 366
  else if negb (y mod 400 =? 0) then 365
  else 366.

Definition DayFromYear (y : Z) : Z :=
  365 * (y - 1970) + (y - 1969) / 4 - (y - 1901) / 100 + (y - 1601) / 400.

(** The largest [y] with [DayFromYear y <= d], searched upwards from a year
    that is not after it. *)
Fixpoint year_search (fuel : nat) (y d : Z) : Z :=
  match fuel with
  | O => y
  | S fuel' => if DayFromYear (y + 1) <=? d then year_search fuel' (y + 1) d else y
  end.

Definition YearFromTime (t : Z) : Z :=
  let d := Day t in
  let y0 := if 0 <=? d then 1970 + d / 366 else 1970 + d / 365 in
  year_search (Z.to_nat (Z.abs d / 100000 + 2)) y0 d.

Definition InLeapYear (t : Z) : Z :=
  if DaysInYear (YearFromTime t) =? 366 then 1 else 0.

Definition DayWithinYear (t : Z) : Z := Day t - DayFromYear (YearFromTime t).

(** Number of days of the year before month [m] (0 = January). *)
Definition DaysBeforeMonth (m leap : Z) : Z :=
  if m <=? 0 then 0
  else if m =? 1 then 31
  else if m =? 2 then 59 + leap
  else if m =? 3 then 90 + leap
  else if m =? 4 then 120 + leap
  else if m =? 5 then 151 + leap
  else if m =? 6 then 181 + leap
  else if m =? 7 then 212 + leap
  else if m =? 8 then 243 + leap
  else if m =? 9 then 273 + leap
  else if m =? 10 then 304 + leap
  else 334 + leap.

Definition MonthFromTime (t : Z) : Z :=
  let d := DayWithinYear t in
  let leap := InLeapYear t in
  if d <? 31 then 0
  else if d <? 59 + leap then 1
  else if d <? 90 + leap then 2
  else if d <? 120 + leap then 3
  else if d <? 151 + leap then 4
  else if d <? 181 + leap then 5
  else if d <? 212 + leap then 6
  else if d <? 243 + leap then 7
  else if d <? 273 + leap then 8
  else if d <? 304 + leap then 9
  else if d <? 334 + leap then 10
  else 11.

Definition DateFromTime (t : Z) : Z :=
  DayWithinYear t - DaysBeforeMonth (MonthFromTime t) (InLeapYear t) + 1.

Definition WeekDay (t : Z) : Z := (Day t + 4) mod 7.
Definition HourFromTime (t : Z) : Z := (t / msPerHour) mod 24.
Definition MinFromTime (t : Z) : Z := (t / msPerMinute) mod 60.
Definition SecFromTime (t : Z) : Z := (t / msPerSecond) mod 60.
Definition msFromTime (t : Z) : Z := t mod msPerSecond.

Definition MakeTime (hour min sec ms : Z) : Z :=
  hour * msPerHour + min * msPerMinute + sec * msPerSecond + ms.

Definition MakeDay (year month date : Z) : Z :=
  let ym := year + month / 12 in
  let mn := month mod 12 in
  let leap := if DaysInYear ym =? 366 then 1 else 0 in
  DayFromYear ym + DaysBeforeMonth mn leap + date - 1.

Definition MakeDate (day time : Z) : Z := day * msPerDay + time.

Definition pad2 (n : Z) : string :=
  if n <? 10 then "0" ++ Z_to_string n else Z_to_string n.

Definition pad4 (n : Z) : string :=
  if n <? 10 then "000" ++ Z_to_string n
  else if n <? 100 then "00" ++ Z_to_string n
  else if n <? 1000 then "0" ++ Z_to_string n
  else Z_to_string n.

(** [new Date(t).toISOString().slice(0, 10)], for the years 0000 to 9999. *)
Definition iso_date (t : Z) : string :=
  pad4 (YearFromTime t) ++ "-" ++ pad2 (MonthFromTime t + 1) ++ "-" ++ pad2 (DateFromTime t).

Section LocalTime.

(** Offset of local time from UTC, in milliseconds.  It is the same at every
    time: a change of the offset (daylight saving) between two times has no
    counterpart. *)
Variable tza : Z.

Definition LocalTime (t : Z) : Z := t + tza.
Definition UTC (t : Z) : Z := t - tza.

(** Methods of a [Date] object whose time value is [t]; the setters return
    the new time value.  The setters do not clip: a time value beyond
    8.64e15 milliseconds from the epoch, where the program has an invalid
    [Date], is kept as it is. *)
Definition getDay (t : Z) : Z := WeekDay (LocalTime t).
Definition getDate (t : Z) : Z := DateFromTime (LocalTime t).
Definition getMinutes (t : Z) : Z := MinFromTime (LocalTime t).

Definition setDate (t : Z) (date : Z) : Z :=
  let lt := LocalTime t in
  UTC (MakeDate (MakeDay (YearFromTime lt) (MonthFromTime lt) date) (TimeWithinDay lt)).

Definition setHours (t : Z) (hour min sec ms : Z) : Z :=
  let lt := LocalTime t in
  UTC (MakeDate (Day lt) (MakeTime hour min sec ms)).

Definition setMinutes (t : Z) (min : Z) : Z :=
  let lt := LocalTime t in
  UTC (MakeDate (Day lt) (MakeTime (HourFromTime lt) min (SecFromTime lt) (msFromTime lt))).

End LocalTime.

End Js.

Import Js.

(** ** The renderer *)

Module Renderer.

(** The token table of [radiusTokenToPx], an object literal. *)
Definition radius_map : list (string * value) :=
  [ ("sm", VStr "8px"); ("md", VStr "12px"); ("lg", VStr "14px");
    ("xl", VStr "16px"); ("2xl", VStr "20px") ].

(** [/^\d+(px|rem|em|%)$/.test(v)] *)
Definition css_length_re (v : string) : bool :=
  let '(digits, unit) := span is_digit v in
  negb (String.eqb digits "")
  && (String.eqb unit "px" || String.eqb unit "rem"
      || String.eqb unit "em" || String.eqb unit "%").

Definition radiusTokenToPx (v : value) (fallbackPx : string) : value :=
  match v with
  | VStr s =>
      if String.eqb s "" then VStr fallbackPx
      else if css_length_re s then VStr s
      else nullish (obj_get radius_map s) (VStr fallbackPx)
  | _ => VStr fallbackPx
  end.

Definition escapeHtml (s : string) : string :=
  replace_all_char "'" "&#39;"
    (replace_all_char dquote "&quot;"
      (replace_all_char ">" "&gt;"
        (replace_all_char "<" "&lt;"
          (replace_all_char "&" "&amp;" s)))).

Record FileInfo := { dir : string; file : string }.

Definition routeToFile (route : string) : FileInfo :=
  if String.eqb route "/" then {| dir := ""; file := "index.html" |}
  else
    let clean := drop_trailing_slash (drop_leading_slash route) in
    {| dir := clean; file := "index.html" |}.



(** *** Link slots *)

Record LinkLibrary := { targetUrl : string }.

Record LinkAssignment := {
  placement : string;
  isEnabled : bool;
  linkLibrary : option LinkLibrary;
}.

(** [slotUrls[k]] for the object [slotUrls], created as [{}]. *)
Definition slot_get (slotUrls : gmap string string) (k : string) : value :=
  match slotUrls !! k with
  | Some s => VStr s
  | None => if is_prototype_key k then VBuiltin k else VUndef
  end.

(** [slotUrls[k] = s]; assigning a string to [__proto__] changes nothing. *)
Definition slot_set (slotUrls : gmap string string) (k s : string) : gmap string string :=
  if String.eqb k "__proto__" then slotUrls else <[k := s]> slotUrls.

(** [a.linkLibrary?.targetUrl ?? "#"] *)
Definition assignment_url (a : LinkAssignment) : string :=
  match linkLibrary a with
  | Some l => targetUrl l
  | None => "#"
  end.

(** One iteration of the loop over [site.links]. *)
Definition slot_step (slotUrls : gmap string string) (a : LinkAssignment) : gmap string string :=
  if negb (isEnabled a) then slotUrls
  else if truthy (slot_get slotUrls (placement a)) then slotUrls
  else slot_set slotUrls (placement a) (assignment_url a).

(** The slot table computed by the [POST /render/site/:siteId] handler. *)
Definition buildSlotUrls (links : list LinkAssignment) : gmap string string :=
  fold_left slot_step links ∅.

Definition is_slot_char (c : ascii) : bool :=
  is_upper c || is_digit c || Ascii.eqb c "_" || Ascii.eqb c "-".

(** [s] without its prefix [p], when it starts with [p]. *)
Fixpoint strip_prefix (p s : string) : option string :=
  match p with
  | EmptyString => Some s
  | String a p' =>
      match s with
      | String b s' => if Ascii.eqb a b then strip_prefix p' s' else None
      | EmptyString => None
      end
  end.

(** [href.match(/^\{\{slot:([A-Z0-9_\-]+)\}\}$/)]: the captured name. *)
Definition slot_ref_re (href : string) : option string :=
  match strip_prefix "{{slot:" href with
  | None => None
  | Some rest =>
      let '(name, tail) := span is_slot_char rest in
      if negb (String.eqb name "") && String.eqb tail "}}" then Some name else None
  end.

Definition resolveSlotHref (href : string) (slotUrls : gmap string string) : value :=
  match slot_ref_re href with
  | None => VStr href
  | Some key => nullish (slot_get slotUrls key) (VStr "#")
  end.

(** *** Blocks *)

(** [escapeHtml(v)] for a value of unknown type: only a string has [replace]. *)
Definition escapeHtml_any (v : value) : res string :=
  match v with
  | VStr s => Ok (escapeHtml s)
  | VUndef | VNull => Throw "TypeError: Cannot read properties of undefined (reading 'replace')"
  | _ => Throw "TypeError: s.replace is not a function"
  end.

(** The callback [b => b.type === ty && b.enabled !== false]. *)
Definition block_pred (ty : string) (b : value) : res bool :=
  t <- prop b "type" ;;
  if strict_eq_str t ty
  then (e <- prop b "enabled" ;; Ok (strict_ne_false e))
  else Ok false.

Definition attr (name val : string) : string := name ++ "=" ++ q ++ val ++ q.

Definition container_card (inner : string) : string :=
  "<div " ++ attr "class" "container" ++ "><div " ++ attr "class" "card" ++ ">"
  ++ inner ++ "</div></div>".

(** One call-to-action link of the hero block, or the empty string. *)
Definition render_cta (cls : string) (cta href : value) : res string :=
  if truthy cta && truthy href then
    h <- escapeHtml_any href ;;
    lab <- prop cta "label" ;;
    l <- escapeHtml_any lab ;;
    Ok ("<a " ++ attr "class" cls ++ " " ++ attr "href" h ++ ">" ++ l ++ "</a>")
  else Ok "".

Definition cta_href (cta : value) (slotUrls : gmap string string) : value :=
  match oprop cta "href" with
  | VStr s => resolveSlotHref s slotUrls
  | _ => VUndef
  end.

Definition render_hero (hero : value) (slotUrls : gmap string string) : res string :=
  data <- prop hero "data" ;;
  let h1 := nullish (oprop data "h1") (VStr "") in
  let sub := nullish (oprop data "subheading") (VStr "") in
  let cta1 := oprop data "primaryCta" in
  let cta2 := oprop data "secondaryCta" in
  let href1 := cta_href cta1 slotUrls in
  let href2 := cta_href cta2 slotUrls in
  eh1 <- escapeHtml_any h1 ;;
  esub <- escapeHtml_any sub ;;
  a1 <- render_cta "btn primary" cta1 href1 ;;
  a2 <- render_cta "btn" cta2 href2 ;;
  Ok ("<div " ++ attr "class" "container" ++ "><div " ++ attr "class" "card" ++ ">" ++ nl
      ++ "      <h1>" ++ eh1 ++ "</h1>" ++ nl
      ++ "      <p " ++ attr "class" "small" ++ ">" ++ esub ++ "</p>" ++ nl
      ++ "      <div>" ++ nl
      ++ "        " ++ a1 ++ nl
      ++ "        " ++ a2 ++ nl
      ++ "      </div>" ++ nl
      ++ "    </div></div>").

Definition render_content (content : value) : res string :=
  data <- prop content "data" ;;
  html <- to_string (nullish (oprop data "html") (VStr "")) ;;
  Ok (container_card html).

Definition contact_keys : list string :=
  [ "company"; "phone"; "email"; "address"; "hours" ].

Definition contact_line (data : value) (k : string) : list string :=
  match oprop data k with
  | VStr v =>
      if negb (trim_is_empty v)
      then [ "<div><b>" ++ escapeHtml (capitalize k) ++ ":</b> " ++ escapeHtml v ++ "</div>" ]
      else []
  | _ => []
  end.

Definition render_contacts (contacts : value) : res string :=
  data <- prop contacts "data" ;;
  let title := nullish (oprop data "title") (VStr "Contacts") in
  let lines := concat (map (contact_line data) contact_keys) in
  t <- escapeHtml_any title ;;
  let body := join "" lines in
  Ok (container_card
        ("<h2>" ++ t ++ "</h2>"
         ++ (if String.eqb body ""
             then "<p " ++ attr "class" "small" ++ ">No details provided.</p>"
             else body))).

Definition faq_item (it : value) : res string :=
  qv <- prop it "q" ;;
  av <- prop it "a" ;;
  eq <- escapeHtml_any (nullish qv (VStr "")) ;;
  ea <- escapeHtml_any (nullish av (VStr "")) ;;
  Ok ("<details " ++ attr "style" "margin:10px 0" ++ "><summary><b>" ++ eq
      ++ "</b></summary><div " ++ attr "class" "small" ++ " "
      ++ attr "style" "margin-top:6px" ++ ">" ++ ea ++ "</div></details>").

(** The pushed fragment of the FAQ block, if any. *)
Definition render_faq (faq : value) : res (list string) :=
  data <- prop faq "data" ;;
  let items := match oprop data "items" with VArr l => l | _ => [] end in
  match items with
  | [] => Ok []
  | _ =>
      list <- mapM faq_item items ;;
      Ok [ container_card ("<h2>FAQ</h2>" ++ join "" list) ]
  end.

Definition footer_item (slotUrls : gmap string string) (it : value) : res string :=
  hv <- prop it "href" ;;
  target <- match nullish hv (VStr "#") with
            | VStr s => Ok (resolveSlotHref s slotUrls)
            | _ => Throw "TypeError: href.match is not a function"
            end ;;
  h <- escapeHtml_any target ;;
  lv <- prop it "label" ;;
  l <- escapeHtml_any (nullish lv (nullish hv (VStr ""))) ;;
  Ok ("<li><a " ++ attr "href" h ++ ">" ++ l ++ "</a></li>").

Definition render_footer_links (footerLinks : value) (slotUrls : gmap string string)
  : res (list string) :=
  data <- prop footerLinks "data" ;;
  match oprop data "items" with
  | VArr (it :: r) =>
      list <- mapM (footer_item slotUrls) (it :: r) ;;
      Ok [ container_card ("<h3>Resources</h3><ul>" ++ join "" list ++ "</ul>") ]
  | _ => Ok []
  end.

Definition generator_credit : string :=
  "<div " ++ attr "class" "container" ++ "><p " ++ attr "class" "small"
  ++ ">Generated by Landing Factory (SSG v0.5)</p></div>".

(** The fragments pushed for one block type: the block found by
    [blocks.find], rendered by [render] when there is one. *)
Definition block_section (ty : string) (render : value -> res (list string))
    (blocks : list value) : res (list string) :=
  b <- array_find (block_pred ty) blocks ;;
  if truthy b then render b else Ok [].

Definition one (r : res string) : res (list string) := s <- r ;; Ok [s].

(** The array [parts] at the end of [renderBlocksWithSlots]. *)
Definition render_parts (blocks : list value) (slotUrls : gmap string string)
  : res (list string) :=
  p1 <- block_section "hero" (fun b => one (render_hero b slotUrls)) blocks ;;
  p2 <- block_section "content" (fun b => one (render_content b)) blocks ;;
  p3 <- block_section "contacts" (fun b => one (render_contacts b)) blocks ;;
  p4 <- block_section "faq" render_faq blocks ;;
  p5 <- block_section "footer_links" (fun b => render_footer_links b slotUrls) blocks ;;
  Ok (p1 ++ p2 ++ p3 ++ p4 ++ p5 ++ [generator_credit])%list.

Definition renderBlocksWithSlots (blocks : list value) (slotUrls : gmap string string)
  : res string :=
  parts <- render_parts blocks slotUrls ;;
  Ok (join nl parts).

Definition renderBlocks (blocks : list value) : res string :=
  renderBlocksWithSlots blocks ∅.

End Renderer.

Import Renderer.

(** ** The API: cadence calculator *)

Module Api.

Inductive CadenceType : Type := every_n_days | weekly | cron.

Section Cadence.

(** Offset of the server's local time from UTC, in milliseconds. *)
Variable tza : Z.

(** [computeNextRunAt(now, cadenceType, cadenceJson)]; [None] is an invalid
    [Date] (a parameter that is not a number).  The result is that of the
    program for integer parameters and as long as the dates stay in the range
    of time values. *)
Definition computeNextRunAt (now : Z) (cadenceType : CadenceType) (cadenceJson : value)
  : option Z :=
  let d := now in
  match cadenceType with
  | every_n_days =>
      n ← Number (nullish (oprop cadenceJson "n") (VNum 7));
      Some (setDate tza d (getDate tza d + Z.max 1 n))
  | weekly =>
      dow ← Number (nullish (oprop cadenceJson "dow") (VNum 1));
      hour ← Number (nullish (oprop cadenceJson "hour") (VNum 10));
      minute ← Number (nullish (oprop cadenceJson "minute") (VNum 0));
      let currentDow := ((getDay tza d + 6) mod 7) + 1 in
      let addDays := dow - currentDow in
      let addDays := if addDays <=? 0 then addDays + 7 else addDays in
      let d := setDate tza d (getDate tza d + addDays) in
      let d := setHours tza d hour minute 0 0 in
      Some d
  | cron =>
      minutes ← Number (nullish (oprop cadenceJson "minutes") (VNum 60));
      Some (setMinutes tza d (getMinutes tza d + Z.max 5 minutes))
  end.

End Cadence.

(** ** The API: the store and its monad *)

Inductive PageStatus : Type := page_draft | page_published.
Inductive SiteStatus : Type := site_draft | site_published.
Inductive BuildStatus : Type := build_queued | build_ready | build_published | build_failed.
Inductive RunStatus : Type := run_running | run_success | run_failed.

Record Site := {
  site_id : nat;
  site_status : SiteStatus;
  site_theme : string;
  site_language : option string;
}.

Record Page := {
  page_id : nat;
  page_siteId : nat;
  page_route : string;
  page_pageType : string;
  page_status : PageStatus;
  page_slug : option string;
  page_createdAt : Z;
}.

Record PageVersion := {
  pv_id : nat;
  pv_pageId : nat;
  versionNumber : Z;
  isPublished : bool;
  contentJson : value;
  seoJson : value;
  schemaJson : value;
}.

Record Build := {
  build_id : nat;
  build_siteId : nat;
  buildNumber : Z;
  build_status : BuildStatus;
  artifactPath : string;
  build_logs : option string;
  publishedAt : option Z;
}.

Record AutopostSchedule := {
  sched_id : nat;
  sched_siteId : nat;
  section : string;
  cadenceType : CadenceType;
  cadenceJson : value;
  requireApproval : bool;
  sched_isEnabled : bool;
  nextRunAt : Z;
  lastRunAt : option Z;
}.

Record AutopostRun := {
  run_id : nat;
  run_scheduleId : nat;
  run_status : RunStatus;
  run_logs : option string;
  resultJson : option value;
  finishedAt : option Z;
  createdPageId : option nat;
}.

(** The tables of the relational store; [next_id] is the source of fresh
    primary keys (uuids in the schema). *)
Record Store := {
  sites : list Site;
  pages : list Page;
  versions : list PageVersion;
  builds : list Build;
  schedules : list AutopostSchedule;
  runs : list AutopostRun;
  next_id : nat;
}.

(** Asynchronous code over the store: a result or an exception, and the
    store as the statements run so far left it (no transaction is used). *)
Definition M (A : Type) : Type := Store -> res A * Store.

Definition ret {A : Type} (a : A) : M A := fun s => (Ok a, s).
Definition throw {A : Type} (msg : string) : M A := fun s => (Throw msg, s).

Definition bindM {A B : Type} (m : M A) (k : A -> M B) : M B :=
  fun s =>
    match m s with
    | (Ok a, s') => k a s'
    | (Throw e, s') => (Throw e, s')
    end.

(** [try { m } catch (e) { handler(e) }] *)
Definition try_catch {A : Type} (m : M A) (handler : string -> M A) : M A :=
  fun s =>
    match m s with
    | (Ok a, s') => (Ok a, s')
    | (Throw e, s') => handler e s'
    end.

Definition get_store : M Store := fun s => (Ok s, s).
Definition modify (f : Store -> Store) : M unit := fun s => (Ok tt, f s).

Notation "x <~ m ;; k" := (bindM m (fun x => k))
  (at level 100, m at next level, right associativity, only parsing).
Notation "m ;;; k" := (bindM m (fun _ => k))
  (at level 100, right associativity, only parsing).

(** [for (const x of l) { body(x) }] *)
Fixpoint for_each {A : Type} (l : list A) (body : A -> M unit) : M unit :=
  match l with
  | [] => ret tt
  | x :: r => body x ;;; for_each r body
  end.

Definition fresh_id : M nat :=
  fun s =>
    (Ok (next_id s),
     {| sites := sites s; pages := pages s; versions := versions s;
        builds := builds s; schedules := schedules s; runs := runs s;
        next_id := S (next_id s) |}).

Definition set_sites (f : list Site -> list Site) (s : Store) : Store :=
  {| sites := f (sites s); pages := pages s; versions := versions s;
     builds := builds s; schedules := schedules s; runs := runs s;
     next_id := next_id s |}.

Definition set_pages (f : list Page -> list Page) (s : Store) : Store :=
  {| sites := sites s; pages := f (pages s); versions := versions s;
     builds := builds s; schedules := schedules s; runs := runs s;
     next_id := next_id s |}.

Definition set_versions (f : list PageVersion -> list PageVersion) (s : Store) : Store :=
  {| sites := sites s; pages := pages s; versions := f (versions s);
     builds := builds s; schedules := schedules s; runs := runs s;
     next_id := next_id s |}.

Definition set_builds (f : list Build -> list Build) (s : Store) : Store :=
  {| sites := sites s; pages := pages s; versions := versions s;
     builds := f (builds s); schedules := schedules s; runs := runs s;
     next_id := next_id s |}.

Definition set_schedules (f : list AutopostSchedule -> list AutopostSchedule) (s : Store) : Store :=
  {| sites := sites s; pages := pages s; versions := versions s;
     builds := builds s; schedules := f (schedules s); runs := runs s;
     next_id := next_id s |}.

Definition set_runs (f : list AutopostRun -> list AutopostRun) (s : Store) : Store :=
  {| sites := sites s; pages := pages s; versions := versions s;
     builds := builds s; schedules := schedules s; runs := f (runs s);
     next_id := next_id s |}.

(** The first row with the greatest key ([findFirst] with [orderBy: desc];
    among rows of equal key the store's order decides). *)
Fixpoint max_by {A : Type} (key : A -> Z) (l : list A) : option A :=
  match l with
  | [] => None
  | x :: r =>
      match max_by key r with
      | Some y => if key x <? key y then Some y else Some x
      | None => Some x
      end
  end.

(** [update({ where: { id }, data })] on a table. *)
Definition update_where {A : Type} (id_of : A -> nat) (id : nat) (f : A -> A)
    (l : list A) : list A :=
  map (fun x => if Nat.eqb (id_of x) id then f x else x) l.

(** *** Prisma calls used by the publish pipeline *)

Definition site_findUnique (id : nat) : M (option Site) :=
  s <~ get_store ;; ret (find (fun x => Nat.eqb (site_id x) id) (sites s)).

Definition page_findMany_bySite (siteId : nat) : M (list Page) :=
  s <~ get_store ;; ret (List.filter (fun p => Nat.eqb (page_siteId p) siteId) (pages s)).

Definition pageVersion_findFirst_latest (pageId : nat) : M (option PageVersion) :=
  s <~ get_store ;;
  ret (max_by versionNumber (List.filter (fun v => Nat.eqb (pv_pageId v) pageId) (versions s))).

Definition set_isPublished (b : bool) (v : PageVersion) : PageVersion :=
  {| pv_id := pv_id v; pv_pageId := pv_pageId v; versionNumber := versionNumber v;
     isPublished := b; contentJson := contentJson v; seoJson := seoJson v;
     schemaJson := schemaJson v |}.

Definition pageVersion_update_isPublished (id : nat) (b : bool) : M unit :=
  modify (set_versions (update_where pv_id id (set_isPublished b))).

Definition set_page_status (st : PageStatus) (p : Page) : Page :=
  {| page_id := page_id p; page_siteId := page_siteId p; page_route := page_route p;
     page_pageType := page_pageType p; page_status := st; page_slug := page_slug p;
     page_createdAt := page_createdAt p |}.

Definition page_update_status (id : nat) (st : PageStatus) : M unit :=
  modify (set_pages (update_where page_id id (set_page_status st))).

Definition build_findFirst_last (siteId : nat) : M (option Build) :=
  s <~ get_store ;;
  ret (max_by buildNumber (List.filter (fun b => Nat.eqb (build_siteId b) siteId) (builds s))).

Definition build_create (siteId : nat) (n : Z) : M Build :=
  id <~ fresh_id ;;
  let b := {| build_id := id; build_siteId := siteId; buildNumber := n;
              build_status := build_queued; artifactPath := "";
              build_logs := None; publishedAt := None |} in
  modify (set_builds (fun l => l ++ [b])%list) ;;;
  ret b.

Definition build_update (id : nat) (f : Build -> Build) : M unit :=
  modify (set_builds (update_where build_id id f)).

Definition build_mark_failed (logs : string) (b : Build) : Build :=
  {| build_id := build_id b; build_siteId := build_siteId b; buildNumber := buildNumber b;
     build_status := build_failed; artifactPath := artifactPath b;
     build_logs := Some logs; publishedAt := publishedAt b |}.

Definition build_mark_published (path : string) (now : Z) (b : Build) : Build :=
  {| build_id := build_id b; build_siteId := build_siteId b; buildNumber := buildNumber b;
     build_status := build_published; artifactPath := path;
     build_logs := build_logs b; publishedAt := Some now |}.

Definition set_site_status (st : SiteStatus) (x : Site) : Site :=
  {| site_id := site_id x; site_status := st; site_theme := site_theme x;
     site_language := site_language x |}.

Definition site_update_status (id : nat) (st : SiteStatus) : M unit :=
  modify (set_sites (update_where site_id id (set_site_status st))).

(** What the call [fetch(RENDERER_URL/render/site/:id)] comes back with: the
    promise rejects, the renderer answers with an error status and a text,
    or it answers [{ ok: true, artifactPath, ... }]. *)
Inductive FetchOutcome : Type :=
| FetchRejected (msg : string)
| FetchNotOk (text : string)
| FetchOk (artifactPath : string).

Record PublishResult := { buildId : nat; result_artifactPath : string }.

Section Publish.

(** The time read by [new Date()] and the renderer's answer. *)
Variable now : Z.
Variable resp : FetchOutcome.

(** The loop [for (const p of pages)] that marks latest versions. *)
Definition publish_latest_versions (pages : list Page) : M unit :=
  for_each pages (fun p =>
    latest <~ pageVersion_findFirst_latest (page_id p) ;;
    match latest with
    | None => ret tt
    | Some latest =>
        pageVersion_update_isPublished (pv_id latest) true ;;;
        page_update_status (page_id p) page_published
    end).

Definition internalPublishSite (siteId : nat) : M PublishResult :=
  site <~ site_findUnique siteId ;;
  match site with
  | None => throw "Site not found"
  | Some site =>
      pages <~ page_findMany_bySite (site_id site) ;;
      publish_latest_versions pages ;;;
      lastBuild <~ build_findFirst_last (site_id site) ;;
      let nextBuildNumber :=
        (match lastBuild with Some b => buildNumber b | None => 0 end) + 1 in
      build <~ build_create (site_id site) nextBuildNumber ;;
      match resp with
      | FetchRejected msg => throw msg
      | FetchNotOk t =>
          build_update (build_id build) (build_mark_failed t) ;;;
          throw ("Renderer error: " ++ t)
      | FetchOk path =>
          build_update (build_id build) (build_mark_published path now) ;;;
          site_update_status (site_id site) site_published ;;;
          ret {| buildId := build_id build; result_artifactPath := path |}
      end
  end.

(** The handler of [POST /sites/:id/publish], which holds the same
    statements as [internalPublishSite]. *)
Definition post_sites_publish (siteId : nat) : M PublishResult :=
  site <~ site_findUnique siteId ;;
  match site with
  | None => throw "Site not found"
  | Some site =>
      pages <~ page_findMany_bySite (site_id site) ;;
      publish_latest_versions pages ;;;
      lastBuild <~ build_findFirst_last (site_id site) ;;
      let nextBuildNumber :=
        (match lastBuild with Some b => buildNumber b | None => 0 end) + 1 in
      build <~ build_create (site_id site) nextBuildNumber ;;
      match resp with
      | FetchRejected msg => throw msg
      | FetchNotOk t =>
          build_update (build_id build) (build_mark_failed t) ;;;
          throw ("Renderer error: " ++ t)
      | FetchOk path =>
          build_update (build_id build) (build_mark_published path now) ;;;
          site_update_status (site_id site) site_published ;;;
          ret {| buildId := build_id build; result_artifactPath := path |}
      end
  end.

(** *** Prisma calls used by the autopost run *)

Definition schedule_findUnique (id : nat) : M (option AutopostSchedule) :=
  s <~ get_store ;; ret (find (fun x => Nat.eqb (sched_id x) id) (schedules s)).

Definition page_findUnique_siteId_route (siteId : nat) (route : string) : M (option Page) :=
  s <~ get_store ;;
  ret (find (fun p => Nat.eqb (page_siteId p) siteId && String.eqb (page_route p) route)
         (pages s)).

(** [prisma.page.create]: the site must exist and the pair (siteId, route)
    is unique. *)
Definition page_create (siteId : nat) (route pageType : string) (slug : option string)
  : M Page :=
  site <~ site_findUnique siteId ;;
  existing <~ page_findUnique_siteId_route siteId route ;;
  match site, existing with
  | None, _ => throw "Foreign key constraint failed on the field: Page_siteId_fkey"
  | _, Some _ => throw "Unique constraint failed on the fields: (siteId,route)"
  | Some _, None =>
      id <~ fresh_id ;;
      let p := {| page_id := id; page_siteId := siteId; page_route := route;
                  page_pageType := pageType; page_status := page_draft;
                  page_slug := slug; page_createdAt := now |} in
      modify (set_pages (fun l => l ++ [p])%list) ;;;
      ret p
  end.

Definition pageVersion_create (pageId : nat) (n : Z) (published : bool)
    (content seo schema : value) : M PageVersion :=
  id <~ fresh_id ;;
  let v := {| pv_id := id; pv_pageId := pageId; versionNumber := n;
              isPublished := published; contentJson := content; seoJson := seo;
              schemaJson := schema |} in
  modify (set_versions (fun l => l ++ [v])%list) ;;;
  ret v.

(** Insertion of [p] into a list ordered by [createdAt] descending, before
    the rows created at the same time or earlier (rows of equal time keep
    the order of the table). *)
Fixpoint insert_by_createdAt_desc (p : Page) (l : list Page) : list Page :=
  match l with
  | [] => [p]
  | x :: r =>
      if page_createdAt p <? page_createdAt x then x :: insert_by_createdAt_desc p r
      else p :: l
  end.

Definition sort_by_createdAt_desc (l : list Page) : list Page :=
  fold_right insert_by_createdAt_desc [] l.

(** [findMany({ where: { siteId, route: { startsWith } },
                orderBy: { createdAt: "desc" }, take: 30 })] *)
Definition page_findMany_posts (siteId : nat) (prefix : string) : M (list Page) :=
  s <~ get_store ;;
  ret (firstn 30
         (sort_by_createdAt_desc
            (List.filter (fun p => Nat.eqb (page_siteId p) siteId
                                   && startsWith (page_route p) prefix)
               (pages s)))).

Definition set_schedule_run (last : Z) (next : Z) (x : AutopostSchedule) : AutopostSchedule :=
  {| sched_id := sched_id x; sched_siteId := sched_siteId x; section := section x;
     cadenceType := cadenceType x; cadenceJson := cadenceJson x;
     requireApproval := requireApproval x; sched_isEnabled := sched_isEnabled x;
     nextRunAt := next; lastRunAt := Some last |}.

(** [autopostSchedule.update({ data: { lastRunAt, nextRunAt } })]; an invalid
    [Date] is refused by the client. *)
Definition schedule_update_run (id : nat) (last : Z) (next : option Z) : M unit :=
  match next with
  | None => throw "Invalid value for argument nextRunAt: Provided Date object is invalid"
  | Some next => modify (set_schedules (update_where sched_id id (set_schedule_run last next)))
  end.

Definition run_create (scheduleId : nat) : M AutopostRun :=
  id <~ fresh_id ;;
  let r := {| run_id := id; run_scheduleId := scheduleId; run_status := run_running;
              run_logs := None; resultJson := None; finishedAt := None;
              createdPageId := None |} in
  modify (set_runs (fun l => l ++ [r])%list) ;;;
  ret r.

Definition run_mark_success (result : value) (pageId : nat) (r : AutopostRun) : AutopostRun :=
  {| run_id := run_id r; run_scheduleId := run_scheduleId r; run_status := run_success;
     run_logs := run_logs r; resultJson := Some result; finishedAt := Some now;
     createdPageId := Some pageId |}.

Definition run_mark_failed (logs : string) (r : AutopostRun) : AutopostRun :=
  {| run_id := run_id r; run_scheduleId := run_scheduleId r; run_status := run_failed;
     run_logs := Some logs; resultJson := resultJson r; finishedAt := Some now;
     createdPageId := createdPageId r |}.

Definition run_update (id : nat) (f : AutopostRun -> AutopostRun) : M unit :=
  modify (set_runs (update_where run_id id f)).

(** *** Autopost *)

Definition slots_unresolved : value :=
  VObj [("links", VObj [("HERO_CTA", VObj [("resolved", VBool false)]);
                        ("FOOTER", VObj [("resolved", VBool false)])])].

Definition hero_block (h1 subheading label href : string) : value :=
  VObj [("id", VStr "hero"); ("type", VStr "hero"); ("enabled", VBool true);
        ("data", VObj [("h1", VStr h1); ("subheading", VStr subheading);
                       ("primaryCta", VObj [("label", VStr label); ("href", VStr href)])])].

Definition content_block (html : string) : value :=
  VObj [("id", VStr "content"); ("type", VStr "content"); ("enabled", VBool true);
        ("data", VObj [("html", VStr html)])].

Definition footer_links_block : value :=
  VObj [("id", VStr "footer_links"); ("type", VStr "footer_links"); ("enabled", VBool true);
        ("data", VObj [("items", VArr [VObj [("label", VStr "Primary");
                                              ("href", VStr "{{slot:FOOTER}}")]])])].

Definition page_header (route pageType lang : string) : value :=
  VObj [("route", VStr route); ("pageType", VStr pageType); ("lang", VStr lang)].

Definition ensureIndexPage (siteId : nat) (route pageType title : string) : M nat :=
  existing <~ page_findUnique_siteId_route siteId route ;;
  match existing with
  | Some existing => ret (page_id existing)
  | None =>
      page <~ page_create siteId route pageType None ;;
      pageVersion_create (page_id page) 1 false
        (VObj [("page", page_header route pageType "ru");
               ("blocks", VArr [ VObj [("id", VStr "hero"); ("type", VStr "hero");
                                       ("enabled", VBool true);
                                       ("data", VObj [("h1", VStr title);
                                                      ("subheading", VStr "");
                                                      ("primaryCta",
                                                        VObj [("label", VStr "Home");
                                                              ("href", VStr "/")])])];
                                 content_block ("<p " ++ attr "class" "small"
                                                ++ ">No posts yet.</p>") ]);
               ("slots", slots_unresolved)])
        (VObj [("title", VStr title); ("description", VStr title)])
        (VArr []) ;;;
      ret (page_id page)
  end.

(** Offset of the server's local time, for [computeNextRunAt]. *)
Variable tza : Z.

Definition publish_result_json (r : PublishResult) : value :=
  VObj [("buildId", VNum (Z.of_nat (buildId r)));
        ("artifactPath", VStr (result_artifactPath r))].

Definition post_link (p : Page) : string :=
  "<li><a " ++ attr "href" (page_route p) ++ ">"
  ++ (match page_slug p with Some slug => slug | None => page_route p end)
  ++ "</a></li>".

(** What the statements of the [try] block hand to the final update of the
    run: the route of the post, the result of the nested publish ([null]
    when approval is required) and the id of the created page. *)
Record AutopostOutcome := {
  postRoute : string;
  published : value;
  postPageId : nat;
}.

(** The statements inside [try { ... }] of [runAutopostSchedule] up to the
    nested publish: the post page and its version, the index page and its
    new version, the cadence update, the publish. *)
Definition autopost_steps (schedule : AutopostSchedule) (site : option Site)
  : M AutopostOutcome :=
  let siteId := sched_siteId schedule in
  let section := if String.eqb (section schedule) "news" then "news" else "blog" in
  let base := "/" ++ section in
  let slug := section ++ "-" ++ Z_to_string now in
  let route := base ++ "/" ++ slug in
  let title := toUpperCase section ++ " update: " ++ iso_date now in
  let bodyHtml := "<h2>" ++ title ++ "</h2><p " ++ attr "class" "small"
                  ++ ">Auto-generated post placeholder. Replace with AI generation in v1.1.</p>" in
  let is_blog := String.eqb section "blog" in
  postPage <~ page_create siteId route (if is_blog then "blog_post" else "news_item")
                (Some slug) ;;
  match site with
  | None => throw "TypeError: Cannot read properties of null (reading 'language')"
  | Some site =>
      let lang := match site_language site with Some l => l | None => "ru" end in
      pageVersion_create (page_id postPage) 1 (negb (requireApproval schedule))
        (VObj [("page", page_header route (page_pageType postPage) lang);
               ("blocks", VArr [ hero_block title (site_theme site) "Back" base;
                                 content_block bodyHtml;
                                 footer_links_block ]);
               ("slots", slots_unresolved)])
        (VObj [("title", VStr title); ("description", VStr title)])
        (VArr []) ;;;
      indexPageId <~ ensureIndexPage siteId base
                       (if is_blog then "blog_index" else "news_index")
                       (if is_blog then "Blog" else "News") ;;
      indexLatest <~ pageVersion_findFirst_latest indexPageId ;;
      let vnum := (match indexLatest with Some v => versionNumber v | None => 0 end) + 1 in
      allPosts <~ page_findMany_posts siteId (base ++ "/") ;;
      let listHtml := "<ul>" ++ join "" (map post_link allPosts) ++ "</ul>" in
      pageVersion_create indexPageId vnum (negb (requireApproval schedule))
        (VObj [("page", page_header base (if is_blog then "blog_index" else "news_index") lang);
               ("blocks", VArr [ hero_block (if is_blog then "Blog" else "News")
                                   (site_theme site) "Home" "/";
                                 content_block listHtml;
                                 footer_links_block ]);
               ("slots", slots_unresolved)])
        (VObj [("title", VStr (if is_blog then "Blog" else "News"));
               ("description", VStr (site_theme site))])
        (VArr []) ;;;
      let nextRunAt := computeNextRunAt tza now (cadenceType schedule) (cadenceJson schedule) in
      schedule_update_run (sched_id schedule) now nextRunAt ;;;
      published <~ (if negb (requireApproval schedule)
                    then r <~ internalPublishSite siteId ;; ret (publish_result_json r)
                    else ret VNull) ;;
      ret {| postRoute := route; published := published; postPageId := page_id postPage |}
  end.

(** [resultJson] of a successful run. *)
Definition run_result_json (o : AutopostOutcome) : value :=
  VObj [("postRoute", VStr (postRoute o)); ("published", published o)].

(** The whole [try] block: the steps, then the update that marks the run
    [success], then the returned object. *)
Definition autopost_body (schedule : AutopostSchedule) (site : option Site)
    (run : AutopostRun) : M value :=
  o <~ autopost_steps schedule site ;;
  run_update (run_id run) (run_mark_success (run_result_json o) (postPageId o)) ;;;
  ret (VObj [("ok", VBool true); ("postRoute", VStr (postRoute o));
             ("published", published o)]).

Definition runAutopostSchedule (scheduleId : nat) : M value :=
  schedule <~ schedule_findUnique scheduleId ;;
  match schedule with
  | None => throw "Schedule not found"
  | Some schedule =>
      site <~ site_findUnique (sched_siteId schedule) ;;
      if negb (sched_isEnabled schedule)
      then ret (VObj [("ok", VBool false); ("message", VStr "Schedule disabled")])
      else
        run <~ run_create (sched_id schedule) ;;
        try_catch (autopost_body schedule site run)
          (fun e =>
             run_update (run_id run) (run_mark_failed e) ;;;
             throw e)
  end.

End Publish.

End Api.

Import Api.

(** ** Paths: [path.join] of the platform, for POSIX paths *)

Module Path.

(** The segments of a path, between its slashes. *)
Fixpoint split_slash (s : string) : list string :=
  match s with
  | EmptyString => [EmptyString]
  | String c r =>
      if Ascii.eqb c "/" then EmptyString :: split_slash r
      else
        match split_slash r with
        | seg :: rest => String c seg :: rest
        | [] => [String c EmptyString]
        end
  end.

(** One segment in the scan of [normalizeString]; [kept] holds the segments
    kept so far, the last one first.  An empty segment and [.] are dropped;
    [..] removes the last segment kept, unless there is none or it is [..]
    itself, where [..] is kept for a relative path and dropped for an
    absolute one. *)
Definition normalize_step (allowAboveRoot : bool) (kept : list string) (seg : string)
  : list string :=
  if String.eqb seg "" || String.eqb seg "." then kept
  else if String.eqb seg ".." then
    match kept with
    | last :: rest =>
        if String.eqb last ".." then (if allowAboveRoot then seg :: kept else kept)
        else rest
    | [] => if allowAboveRoot then [seg] else []
    end
  else seg :: kept.

Definition normalize_segments (allowAboveRoot : bool) (segs : list string) : list string :=
  rev (fold_left (normalize_step allowAboveRoot) segs []).

Definition starts_with_slash (p : string) : bool :=
  match p with
  | String c _ => Ascii.eqb c "/"
  | EmptyString => false
  end.

(** The result of [normalize] from its three parts. *)
Definition assemble (isAbsolute : bool) (body : string) (trailingSeparator : bool) : string :=
  if String.eqb body "" then
    if isAbsolute then "/" else if trailingSeparator then "./" else "."
  else (if isAbsolute then "/" else "") ++ body ++ (if trailingSeparator then "/" else "").

(** [path.normalize(p)] *)
Definition normalize (p : string) : string :=
  if String.eqb p "" then "."
  else
    let isAbsolute := starts_with_slash p in
    assemble isAbsolute
      (join "/" (normalize_segments (negb isAbsolute) (split_slash p)))
      (ends_with_slash p).

(** [path.join(...args)]: the arguments that are not empty, joined by a
    slash and normalized; [.] when there is none. *)
Definition path_join (args : list string) : string :=
  match List.filter (fun a => negb (String.eqb a "")) args with
  | [] => "."
  | parts => normalize (join "/" parts)
  end.

End Path.

Import Path.

(** ** The renderer: theme, page shell and the site handler *)

Module SiteRender.

(** [arr.join(sep)]: [undefined] and [null] elements give the empty string. *)
Fixpoint array_join_strings (l : list value) : res (list string) :=
  match l with
  | [] => Ok []
  | x :: r =>
      sx <- match x with
            | VUndef | VNull => Ok ""
            | _ => to_string x
            end ;;
      sr <- array_join_strings r ;;
      Ok (sx :: sr)
  end.

Definition array_join (sep : string) (l : list value) : res string :=
  ss <- array_join_strings l ;; Ok (join sep ss).

(** [requireAdmin(tokenHeader)] of the renderer. *)
Definition requireAdmin (ADMIN_TOKEN : string) (tokenHeader : value) : bool :=
  let token := match tokenHeader with
               | VArr l => nth 0 l VUndef
               | _ => tokenHeader
               end in
  strict_eq_str token ADMIN_TOKEN.

Definition cssFromTheme (themeJson componentPreset : value) : res string :=
  let c := nullish (oprop themeJson "colors") (VObj []) in
  let radius := nullish (oprop themeJson "radius") (VObj []) in
  let buttons := nullish (oprop themeJson "buttons") (VObj []) in
  let primaryStyle :=
    nullish (oprop (oprop componentPreset "hero") "cta_style")
      (nullish (oprop buttons "primary_style") (VStr "solid")) in
  let useGradient := strict_eq_str primaryStyle "gradient" in
  let primaryBg := if useGradient
                   then "linear-gradient(90deg, var(--text), var(--muted))"
                   else "var(--text)" in
  let rCard := radiusTokenToPx (oprop radius "card") "16px" in
  let rBtn := radiusTokenToPx (oprop radius "button") "12px" in
  bg <- to_string (nullish (oprop c "bg") (VStr "#ffffff")) ;;
  surface <- to_string (nullish (oprop c "surface") (VStr "#f8fafc")) ;;
  text <- to_string (nullish (oprop c "text") (VStr "#0f172a")) ;;
  muted <- to_string (nullish (oprop c "muted_text") (VStr "#475569")) ;;
  border <- to_string (nullish (oprop c "border") (VStr "#e2e8f0")) ;;
  card <- to_string rCard ;;
  btn <- to_string rBtn ;;
  Ok (":root{--bg:" ++ bg ++ ";--surface:" ++ surface ++ ";--text:" ++ text
      ++ ";--muted:" ++ muted ++ ";--border:" ++ border ++ ";--r-card:" ++ card
      ++ ";--r-btn:" ++ btn ++ ";}" ++ nl
      ++ "body{margin:0;font-family:system-ui,-apple-system,Segoe UI,Roboto,Ubuntu,"
      ++ q ++ "Helvetica Neue" ++ q
      ++ ",Arial; background:var(--bg); color:var(--text);} " ++ nl
      ++ ".container{max-width:980px;margin:0 auto;padding:24px;} " ++ nl
      ++ ".card{background:var(--surface);border:1px solid var(--border);border-radius:var(--r-card);padding:20px;} " ++ nl
      ++ "a{color:inherit} " ++ nl
      ++ ".btn{display:inline-block;padding:12px 16px;border-radius:var(--r-btn);border:1px solid var(--border);text-decoration:none;margin-right:10px} " ++ nl
      ++ ".btn.primary{background:" ++ primaryBg
      ++ ";color:var(--bg);border-color:var(--text)}" ++ nl
      ++ ".small{color:var(--muted);font-size:14px}").

(** [htmlPage(params)]: [title] and [description] come from a JSON document
    and are values; the other members are strings built by the handler. *)
Definition htmlPage (title description : value) (body css headExtras bodyEndExtras : string)
  : res string :=
  let desc := nullish description (VStr "") in
  t <- escapeHtml_any title ;;
  meta <- (if truthy desc
           then d <- escapeHtml_any desc ;;
                Ok ("<meta " ++ attr "name" "description" ++ " " ++ attr "content" d ++ " />")
           else Ok "") ;;
  Ok ("<!doctype html>" ++ nl
      ++ "<html " ++ attr "lang" "ru" ++ ">" ++ nl
      ++ "<head>" ++ nl
      ++ "  <meta " ++ attr "charset" "utf-8" ++ " />" ++ nl
      ++ "  <meta " ++ attr "name" "viewport" ++ " "
      ++ attr "content" "width=device-width, initial-scale=1" ++ " />" ++ nl
      ++ "  <title>" ++ t ++ "</title>" ++ nl
      ++ "  " ++ meta ++ nl
      ++ "  " ++ headExtras ++ nl
      ++ "  <style>" ++ css ++ "</style>" ++ nl
      ++ "</head>" ++ nl
      ++ "<body>" ++ nl
      ++ body ++ nl
      ++ bodyEndExtras ++ nl
      ++ "</body>" ++ nl
      ++ "</html>").

(** The rows that the handler loads with the site. *)
Record SiteVersion := {
  sv_isPublished : bool;
  sv_versionNumber : Z;
  sv_contentJson : value;
  sv_seoJson : value;
}.

Record SitePage := {
  sp_route : string;
  sp_versions : list SiteVersion;
}.

Record SiteRow := {
  ss_domainName : string;
  ss_themePreset : option value;
  ss_componentStylePreset : option value;
  ss_analyticsProfile : option value;
  ss_links : list LinkAssignment;
  ss_pages : list SitePage;
}.

(** Insertion of [v] into a list sorted by the comparator
    [(a, b) => b.versionNumber - a.versionNumber], before the elements that
    do not sort before it. *)
Fixpoint insert_version_desc (v : SiteVersion) (l : list SiteVersion) : list SiteVersion :=
  match l with
  | [] => [v]
  | x :: r =>
      if sv_versionNumber v <? sv_versionNumber x then x :: insert_version_desc v r
      else v :: l
  end.

(** [versions.sort((a, b) => b.versionNumber - a.versionNumber)]; the sort
    of the language is stable. *)
Definition sort_versions_desc (l : list SiteVersion) : list SiteVersion :=
  fold_right insert_version_desc [] l.

(** [versions.find(v => v.isPublished) ?? versions.sort(...)[0]] *)
Definition authoritative_version (versions : list SiteVersion) : option SiteVersion :=
  match List.find sv_isPublished versions with
  | Some v => Some v
  | None => head (sort_versions_desc versions)
  end.

(** The calls of the handler on the file system and on the store, with
    the paths that [path.join] gives. *)
Inductive Effect : Type :=
| Mkdir (path : string)
| WriteFile (path : string) (content : string)
| BuildReady (buildId : nat) (sitemapPath robotsPath : string).

Inductive Reply : Type :=
| Unauthorized
| SiteNotFound
| Rendered (artifactPath outDir : string) (pages : nat).

(** The values computed once before the loop over the pages. *)
Record PageContext := {
  ctx_domainName : string;
  ctx_outDir : string;
  ctx_css : string;
  ctx_headExtras : string;
  ctx_bodyEndExtras : string;
  ctx_slotUrls : gmap string string;
}.

(** The HTML of a page from its authoritative version. *)
Definition page_html (ctx : PageContext) (published : SiteVersion) : res string :=
  let content := sv_contentJson published in
  let seo := nullish (sv_seoJson published) (VObj []) in
  blocks <- prop content "blocks" ;;
  body <- match nullish blocks (VArr []) with
          | VArr l => renderBlocksWithSlots l (ctx_slotUrls ctx)
          | _ => Throw "TypeError: blocks.find is not a function"
          end ;;
  htmlPage (nullish (oprop seo "title") (VStr ("Site " ++ ctx_domainName ctx)))
    (oprop seo "description") body (ctx_css ctx) (ctx_headExtras ctx)
    (ctx_bodyEndExtras ctx).

(** The entry pushed on [routes] for a page. *)
Definition route_entry (route : string) : string :=
  if String.eqb route "/" then "" else route.

(** The directory and the file of a page under [outDir], as the loop
    computes them. *)
Definition page_dir (outDir : string) (route : string) : string :=
  path_join [outDir; dir (routeToFile route)].

Definition page_file (outDir : string) (route : string) : string :=
  path_join [page_dir outDir route; file (routeToFile route)].

Definition analytics_extras (label : string) (scripts : value) (k : string) : res string :=
  joined <- match oprop scripts k with
            | VArr l => array_join nl l
            | _ => Ok ""
            end ;;
  Ok (if String.eqb joined "" then ""
      else nl ++ "<!-- analytics:" ++ label ++ " -->" ++ nl ++ joined ++ nl).

Definition robots_txt (domainName : string) : string :=
  "User-agent: *" ++ nl ++ "Allow: /" ++ nl ++ "Sitemap: https://" ++ domainName
  ++ "/sitemap.xml" ++ nl.

Definition sitemap_xml (domainName : string) (routes : list string) : string :=
  let urls := join nl (map (fun r => "  <url><loc>https://" ++ domainName ++ r
                                      ++ "</loc></url>") routes) in
  "<?xml " ++ attr "version" "1.0" ++ " " ++ attr "encoding" "UTF-8" ++ "?>" ++ nl
  ++ "<urlset " ++ attr "xmlns" "http://www.sitemaps.org/schemas/sitemap/0.9" ++ ">" ++ nl
  ++ urls ++ nl ++ "</urlset>".

Section Handler.

(** The environment of the renderer. *)
Variable ADMIN_TOKEN : string.
Variable OUTPUT_ROOT : string.

(** The file system and the store as the handler meets them: whether the
    next call is refused, and with which error, after the calls that were
    carried out so far. *)
Variable io_error : list Effect -> Effect -> option string.

(** An awaited call: it is carried out and entered in the log, or it
    rejects, and the log is left as it was (what a rejected call left on the
    disk is not recorded). *)
Definition perform (call : Effect) (log : list Effect) : res unit * list Effect :=
  match io_error log call with
  | Some e => (Throw e, log)
  | None => (Ok tt, (log ++ [call])%list)
  end.

(** The loop [for (const page of site.pages)], from the routes and the
    calls so far. *)
Fixpoint render_pages (ctx : PageContext) (pages : list SitePage) (routes : list string)
    (log : list Effect) : res (list string) * list Effect :=
  match pages with
  | [] => (Ok routes, log)
  | page :: rest =>
      match authoritative_version (sp_versions page) with
      | None => render_pages ctx rest routes log
      | Some published =>
          match perform (Mkdir (page_dir (ctx_outDir ctx) (sp_route page))) log with
          | (Throw e, log) => (Throw e, log)
          | (Ok _, log) =>
              match page_html ctx published with
              | Throw e => (Throw e, log)
              | Ok html =>
                  match perform (WriteFile (page_file (ctx_outDir ctx) (sp_route page)) html)
                          log with
                  | (Throw e, log) => (Throw e, log)
                  | (Ok _, log) =>
                      render_pages ctx rest (routes ++ [route_entry (sp_route page)])%list log
                  end
              end
          end
      end
  end.

(** The handler of [POST /render/site/:siteId]: the header, whether the
    two ids parse as UUIDs, what the lookup of the site gives and the build
    id of the body; the result with the calls carried out, in order. *)
Definition render_site (tokenHeader : value) (ids_valid : bool)
    (site : res (option SiteRow)) (buildId : nat) : res Reply * list Effect :=
  if negb (requireAdmin ADMIN_TOKEN tokenHeader) then (Ok Unauthorized, [])
  else if negb ids_valid then (Throw "ZodError", [])
  else
    match site with
    | Throw e => (Throw e, [])
    | Ok None => (Ok SiteNotFound, [])
    | Ok (Some site) =>
        let outDir := path_join [OUTPUT_ROOT; ss_domainName site] in
        match perform (Mkdir outDir) [] with
        | (Throw e, log) => (Throw e, log)
        | (Ok _, log) =>
            let themeJson := match ss_themePreset site with
                             | Some j => nullish j VNull
                             | None => VNull
                             end in
            let preset := match ss_componentStylePreset site with
                          | Some j => j
                          | None => VUndef
                          end in
            let scripts := match ss_analyticsProfile site with
                           | Some j => nullish j (VObj [])
                           | None => VObj []
                           end in
            match (css <- cssFromTheme themeJson preset ;;
                   headExtras <- analytics_extras "head" scripts "head" ;;
                   bodyEndExtras <- analytics_extras "body_end" scripts "body_end" ;;
                   Ok {| ctx_domainName := ss_domainName site; ctx_outDir := outDir;
                         ctx_css := css; ctx_headExtras := headExtras;
                         ctx_bodyEndExtras := bodyEndExtras;
                         ctx_slotUrls := buildSlotUrls (ss_links site) |}) with
            | Throw e => (Throw e, log)
            | Ok ctx =>
                match render_pages ctx (ss_pages site) [] log with
                | (Throw e, log) => (Throw e, log)
                | (Ok routes, log) =>
                    let robotsPath := path_join [outDir; "robots.txt"] in
                    let sitemapPath := path_join [outDir; "sitemap.xml"] in
                    match perform (WriteFile robotsPath (robots_txt (ss_domainName site)))
                            log with
                    | (Throw e, log) => (Throw e, log)
                    | (Ok _, log) =>
                        match perform (WriteFile sitemapPath
                                         (sitemap_xml (ss_domainName site) routes)) log with
                        | (Throw e, log) => (Throw e, log)
                        | (Ok _, log) =>
                            match perform (BuildReady buildId sitemapPath robotsPath) log with
                            | (Throw e, log) => (Throw e, log)
                            | (Ok _, log) =>
                                (Ok (Rendered outDir outDir (length routes)), log)
                            end
                        end
                    end
                end
            end
        end
    end.

End Handler.

End SiteRender. Import SiteRender.

(** ** The API: the guard of the routes *)

Module Auth.

(** [requireAdmin] of the API (a [preHandler]): [true] when the request
    passes, [false] when the reply is 401. *)
Definition requireAdmin (ADMIN_TOKEN : string) (token : value) : bool :=
  negb (negb (truthy token)
        || negb (strict_eq_str (match token with
                                | VArr l => nth 0 l VUndef
                                | _ => token
                                end) ADMIN_TOKEN)).

End Auth.

(** ** The API: the background loop *)

Module Scheduler.

Section Tick.

(** The time read at the start of a tick; the time read and the renderer's
    answer during the run of the [i]-th schedule of the tick. *)
Variable now : Z.
Variable run_now : nat -> Z.
Variable run_resp : nat -> FetchOutcome.
Variable tza : Z.

(** [findMany({ where: { isEnabled: true, nextRunAt: { lte: now } }, take: 5 })];
    no order is asked for, the rows come in the order of the table. *)
Definition schedules_due : M (list AutopostSchedule) :=
  s <~ get_store ;;
  ret (firstn 5 (List.filter (fun x => sched_isEnabled x && (nextRunAt x <=? now))
                   (schedules s))).

(** [for (const s of due) await runAutopostSchedule(s.id)], from the [i]-th run. *)
Fixpoint run_due (i : nat) (due : list AutopostSchedule) : M unit :=
  match due with
  | [] => ret tt
  | d :: rest =>
      runAutopostSchedule (run_now i) (run_resp i) tza (sched_id d) ;;;
      run_due (S i) rest
  end.

(** The callback of [setInterval]: the [catch] logs the error. *)
Definition scheduler_tick : M unit :=
  try_catch (due <~ schedules_due ;; run_due 0 due) (fun _ => ret tt).

End Tick.

End Scheduler.

Import Scheduler.

(** ** The API: bulk operations on links *)

Module Links.

(** [s.includes(t)]; also the filter [contains] of the store, which
    compares case-sensitively. *)
Fixpoint includes (s t : string) : bool :=
  String.prefix t s
  || match s with
     | EmptyString => false
     | String _ r => includes r t
     end.

(** GetSubstitution for a string pattern (no capture groups): [$$] is a
    dollar, [$&] the match, [$`] the text before it and [$'] the text after
    it; any other dollar stands for itself. *)
Fixpoint get_substitution (matched before after template : string) : string :=
  match template with
  | EmptyString => EmptyString
  | String c rest =>
      if Ascii.eqb c "$" then
        match rest with
        | String d rest' =>
            if Ascii.eqb d "$" then "$" ++ get_substitution matched before after rest'
            else if Ascii.eqb d "&" then matched ++ get_substitution matched before after rest'
            else if Ascii.eqb d "`" then before ++ get_substitution matched before after rest'
            else if Ascii.eqb d "'" then after ++ get_substitution matched before after rest'
            else String c (get_substitution matched before after rest)
        | EmptyString => String c EmptyString
        end
      else String c (get_substitution matched before after rest)
  end.

Fixpoint drop_chars (n : nat) (s : string) : string :=
  match n, s with
  | S k, String _ r => drop_chars k r
  | _, _ => s
  end.

(** The scan of [replaceAll] for a pattern that is not empty: [before] is
    the text already passed, [skip] the number of characters of the current
    match still to pass. *)
Fixpoint replaceAll_scan (find replace before s : string) (skip : nat) : string :=
  match s with
  | EmptyString => EmptyString
  | String c r =>
      match skip with
      | S k => replaceAll_scan find replace (before ++ String c EmptyString) r k
      | O =>
          if String.prefix find s
          then get_substitution find before (drop_chars (String.length find) s) replace
               ++ replaceAll_scan find replace (before ++ String c EmptyString) r
                    (String.length find - 1)
          else String c (replaceAll_scan find replace (before ++ String c EmptyString) r 0)
      end
  end.

(** [s.replaceAll(find, replace)] for strings, [find] not empty. *)
Definition replaceAll (s find replace : string) : string :=
  replaceAll_scan find replace "" s 0.

Record LinkLibraryRow := {
  ll_id : nat;
  ll_name : string;
  ll_targetUrl : string;
  ll_linkKind : string;
}.

Record LinkAssignmentRow := {
  la_id : nat;
  la_siteId : nat;
  la_placement : string;
  la_linkLibraryId : nat;
  la_displayTextOverride : option string;
  la_isEnabled : bool;
}.

Inductive BulkMode : Type := library_url_replace | assignment_text_replace.

Definition mode_name (m : BulkMode) : string :=
  match m with
  | library_url_replace => "library_url_replace"
  | assignment_text_replace => "assignment_text_replace"
  end.

Inductive OpStatus : Type := op_running | op_success | op_failed.

(** [diffPreviewJson]: the empty object, or [{ before }] with the rows of
    one of the two modes. *)
Inductive DiffPreview : Type :=
| DiffEmpty
| BeforeUrls (before : list (nat * string))
| BeforeTexts (before : list (nat * option string)).

Record BulkOperation := {
  op_id : nat;
  op_type : string;
  op_status : OpStatus;
  op_diffPreview : DiffPreview;
  op_updated : option nat;
  op_createdAt : Z;
}.

Record LinkStore := {
  libraries : list LinkLibraryRow;
  assignments : list LinkAssignmentRow;
  operations : list BulkOperation;
  links_next_id : nat;
}.

Definition set_targetUrl (url : string) (l : LinkLibraryRow) : LinkLibraryRow :=
  {| ll_id := ll_id l; ll_name := ll_name l; ll_targetUrl := url;
     ll_linkKind := ll_linkKind l |}.

Definition set_displayTextOverride (t : option string) (a : LinkAssignmentRow)
  : LinkAssignmentRow :=
  {| la_id := la_id a; la_siteId := la_siteId a; la_placement := la_placement a;
     la_linkLibraryId := la_linkLibraryId a; la_displayTextOverride := t;
     la_isEnabled := la_isEnabled a |}.

(** [update({ where: { id }, data })]: an exception when no row has the id. *)
Definition update_row {A : Type} (id_of : A -> nat) (id : nat) (f : A -> A) (l : list A)
  : res (list A) :=
  if existsb (fun x => Nat.eqb (id_of x) id) l
  then Ok (update_where id_of id f l)
  else Throw "Record to update not found.".

(** [for (const x of l) await update(...)] on one table. *)
Fixpoint update_rows {A B : Type} (id_of : A -> nat) (key : B -> nat) (f : B -> A -> A)
    (l : list B) (table : list A) : res (list A) * list A :=
  match l with
  | [] => (Ok table, table)
  | b :: rest =>
      match update_row id_of (key b) (f b) table with
      | Ok table' => update_rows id_of key f rest table'
      | Throw e => (Throw e, table)
      end
  end.

Definition set_op (f : BulkOperation -> BulkOperation) (id : nat) (s : LinkStore) : LinkStore :=
  {| libraries := libraries s; assignments := assignments s;
     operations := update_where op_id id f (operations s);
     links_next_id := links_next_id s |}.

Definition op_finish (st : OpStatus) (d : DiffPreview) (n : nat) (o : BulkOperation)
  : BulkOperation :=
  {| op_id := op_id o; op_type := op_type o; op_status := st; op_diffPreview := d;
     op_updated := Some n; op_createdAt := op_createdAt o |}.

Definition op_set_status (st : OpStatus) (o : BulkOperation) : BulkOperation :=
  {| op_id := op_id o; op_type := op_type o; op_status := st;
     op_diffPreview := op_diffPreview o; op_updated := op_updated o;
     op_createdAt := op_createdAt o |}.

Definition text_contains (find : string) (a : LinkAssignmentRow) : bool :=
  match la_displayTextOverride a with
  | Some t => includes t find
  | None => false
  end.

Definition text_or_empty (t : option string) : string :=
  match t with Some t => t | None => "" end.

Record ApplyReply := { operationId : nat; updated : nat }.

(** The handler of [POST /links/bulk/apply] at the time [now]. *)
Definition bulk_apply (now : Z) (mode : BulkMode) (find replace : string) (s : LinkStore)
  : res ApplyReply * LinkStore :=
  if String.eqb find "" then (Throw "ZodError", s)
  else
    let op := {| op_id := links_next_id s; op_type := "links." ++ mode_name mode;
                 op_status := op_running; op_diffPreview := DiffEmpty;
                 op_updated := None; op_createdAt := now |} in
    let s := {| libraries := libraries s; assignments := assignments s;
                operations := (operations s ++ [op])%list;
                links_next_id := S (links_next_id s) |} in
    match mode with
    | library_url_replace =>
        let links := List.filter (fun l => includes (ll_targetUrl l) find) (libraries s) in
        let before := map (fun l => (ll_id l, ll_targetUrl l)) links in
        match update_rows ll_id ll_id
                (fun l => set_targetUrl (replaceAll (ll_targetUrl l) find replace))
                links (libraries s) with
        | (Throw e, table) =>
            (Throw e, {| libraries := table; assignments := assignments s;
                         operations := operations s; links_next_id := links_next_id s |})
        | (Ok _, table) =>
            let s := {| libraries := table; assignments := assignments s;
                        operations := operations s; links_next_id := links_next_id s |} in
            (Ok {| operationId := op_id op; updated := length links |},
             set_op (op_finish op_success (BeforeUrls before) (length links)) (op_id op) s)
        end
    | assignment_text_replace =>
        let assigns := List.filter (text_contains find) (assignments s) in
        let before := map (fun a => (la_id a, la_displayTextOverride a)) assigns in
        match update_rows la_id la_id
                (fun a => set_displayTextOverride
                            (Some (replaceAll (text_or_empty (la_displayTextOverride a))
                                     find replace)))
                assigns (assignments s) with
        | (Throw e, table) =>
            (Throw e, {| libraries := libraries s; assignments := table;
                         operations := operations s; links_next_id := links_next_id s |})
        | (Ok _, table) =>
            let s := {| libraries := libraries s; assignments := table;
                        operations := operations s; links_next_id := links_next_id s |} in
            (Ok {| operationId := op_id op; updated := length assigns |},
             set_op (op_finish op_success (BeforeTexts before) (length assigns)) (op_id op) s)
        end
    end.

Record PreviewRow := { pr_id : nat; pr_before : string; pr_after : string }.

Record PreviewReply := { count : nat; preview : list PreviewRow }.

(** The handler of [POST /links/bulk/preview]. *)
Definition bulk_preview (mode : BulkMode) (find replace : string) (s : LinkStore)
  : res PreviewReply :=
  if String.eqb find "" then Throw "ZodError"
  else
    match mode with
    | library_url_replace =>
        let affected := List.filter (fun l => includes (ll_targetUrl l) find) (libraries s) in
        let preview :=
          map (fun l => {| pr_id := ll_id l; pr_before := ll_targetUrl l;
                           pr_after := replaceAll (ll_targetUrl l) find replace |})
            affected in
        Ok {| count := length preview; preview := preview |}
    | assignment_text_replace =>
        let affected := List.filter (text_contains find) (assignments s) in
        let preview :=
          map (fun a => {| pr_id := la_id a;
                           pr_before := text_or_empty (la_displayTextOverride a);
                           pr_after := replaceAll (text_or_empty (la_displayTextOverride a))
                                         find replace |})
            affected in
        Ok {| count := length preview; preview := preview |}
    end.

Definition is_success (o : BulkOperation) : bool :=
  match op_status o with op_success => true | _ => false end.

(** [findFirst({ where: { type: { startsWith: "links." }, status: "success" },
                 orderBy: { createdAt: "desc" } })] *)
Definition last_links_operation (s : LinkStore) : option BulkOperation :=
  max_by op_createdAt
    (List.filter (fun o => startsWith (op_type o) "links." && is_success o) (operations s)).

(** The handler of [POST /links/bulk/undo-last]: the id of the undone
    operation, or [None] for [{ ok: false, message: "No operations" }]. *)
Definition bulk_undo_last (s : LinkStore) : res (option nat) * LinkStore :=
  match last_links_operation s with
  | None => (Ok None, s)
  | Some last =>
      let restored :=
        if String.eqb (op_type last) "links.library_url_replace" then
          match op_diffPreview last with
          | BeforeUrls before =>
              let '(r, table) := update_rows ll_id fst (fun b => set_targetUrl (snd b))
                                   before (libraries s) in
              (match r with Ok _ => Ok tt | Throw e => Throw e end,
               {| libraries := table; assignments := assignments s;
                  operations := operations s; links_next_id := links_next_id s |})
          | BeforeTexts before =>
              let '(r, table) := update_rows ll_id fst (fun _ l => l) before (libraries s) in
              (match r with Ok _ => Ok tt | Throw e => Throw e end,
               {| libraries := table; assignments := assignments s;
                  operations := operations s; links_next_id := links_next_id s |})
          | DiffEmpty => (Ok tt, s)
          end
        else if String.eqb (op_type last) "links.assignment_text_replace" then
          match op_diffPreview last with
          | BeforeTexts before =>
              let '(r, table) := update_rows la_id fst
                                   (fun b => set_displayTextOverride (snd b))
                                   before (assignments s) in
              (match r with Ok _ => Ok tt | Throw e => Throw e end,
               {| libraries := libraries s; assignments := table;
                  operations := operations s; links_next_id := links_next_id s |})
          | BeforeUrls before =>
              let '(r, table) := update_rows la_id fst (fun _ a => a) before (assignments s) in
              (match r with Ok _ => Ok tt | Throw e => Throw e end,
               {| libraries := libraries s; assignments := table;
                  operations := operations s; links_next_id := links_next_id s |})
          | DiffEmpty => (Ok tt, s)
          end
        else (Ok tt, s) in
      match restored with
      | (Throw e, s) => (Throw e, s)
      | (Ok _, s) => (Ok (Some (op_id last)), set_op (op_set_status op_failed) (op_id last) s)
      end
  end.

End Links.

Import Links.

(** ** The API: import of domains *)

Module Domains.

Inductive DomainStatus : Type := domain_draft | domain_active | domain_archived.

Record Domain := {
  domain_id : nat;
  domainName : string;
  domain_status : DomainStatus;
}.

Record DomainStore := {
  domains : list Domain;
  domains_next_id : nat;
}.

Record ImportReply := { createdCount : nat; created : list Domain }.

Section BulkImport.

(** [raw.trim().toLowerCase()] and the length that [z.string().min(3)]
    measures; both follow Unicode and are left open here. *)
Variable normalise : string -> string.
Variable string_length : string -> nat.

Definition domain_findUnique (name : string) (s : DomainStore) : option Domain :=
  find (fun d => String.eqb (domainName d) name) (domains s).

(** The loop [for (const raw of body.domains)] with the array [created]. *)
Fixpoint import_loop (status : DomainStatus) (raws : list string) (created : list Domain)
    (s : DomainStore) : list Domain * DomainStore :=
  match raws with
  | [] => (created, s)
  | raw :: rest =>
      let name := normalise raw in
      if String.eqb name "" then import_loop status rest created s
      else
        match domain_findUnique name s with
        | Some _ => import_loop status rest created s
        | None =>
            let d := {| domain_id := domains_next_id s; domainName := name;
                        domain_status := status |} in
            import_loop status rest (created ++ [d])%list
              {| domains := (domains s ++ [d])%list;
                 domains_next_id := S (domains_next_id s) |}
        end
  end.

(** The handler of [POST /domains/bulk-import]; [status] is
    [body.defaults?.status]. *)
Definition bulk_import (raws : list string) (status : option DomainStatus) (s : DomainStore)
  : res ImportReply * DomainStore :=
  if (match raws with [] => true | _ => false end)
     || existsb (fun raw => Nat.ltb (string_length raw) 3) raws
  then (Throw "ZodError", s)
  else
    let '(created, s') :=
      import_loop (match status with Some st => st | None => domain_draft end) raws [] s in
    (Ok {| createdCount := length created; created := created |}, s').

End BulkImport.

End Domains.

Import Domains.

(** ** The API: the pages of a new site *)

Module NewSite.

(** An entry of [routes] in the definition of a template. *)
Record TemplateRoute := { tr_route : string; tr_pageType : string }.

(** The routes used when the template defines none. *)
Definition default_routes : list TemplateRoute :=
  [ {| tr_route := "/"; tr_pageType := "home" |};
    {| tr_route := "/contacts"; tr_pageType := "contacts" |} ].

Definition starter_hero (theme : string) : value :=
  VObj [("id", VStr "hero"); ("type", VStr "hero"); ("enabled", VBool true);
        ("data", VObj [("h1", VStr theme);
                       ("subheading", VStr "Generated starter page. Edit with AI later.");
                       ("primaryCta", VObj [("label", VStr "Learn more");
                                            ("href", VStr "{{slot:HERO_CTA}}")]);
                       ("secondaryCta", VObj [("label", VStr "Contacts");
                                              ("href", VStr "/contacts")])])].

Definition starter_faq (isHome : bool) : value :=
  VObj [("id", VStr "faq"); ("type", VStr "faq"); ("enabled", VBool isHome);
        ("data", VObj [("items",
                        VArr [VObj [("q", VStr "What is this?");
                                    ("a", VStr "A fast SSG site generated by Landing Factory.")]])])].

Definition starter_contacts (isContacts : bool) (theme : string) : value :=
  VObj [("id", VStr "contacts"); ("type", VStr "contacts"); ("enabled", VBool isContacts);
        ("data", VObj [("title", VStr "Contacts"); ("company", VStr theme);
                       ("email", VStr "hello@example.com");
                       ("phone", VStr "+1 (000) 000-0000");
                       ("address", VStr "Your address");
                       ("hours", VStr "Mon-Fri 10:00-18:00")])].

Definition starter_footer : value :=
  VObj [("id", VStr "footer_links"); ("type", VStr "footer_links"); ("enabled", VBool true);
        ("data", VObj [("items", VArr [VObj [("label", VStr "Primary link");
                                              ("href", VStr "{{slot:FOOTER}}")]])])].

Definition starter_blocks (pageType theme : string) : list value :=
  [ starter_hero theme;
    starter_faq (String.eqb pageType "home");
    starter_contacts (String.eqb pageType "contacts") theme;
    starter_footer ].

(** [contentJson] and [seoJson] of the first version of a page. *)
Definition starter_content (r : TemplateRoute) (theme language : string) : value :=
  VObj [("page", page_header (tr_route r) (tr_pageType r) language);
        ("blocks", VArr (starter_blocks (tr_pageType r) theme));
        ("slots", slots_unresolved)].

Definition starter_seo (theme : string) : value :=
  VObj [("title", VStr theme); ("description", VStr theme)].

(** The loop [for (const r of routes)] of [POST /sites], after the site row
    is created. *)
Definition create_initial_pages (now : Z) (siteId : nat) (theme language : string)
    (routes : list TemplateRoute) : M unit :=
  for_each routes (fun r =>
    if includes (tr_route r) ":slug" then ret tt
    else
      page <~ page_create now siteId (tr_route r) (tr_pageType r) None ;;
      pageVersion_create (page_id page) 1 false
        (starter_content r theme language) (starter_seo theme) (VArr []) ;;;
      ret tt).

End NewSite.

Import NewSite.

(** * Vocabulary of the properties and sample data *)

(** ** Theme compiler and slot resolver *)

(** The names of the radius tokens. *)
Definition radius_tokens_list : list string := ["sm"; "md"; "lg"; "xl"; "2xl"].

(** The first enabled assignment of a placement, in the given order. *)
Definition first_enabled (p : string) (links : list LinkAssignment) : option LinkAssignment :=
  List.find (fun a => isEnabled a && String.eqb (placement a) p) links.

(** Two enabled assignments of the placement [FOOTER]; the library entry of
    the first has had its URL emptied (a bulk replacement of the whole URL
    by the empty string does this). *)
Definition footer_links_empty_first : list LinkAssignment :=
  [ {| placement := "FOOTER"; isEnabled := true;
       linkLibrary := Some {| targetUrl := "" |} |};
    {| placement := "FOOTER"; isEnabled := true;
       linkLibrary := Some {| targetUrl := "https://b.example/" |} |} ].

(** ** Cadence calculator *)

(** ISO day of the week of a local time value: Monday = 1 ... Sunday = 7. *)
Definition iso_weekday (lt : Z) : Z :=
  if WeekDay lt =? 0 then 7 else WeekDay lt.

(** Day number of the Monday that starts the ISO week of [lt]. *)
Definition week_start (lt : Z) : Z := Day lt - (iso_weekday lt - 1).

(** The parameter [k] of a cadence document, with its default. *)
Definition cadence_param (cadenceJson : value) (k : string) (default : Z) : option Z :=
  Number (nullish (oprop cadenceJson k) (VNum default)).

(** The time values of a [Date] that is not invalid. *)
Definition time_value (t : Z) : Prop := -8640000000000000 <= t <= 8640000000000000.

(** The days from the current local day to the day of the [weekly] run. *)
Definition weekly_days_ahead (lt dow : Z) : Z :=
  if dow <=? iso_weekday lt then dow - iso_weekday lt + 7 else dow - iso_weekday lt.

(** The [weekly] run: [hour] hours and [minute] minutes after the local
    midnight that starts its day. *)
Definition weekly_run (tza now dow hour minute : Z) : Z :=
  (Day (LocalTime tza now) + weekly_days_ahead (LocalTime tza now) dow) * msPerDay
  + hour * msPerHour + minute * msPerMinute - tza.

(** Wednesday 2024-01-03 15:30:00.000 UTC. *)
Definition wednesday_afternoon : Z := 1704295800000.

(** Mondays at ten; the minute is left to its default. *)
Definition monday_ten : value := VObj [("dow", VNum 1); ("hour", VNum 10)].

(** ** Block renderer *)

Definition supported_types : list string :=
  ["hero"; "content"; "contacts"; "faq"; "footer_links"].

(** The test of [blocks.find] on a block that is an object: its type is [ty]
    and its [enabled] member is not [false]. *)
Definition is_block (ty : string) (b : value) : bool :=
  strict_eq_str (oprop b "type") ty && strict_ne_false (oprop b "enabled").

(** Neither [undefined] nor [null]. *)
Definition not_nullish (b : value) : Prop := b <> VUndef /\ b <> VNull.

(** The first block of type [ty] whose [enabled] flag is not [false]. *)
Definition first_block (ty : string) (blocks : list value) : option value :=
  List.find (is_block ty) blocks.

(** An optional element as a list. *)
Definition opt_list {A : Type} (o : option A) : list A :=
  match o with Some a => [a] | None => [] end.

(** The blocks that [renderBlocksWithSlots] selects: for each supported
    type, its first enabled block. *)
Definition selected_blocks (blocks : list value) : list value :=
  concat (map (fun ty => opt_list (first_block ty blocks)) supported_types).

(** The fragments that an optional block leaves in the output. *)
Definition block_fragments (o : option value) (render : value -> res (list string))
  : res (list string) :=
  match o with
  | Some b => render b
  | None => Ok []
  end.

(** A disabled hero, a hero without flag, a later enabled hero, an FAQ
    without items and a contacts block. *)
Definition demo_blocks : list value :=
  [ VObj [("type", VStr "hero"); ("enabled", VBool false);
          ("data", VObj [("h1", VStr "off")])];
    VObj [("type", VStr "hero");
          ("data", VObj [("h1", VStr "A&B");
                         ("primaryCta", VObj [("label", VStr "Go");
                                              ("href", VStr "{{slot:HERO_CTA}}")])])];
    VObj [("type", VStr "hero"); ("enabled", VBool true);
          ("data", VObj [("h1", VStr "later")])];
    VObj [("type", VStr "faq"); ("enabled", VBool true);
          ("data", VObj [("items", VArr [])])];
    VObj [("type", VStr "contacts");
          ("data", VObj [("phone", VStr "123"); ("email", VStr "  ")])] ].

(** A slot table with the hero placement. *)
Definition demo_slots : gmap string string := {[ "HERO_CTA" := "https://a.example/" ]}.

(** ** Publish pipeline *)

(** The build numbers of a site, in the order of the table. *)
Definition site_build_numbers (siteId : nat) (s : Store) : list Z :=
  map buildNumber (List.filter (fun b => Nat.eqb (build_siteId b) siteId) (builds s)).

(** The key of a build row that no update of the pipeline changes. *)
Definition build_key (b : Build) : nat * Z := (build_siteId b, buildNumber b).

(** The number given to the build that a publish creates. *)
Definition next_build_number (siteId : nat) (s : Store) : Z :=
  match max_by buildNumber (List.filter (fun b => Nat.eqb (build_siteId b) siteId) (builds s)) with
  | Some b => buildNumber b
  | None => 0
  end + 1.

(** A site with the builds 1, 2, 3 of its own and a build of another site. *)
Definition store_three_builds : Store :=
  let build (id siteId : nat) (n : Z) :=
    {| build_id := id; build_siteId := siteId; buildNumber := n;
       build_status := build_published; artifactPath := "/srv/www/demo";
       build_logs := None; publishedAt := Some 0 |} in
  {| sites := [ {| site_id := 1; site_status := site_published; site_theme := "Demo";
                   site_language := Some "en" |};
                {| site_id := 2; site_status := site_draft; site_theme := "Other";
                   site_language := None |} ];
     pages := []; versions := [];
     builds := [ build 10%nat 1%nat 1; build 11%nat 2%nat 7; build 12%nat 1%nat 2;
                 build 13%nat 1%nat 3 ];
     schedules := []; runs := []; next_id := 20 |}.

(** The version that [findFirst] with [orderBy: versionNumber desc] returns
    for a page. *)
Definition latest_version (pageId : nat) (vs : list PageVersion) : option PageVersion :=
  max_by versionNumber (List.filter (fun v => Nat.eqb (pv_pageId v) pageId) vs).

(** The ids of the latest versions of the pages [ps]. *)
Definition latest_ids (ps : list Page) (vs : list PageVersion) : list nat :=
  flat_map (fun p => opt_list (option_map pv_id (latest_version (page_id p) vs))) ps.

(** The ids of the versions that a publish of the site promotes. *)
Definition promoted_ids (siteId : nat) (s : Store) : list nat :=
  latest_ids (List.filter (fun p => Nat.eqb (page_siteId p) siteId) (pages s)) (versions s).

(** The effect of the loop on one row: flagged when its id is among [ids]. *)
Definition promote (ids : list nat) (v : PageVersion) : PageVersion :=
  if existsb (Nat.eqb (pv_id v)) ids then set_isPublished true v else v.

(** Number of versions of a page flagged [isPublished]. *)
Definition published_count (pageId : nat) (s : Store) : nat :=
  length (List.filter (fun v => Nat.eqb (pv_pageId v) pageId && isPublished v) (versions s)).

(** The invariant of the data model on published versions. *)
Definition at_most_one_published (s : Store) : Prop :=
  forall pageId, (published_count pageId s <= 1)%nat.

(** A site with a blog schedule that requires approval, and nothing else. *)
Definition store_approval : Store :=
  {| sites := [ {| site_id := 1; site_status := site_draft; site_theme := "Demo";
                   site_language := Some "en" |} ];
     pages := []; versions := []; builds := [];
     schedules := [ {| sched_id := 2; sched_siteId := 1; section := "blog";
                       cadenceType := every_n_days; cadenceJson := VObj [("n", VNum 1)];
                       requireApproval := true; sched_isEnabled := true;
                       nextRunAt := 0; lastRunAt := None |} ];
     runs := []; next_id := 10 |}.

(** The store after: an autopost run, a publish of the site, and a second
    autopost run a day later.  The blog index page has three versions, of
    which the second is the published one. *)
Definition store_before_second_publish : Store :=
  let s1 := snd (runAutopostSchedule 1704295800000 (FetchOk "/srv/www/demo") 0 2 store_approval) in
  let s2 := snd (internalPublishSite 1704295900000 (FetchOk "/srv/www/demo") 1 s1) in
  snd (runAutopostSchedule 1704382200000 (FetchOk "/srv/www/demo") 0 2 s2).

(** The id of the blog index page in that store. *)
Definition blog_index_page_id : nat := 13.

(** ** Autopost run engine *)

(** A computation that leaves the table of runs as it is, whether it returns
    or throws. *)
Definition keeps_runs {A : Type} (m : M A) : Prop :=
  forall s, runs (snd (m s)) = runs s.

(** The row that [autopostRun.create] inserts. *)
Definition running_run (s : Store) (schedule : AutopostSchedule) : AutopostRun :=
  {| run_id := next_id s; run_scheduleId := sched_id schedule; run_status := run_running;
     run_logs := None; resultJson := None; finishedAt := None; createdPageId := None |}.

(** A store with an enabled schedule and a disabled one for the same site. *)
Definition store_two_schedules : Store :=
  {| sites := [ {| site_id := 1; site_status := site_draft; site_theme := "Demo";
                   site_language := Some "en" |} ];
     pages := []; versions := []; builds := [];
     schedules := [ {| sched_id := 2; sched_siteId := 1; section := "blog";
                       cadenceType := weekly; cadenceJson := VObj [];
                       requireApproval := false; sched_isEnabled := true;
                       nextRunAt := 0; lastRunAt := None |};
                    {| sched_id := 3; sched_siteId := 1; section := "news";
                       cadenceType := cron; cadenceJson := VObj [("minutes", VNum 30)];
                       requireApproval := true; sched_isEnabled := false;
                       nextRunAt := 0; lastRunAt := None |} ];
     runs := []; next_id := 10 |}.

(** ** Further vocabulary: renderer *)

(** Whether the character [c] occurs in [s]. *)
Fixpoint occurs (c : ascii) (s : string) : bool :=
  match s with
  | EmptyString => false
  | String x r => Ascii.eqb x c || occurs c r
  end.

(** The entity that stands for a character in escaped text, or the
    character itself. *)
Definition escape_char (c : ascii) : string :=
  if Ascii.eqb c "&" then "&amp;"
  else if Ascii.eqb c "<" then "&lt;"
  else if Ascii.eqb c ">" then "&gt;"
  else if Ascii.eqb c dquote then "&quot;"
  else if Ascii.eqb c "'" then "&#39;"
  else String c EmptyString.

(** The five characters that [escapeHtml] rewrites. *)
Definition is_html_special (c : ascii) : bool :=
  Ascii.eqb c "&" || Ascii.eqb c "<" || Ascii.eqb c ">" || Ascii.eqb c dquote
  || Ascii.eqb c "'".

(** What the slot loop leaves for a placement: the URL of its first enabled
    assignment with a non-empty URL; the empty URL when its enabled
    assignments all have one; nothing without enabled assignment. *)
Definition slot_value (p : string) (links : list LinkAssignment) : option string :=
  match List.find (fun a => isEnabled a && String.eqb (placement a) p
                            && negb (String.eqb (assignment_url a) "")) links with
  | Some a => Some (assignment_url a)
  | None =>
      if existsb (fun a => isEnabled a && String.eqb (placement a) p) links
      then Some ""
      else None
  end.

(** Three assignments: a disabled one and two enabled ones for [HERO_CTA]. *)
Definition hero_links : list LinkAssignment :=
  [ {| placement := "HERO_CTA"; isEnabled := false;
       linkLibrary := Some {| targetUrl := "https://off.example/" |} |};
    {| placement := "HERO_CTA"; isEnabled := true;
       linkLibrary := Some {| targetUrl := "https://a.example/" |} |};
    {| placement := "HERO_CTA"; isEnabled := true;
       linkLibrary := Some {| targetUrl := "https://b.example/" |} |} ].

(** ** Further vocabulary: the store *)

(** A computation that leaves the component [proj] of the store as it is,
    whether it returns or throws. *)
Definition keeps {A T : Type} (proj : Store -> T) (m : M A) : Prop :=
  forall s, proj (snd (m s)) = proj s.

(** From a store satisfying [P], the computation [m] ends in a store
    satisfying [Q] with its result, or [R] with its exception. *)
Definition hoare {A : Type} (P : Store -> Prop) (m : M A)
    (Q : A -> Store -> Prop) (R : string -> Store -> Prop) : Prop :=
  forall s, P s ->
    match m s with
    | (Ok a, s') => Q a s'
    | (Throw e, s') => R e s'
    end.


(** The row that [build.create] inserts in a publish. *)
Definition queued_build (siteId : nat) (s : Store) : Build :=
  {| build_id := next_id s; build_siteId := siteId;
     buildNumber := next_build_number siteId s; build_status := build_queued;
     artifactPath := ""; build_logs := None; publishedAt := None |}.

(** The ids of the pages among [ps] that have a version. *)
Definition pages_with_version (ps : list Page) (vs : list PageVersion) : list nat :=
  flat_map (fun p => match latest_version (page_id p) vs with
                     | Some _ => [page_id p]
                     | None => []
                     end) ps.

(** The effect of the publish loop on one page row. *)
Definition mark_published (ids : list nat) (p : Page) : Page :=
  if existsb (Nat.eqb (page_id p)) ids then set_page_status page_published p else p.

(** A site with a blog index page that has no post yet. *)
Definition store_with_index : Store :=
  snd (ensureIndexPage 1704295800000 1 "/blog" "blog_index" "Blog" store_approval).

(** Vocabulary of the site handler. *)

Definition is_str (v : value) : bool :=
  match v with VStr _ => true | _ => false end.

Definition has_version (p : SitePage) : bool :=
  match sp_versions p with [] => false | _ => true end.

Definition is_build_ready (e : Effect) : bool :=
  match e with BuildReady _ _ _ => true | _ => false end.

Definition rendered_pages (ps : list SitePage) : list SitePage :=
  List.filter has_version ps.

Definition build_ready_effects (log : list Effect) : list Effect :=
  List.filter is_build_ready log.

Definition page_route_entry (p : SitePage) : string := route_entry (sp_route p).

Definition page_path (outDir : string) (p : SitePage) : string :=
  page_file outDir (sp_route p).

(** The paths of the files written, in order. *)
Fixpoint written_paths (log : list Effect) : list string :=
  match log with
  | [] => []
  | WriteFile p _ :: r => p :: written_paths r
  | _ :: r => written_paths r
  end.

Definition unpublished (v : SiteVersion) : Prop := sv_isPublished v = false.

(** The schedule table [S1] differs from [S0] at most in the run times of
    the rows whose id is in [ids]. *)
Definition reschedules (ids : list nat) (S0 S1 : list AutopostSchedule) : Prop :=
  Forall2 (fun x y =>
             y = x \/ (In (sched_id x) ids
                       /\ exists last next, y = set_schedule_run last next x))
    S0 S1.

(** Two due schedules of one site; the cadence of the first has a parameter
    that is not a number. *)
Definition store_stuck_schedule : Store :=
  {| sites := [ {| site_id := 1; site_status := site_draft; site_theme := "Demo";
                   site_language := Some "en" |} ];
     pages := []; versions := []; builds := [];
     schedules := [ {| sched_id := 2; sched_siteId := 1; section := "blog";
                       cadenceType := cron; cadenceJson := VObj [("minutes", VStr "soon")];
                       requireApproval := true; sched_isEnabled := true;
                       nextRunAt := 0; lastRunAt := None |};
                    {| sched_id := 3; sched_siteId := 1; section := "news";
                       cadenceType := cron; cadenceJson := VObj [("minutes", VNum 30)];
                       requireApproval := true; sched_isEnabled := true;
                       nextRunAt := 0; lastRunAt := None |} ];
     runs := []; next_id := 10 |}.

(** Vocabulary of the bulk operations on links. *)

Definition replace_url (find replace : string) (l : LinkLibraryRow) : LinkLibraryRow :=
  if includes (ll_targetUrl l) find
  then set_targetUrl (replaceAll (ll_targetUrl l) find replace) l
  else l.

Definition replace_text (find replace : string) (a : LinkAssignmentRow) : LinkAssignmentRow :=
  match la_displayTextOverride a with
  | Some t =>
      if includes t find
      then set_displayTextOverride (Some (replaceAll t find replace)) a
      else a
  | None => a
  end.

(** The number of rows that hold [find]. *)
Definition affected (mode : BulkMode) (find : string) (s : LinkStore) : nat :=
  match mode with
  | library_url_replace =>
      length (List.filter (fun l => includes (ll_targetUrl l) find) (libraries s))
  | assignment_text_replace =>
      length (List.filter (text_contains find) (assignments s))
  end.

(** Ids are distinct in each table, the next id is not taken, and every
    operation was created before [now]. *)
Definition links_store_before (now : Z) (s : LinkStore) : Prop :=
  NoDup (map ll_id (libraries s))
  /\ NoDup (map la_id (assignments s))
  /\ Forall (fun o => op_id o <> links_next_id s) (operations s)
  /\ Forall (fun o => op_createdAt o < now) (operations s).

Definition demo_links_store : LinkStore :=
  {| libraries := [ {| ll_id := 1; ll_name := "main"; ll_targetUrl := "https://old.example/a";
                       ll_linkKind := "url_display" |};
                    {| ll_id := 2; ll_name := "other"; ll_targetUrl := "https://other.example";
                       ll_linkKind := "button" |} ];
     assignments := [ {| la_id := 3; la_siteId := 7; la_placement := "HERO_CTA";
                         la_linkLibraryId := 1; la_displayTextOverride := Some "old offer";
                         la_isEnabled := true |};
                      {| la_id := 4; la_siteId := 7; la_placement := "FOOTER";
                         la_linkLibraryId := 2; la_displayTextOverride := None;
                         la_isEnabled := true |} ];
     operations := [ {| op_id := 5; op_type := "links.library_url_replace";
                        op_status := op_success;
                        op_diffPreview := BeforeUrls [(2%nat, "https://older.example")];
                        op_updated := Some 1%nat; op_createdAt := 1000 |} ];
     links_next_id := 6 |}.

(** The routes of a template for which a page is created. *)
Definition static_routes (routes : list TemplateRoute) : list TemplateRoute :=
  List.filter (fun r => negb (includes (tr_route r) ":slug")) routes.

(** The page and version rows of the routes [kept], from the fresh id [n]. *)
Fixpoint starter_rows (now : Z) (siteId : nat) (theme language : string) (n : nat)
    (kept : list TemplateRoute) : list Page * list PageVersion :=
  match kept with
  | [] => ([], [])
  | r :: rest =>
      let '(ps, vs) := starter_rows now siteId theme language (S (S n)) rest in
      ({| page_id := n; page_siteId := siteId; page_route := tr_route r;
          page_pageType := tr_pageType r; page_status := page_draft;
          page_slug := None; page_createdAt := now |} :: ps,
       {| pv_id := S n; pv_pageId := n; versionNumber := 1; isPublished := false;
          contentJson := starter_content r theme language; seoJson := starter_seo theme;
          schemaJson := VArr [] |} :: vs)
  end.

(** The rows of [before] that satisfy [p], each with its value in [before]
    and its value at the same place in [after]. *)
Definition changes {A : Type} (id_of : A -> nat) (get : A -> string) (p : A -> bool)
    (before after : list A) : list PreviewRow :=
  map (fun xy => {| pr_id := id_of (fst xy); pr_before := get (fst xy);
                    pr_after := get (snd xy) |})
    (List.filter (fun xy => p (fst xy)) (combine before after)).

(** The theme and the component preset that the seed stores (the members
    that the renderer reads). *)
Definition seed_theme : value :=
  VObj [("name", VStr "Premium Neutral"); ("mode", VStr "light");
        ("colors", VObj [("bg", VStr "#ffffff"); ("surface", VStr "#f8fafc");
                         ("text", VStr "#0f172a"); ("muted_text", VStr "#475569");
                         ("border", VStr "#e2e8f0")]);
        ("radius", VObj [("card", VStr "xl"); ("button", VStr "lg"); ("input", VStr "lg")]);
        ("buttons", VObj [("primary_style", VStr "solid");
                          ("secondary_style", VStr "outline");
                          ("cta_emphasis", VStr "high")])].

Definition seed_preset : value :=
  VObj [("hero", VObj [("layout", VStr "split"); ("title_weight", VStr "bold");
                       ("cta_style", VStr "solid");
                       ("background_style", VStr "soft_gradient")])].

(** A site of two pages, the second without a version, and the same site
    with a first page whose content is [null]. *)
Definition demo_site_row : SiteRow :=
  {| ss_domainName := "acme.example"; ss_themePreset := Some seed_theme;
     ss_componentStylePreset := Some seed_preset;
     ss_analyticsProfile := Some (VObj [("head", VArr []); ("body_end", VArr [])]);
     ss_links := [];
     ss_pages := [ {| sp_route := "/";
                      sp_versions := [ {| sv_isPublished := false; sv_versionNumber := 1;
                                          sv_contentJson :=
                                            starter_content
                                              {| tr_route := "/"; tr_pageType := "home" |}
                                              "Acme" "en";
                                          sv_seoJson := starter_seo "Acme" |} ] |};
                   {| sp_route := "/about"; sp_versions := [] |} ] |}.

Definition broken_site_row : SiteRow :=
  {| ss_domainName := "acme.example"; ss_themePreset := None;
     ss_componentStylePreset := None; ss_analyticsProfile := None; ss_links := [];
     ss_pages := ss_pages demo_site_row
                 ++ [ {| sp_route := "/news";
                         sp_versions := [ {| sv_isPublished := true; sv_versionNumber := 1;
                                             sv_contentJson := VNull;
                                             sv_seoJson := VNull |} ] |};
                      {| sp_route := "/contacts";
                         sp_versions := [ {| sv_isPublished := false; sv_versionNumber := 1;
                                             sv_contentJson :=
                                               starter_content
                                                 {| tr_route := "/contacts";
                                                    tr_pageType := "contacts" |}
                                                 "Acme" "en";
                                             sv_seoJson := starter_seo "Acme" |} ] |} ] |}.

(** A file system and a store that refuse no call, and a file system that
    refuses to write a file where a directory was made (the store refusing
    nothing). *)
Definition io_ok : list Effect -> Effect -> option string := fun _ _ => None.

Definition made_directory (log : list Effect) (p : string) : bool :=
  existsb (fun e => match e with Mkdir d => String.eqb d p | _ => false end) log.

Definition disk_io (log : list Effect) (call : Effect) : option string :=
  match call with
  | WriteFile p _ =>
      if made_directory log p
      then Some ("EISDIR: illegal operation on a directory, open '" ++ p ++ "'")
      else None
  | _ => None
  end.

(** The site [demo_site_row] with a third page, of route [/sitemap.xml]. *)
Definition sitemap_route_site_row : SiteRow :=
  {| ss_domainName := "acme.example"; ss_themePreset := None;
     ss_componentStylePreset := None; ss_analyticsProfile := None; ss_links := [];
     ss_pages := ss_pages demo_site_row
                 ++ [ {| sp_route := "/sitemap.xml";
                         sp_versions := [ {| sv_isPublished := true; sv_versionNumber := 1;
                                             sv_contentJson :=
                                               starter_content
                                                 {| tr_route := "/sitemap.xml";
                                                    tr_pageType := "article" |}
                                                 "Acme" "en";
                                             sv_seoJson := starter_seo "Acme" |} ] |} ] |}.

(** * Properties *)

(** ** Strings *)

Lemma append_cons (c : ascii) (a b : string) : String c a ++ b = String c (a ++ b).
Proof. reflexivity. Qed.

Lemma append_empty_l (a : string) : "" ++ a = a.
Proof. reflexivity. Qed.

Lemma span_app (p : ascii -> bool) (s : string) :
  fst (span p s) ++ snd (span p s) = s.
Proof.
  induction s as [|c r IH]; simpl; [reflexivity|].
  destruct (p c); simpl; [|reflexivity].
  destruct (span p r) as [a b]; simpl in *.
  by rewrite append_cons, IH.
Qed.

Lemma span_fst_all (p : ascii -> bool) (s : string) :
  forallb_string p (fst (span p s)) = true.
Proof.
  induction s as [|c r IH]; simpl; [reflexivity|].
  destruct (p c) eqn:E; simpl; [|reflexivity].
  destruct (span p r) as [a b]; simpl in *. by rewrite E, IH.
Qed.

(** [span] splits exactly at the first character that fails [p]. *)
Lemma span_split (p : ascii -> bool) (a b : string) :
  forallb_string p a = true ->
  match b with EmptyString => True | String c _ => p c = false end ->
  span p (a ++ b) = (a, b).
Proof.
  intros Ha Hb. induction a as [|c r IH]; simpl in *.
  - destruct b as [|c r]; simpl; [reflexivity|]. by rewrite Hb.
  - apply andb_true_iff in Ha as [Hc Hr]. rewrite Hc, (IH Hr). reflexivity.
Qed.

Lemma string_eqb_eq (a b : string) : String.eqb a b = true <-> a = b.
Proof. apply String.eqb_eq. Qed.

Lemma strip_prefix_app (p s : string) : strip_prefix p (p ++ s) = Some s.
Proof.
  induction p as [|c r IH]; simpl; [reflexivity|].
  by rewrite Ascii.eqb_refl.
Qed.

Lemma strip_prefix_Some (p s r : string) : strip_prefix p s = Some r -> s = p ++ r.
Proof.
  revert s. induction p as [|c p IH]; intros s H; simpl in *.
  - by inversion H.
  - destruct s as [|b s]; [discriminate|].
    destruct (Ascii.eqb c b) eqn:E; [|discriminate].
    apply Ascii.eqb_eq in E as ->. by rewrite (IH _ H).
Qed.

Lemma drop_trailing_slash_app (s : string) : drop_trailing_slash (s ++ "/") = s.
Proof.
  induction s as [|c r IH]; simpl; [reflexivity|].
  rewrite IH. destruct r; reflexivity.
Qed.

Lemma drop_trailing_slash_id (s : string) :
  ends_with_slash s = false -> drop_trailing_slash s = s.
Proof.
  induction s as [|c r IH]; simpl; [reflexivity|].
  destruct r as [|c' r'].
  - intros ->. reflexivity.
  - intros H. by rewrite (IH H).
Qed.

Lemma ends_with_slash_app (s : string) : ends_with_slash (s ++ "/") = true.
Proof.
  induction s as [|c r IH]; simpl; [reflexivity|].
  destruct (r ++ "/") eqn:E; [destruct r; discriminate|]. exact IH.
Qed.

Lemma ends_with_slash_cons (c : ascii) (s : string) :
  s <> "" -> ends_with_slash (String c s) = ends_with_slash s.
Proof. destruct s; [congruence|reflexivity]. Qed.

(** ** Theme compiler: radius tokens *)

(** The regular expression of [radiusTokenToPx] accepts exactly a non-empty
    run of digits followed by one of the four units. *)
Lemma css_length_re_spec (v : string) :
  css_length_re v = true <->
  exists digits unit,
    v = digits ++ unit /\ digits <> "" /\ forallb_string is_digit digits = true
    /\ (unit = "px" \/ unit = "rem" \/ unit = "em" \/ unit = "%").
Proof.
  unfold css_length_re. split.
  - pose proof (span_app is_digit v) as Happ.
    pose proof (span_fst_all is_digit v) as Hall.
    destruct (span is_digit v) as [ds u]; simpl in *.
    intros H. apply andb_true_iff in H as [Hne Hu].
    exists ds, u. repeat split; auto.
    + intros ->. discriminate.
    + rewrite !orb_true_iff, !string_eqb_eq in Hu. tauto.
  - intros (ds & u & -> & Hne & Hall & Hu).
    rewrite span_split; auto.
    + apply andb_true_iff. split.
      * destruct ds; [congruence|reflexivity].
      * destruct Hu as [-> | [-> | [-> | ->]]]; reflexivity.
    + destruct Hu as [-> | [-> | [-> | ->]]]; reflexivity.
Qed.

(** The five tokens resolve through the table, whatever the fallback. *)
Lemma radius_tokens (fallbackPx : string) :
  radiusTokenToPx (VStr "sm") fallbackPx = VStr "8px"
  /\ radiusTokenToPx (VStr "md") fallbackPx = VStr "12px"
  /\ radiusTokenToPx (VStr "lg") fallbackPx = VStr "14px"
  /\ radiusTokenToPx (VStr "xl") fallbackPx = VStr "16px"
  /\ radiusTokenToPx (VStr "2xl") fallbackPx = VStr "20px".
Proof. repeat split; reflexivity. Qed.

(** A literal CSS length is kept as it is. *)
Lemma radius_css_length (v fallbackPx : string) :
  css_length_re v = true -> radiusTokenToPx (VStr v) fallbackPx = VStr v.
Proof.
  intros H. unfold radiusTokenToPx. rewrite H.
  destruct v; [discriminate|reflexivity].
Qed.

Lemma assoc_radius_map_None (s : string) :
  s ∉ radius_tokens_list -> assoc s radius_map = None.
Proof.
  intros H. unfold radius_map. simpl.
  repeat (destruct (String.eqb s _) eqn:E;
          [apply String.eqb_eq in E; subst; exfalso; apply H;
           unfold radius_tokens_list; rewrite !elem_of_cons; tauto|clear E]).
  reflexivity.
Qed.

(** Values that are not strings, the empty string, and strings that are
    neither a length, nor a token, nor a name inherited by the table. *)
Lemma radius_fallback (v : value) (fallbackPx : string) :
  match v with
  | VStr s =>
      s = "" \/ (css_length_re s = false /\ (s ∉ radius_tokens_list)
                 /\ is_prototype_key s = false)
  | _ => True
  end ->
  radiusTokenToPx v fallbackPx = VStr fallbackPx.
Proof.
  destruct v; try reflexivity.
  intros [-> | (Hre & Htok & Hproto)]; [reflexivity|].
  unfold radiusTokenToPx. rewrite Hre.
  destruct (String.eqb s ""); [reflexivity|].
  unfold obj_get. by rewrite (assoc_radius_map_None _ Htok), Hproto.
Qed.

(** C4 (defect): for the string [constructor], which is neither a token nor
    a CSS length, [radiusTokenToPx] does not return the fallback: the lookup
    in the token table finds the member inherited from [Object.prototype],
    and [??] keeps it.  The same holds for every inherited name. *)
Theorem C4_radius_inherited_name_not_fallback :
  radiusTokenToPx (VStr "constructor") "16px" = VBuiltin "constructor"
  /\ radiusTokenToPx (VStr "constructor") "16px" <> VStr "16px"
  /\ css_length_re "constructor" = false
  /\ ("constructor" ∉ radius_tokens_list)
  /\ forall k fallbackPx,
       k ∈ object_prototype_keys ->
       radiusTokenToPx (VStr k) fallbackPx = VBuiltin k.
Proof.
  split; [reflexivity|]. split; [discriminate|]. split; [reflexivity|].
  split.
  { unfold radius_tokens_list. intros Hin.
    repeat (apply elem_of_cons in Hin as [Hin | Hin]; [discriminate|]).
    by apply elem_of_nil in Hin. }
  intros k fb Hk. unfold object_prototype_keys in Hk.
  repeat (apply elem_of_cons in Hk as [-> | Hk]; [reflexivity|]).
  by apply elem_of_nil in Hk.
Qed.

(** ** Page materializer: routes *)

Lemma routeToFile_root : routeToFile "/" = {| dir := ""; file := "index.html" |}.
Proof. reflexivity. Qed.

Lemma routeToFile_other (route : string) :
  route <> "/" ->
  routeToFile route
  = {| dir := drop_trailing_slash (drop_leading_slash route); file := "index.html" |}.
Proof.
  intros H. unfold routeToFile.
  destruct (String.eqb route "/") eqn:E; [|reflexivity].
  apply String.eqb_eq in E. congruence.
Qed.

(** A leading and a trailing slash around [segments] are both removed, and
    nothing else is. *)
Lemma routeToFile_slashes (segments : string) :
  routeToFile ("/" ++ segments ++ "/") = {| dir := segments; file := "index.html" |}.
Proof.
  rewrite routeToFile_other.
  - change (drop_leading_slash ("/" ++ segments ++ "/")) with (segments ++ "/").
    by rewrite drop_trailing_slash_app.
  - change ("/" ++ segments ++ "/") with (String "/" (segments ++ "/")).
    destruct segments; discriminate.
Qed.

(** ** Paths of the output files *)

Lemma string_app_assoc (a b c : string) : (a ++ b) ++ c = a ++ (b ++ c).
Proof. induction a as [|x a IH]; [reflexivity|]. rewrite !append_cons. by rewrite IH. Qed.

Lemma string_app_nonempty (a b : string) : a <> "" -> a ++ b <> "".
Proof. destruct a; [congruence | discriminate]. Qed.

Lemma string_app_nonempty_r (a b : string) : b <> "" -> a ++ b <> "".
Proof. destruct a; [trivial | discriminate]. Qed.

Lemma string_eqb_nonempty (s : string) : s <> "" -> String.eqb s "" = false.
Proof. destruct s; [congruence | reflexivity]. Qed.

Lemma ends_with_slash_app_r (p q : string) :
  q <> "" -> ends_with_slash (p ++ q) = ends_with_slash q.
Proof.
  intros Hq. induction p as [|c r IH]; [reflexivity|].
  rewrite append_cons, ends_with_slash_cons; [exact IH|].
  by apply string_app_nonempty_r.
Qed.

Lemma drop_trailing_slash_cases (s : string) :
  s = drop_trailing_slash s \/ s = drop_trailing_slash s ++ "/".
Proof.
  destruct (ends_with_slash s) eqn:E.
  - right. induction s as [|c r IH]; [discriminate|].
    destruct r as [|c' r'].
    + simpl in E. apply Ascii.eqb_eq in E as ->. reflexivity.
    + rewrite ends_with_slash_cons in E by discriminate.
      specialize (IH E).
      change (drop_trailing_slash (String c (String c' r')))
        with (String c (drop_trailing_slash (String c' r'))).
      rewrite append_cons, <- IH. reflexivity.
  - left. by rewrite drop_trailing_slash_id.
Qed.

Lemma split_slash_nonempty (s : string) : split_slash s <> [].
Proof.
  destruct s as [|c r]; simpl; [discriminate|].
  destruct (Ascii.eqb c "/"); [discriminate|].
  destruct (split_slash r); discriminate.
Qed.

(** A slash separates the segments on its two sides. *)
Lemma split_slash_app (a b : string) :
  split_slash (a ++ "/" ++ b) = (split_slash a ++ split_slash b)%list.
Proof.
  induction a as [|c r IH]; [reflexivity|].
  rewrite append_cons. simpl. destruct (Ascii.eqb c "/").
  - simpl. by rewrite IH.
  - rewrite IH. pose proof (split_slash_nonempty r).
    destruct (split_slash r); [congruence | reflexivity].
Qed.

Lemma split_slash_trailing (p : string) :
  split_slash (p ++ "/") = (split_slash p ++ [""])%list.
Proof. change (p ++ "/") with (p ++ "/" ++ ""). by rewrite split_slash_app. Qed.

(** An empty segment, which comes from a doubled or a trailing slash, is
    dropped by [normalize]. *)
Lemma normalize_segments_empty (allowAboveRoot : bool) (l1 l2 : list string) :
  normalize_segments allowAboveRoot (l1 ++ "" :: l2)
  = normalize_segments allowAboveRoot (l1 ++ l2).
Proof. unfold normalize_segments. by rewrite !fold_left_app. Qed.

Lemma starts_with_slash_app (p q : string) :
  p <> "" -> starts_with_slash (p ++ q) = starts_with_slash p.
Proof. destruct p; [congruence | reflexivity]. Qed.

Lemma assemble_nonempty (a t : bool) (b : string) : assemble a b t <> "".
Proof.
  unfold assemble. destruct (String.eqb b "") eqn:E.
  - destruct a, t; discriminate.
  - apply String.eqb_neq in E. destruct a; [discriminate|].
    change (b ++ (if t then "/" else "") <> ""). by apply string_app_nonempty.
Qed.

Lemma assemble_trailing (a t : bool) (b : string) :
  assemble a b true = assemble a b t \/ assemble a b true = assemble a b t ++ "/".
Proof.
  destruct t; [by left|]. unfold assemble.
  destruct (String.eqb b ""); destruct a; auto.
  - right. by rewrite !string_app_assoc.
  - right. by rewrite !string_app_assoc.
Qed.

Lemma normalize_nonempty (p : string) : normalize p <> "".
Proof.
  unfold normalize. destruct (String.eqb p ""); [discriminate|].
  apply assemble_nonempty.
Qed.

Lemma path_join_nonempty (args : list string) : path_join args <> "".
Proof.
  unfold path_join. destruct (List.filter _ args); [discriminate|].
  apply normalize_nonempty.
Qed.

(** A slash appended to a path, once or twice, changes at most the
    trailing separator of the normalized path. *)
Lemma normalize_trailing_slash (p : string) :
  p <> "" ->
  exists a b,
    normalize p = assemble a b (ends_with_slash p)
    /\ normalize (p ++ "/") = assemble a b true
    /\ normalize ((p ++ "/") ++ "/") = assemble a b true.
Proof.
  intros Hp.
  exists (starts_with_slash p),
    (join "/" (normalize_segments (negb (starts_with_slash p)) (split_slash p))).
  assert (p ++ "/" <> "") as Hp1 by by apply string_app_nonempty.
  assert ((p ++ "/") ++ "/" <> "") as Hp2 by by apply string_app_nonempty.
  unfold normalize.
  rewrite !string_eqb_nonempty, !ends_with_slash_app by assumption.
  rewrite !split_slash_trailing, !starts_with_slash_app by assumption.
  rewrite (normalize_segments_empty _ (split_slash p ++ [""]) []), app_nil_r.
  rewrite (normalize_segments_empty _ (split_slash p) []), app_nil_r.
  auto.
Qed.

(** The file [index.html] of a directory named with or without a trailing
    slash. *)
Lemma path_join_index_trailing (p : string) :
  p <> "" -> path_join [p ++ "/"; "index.html"] = path_join [p; "index.html"].
Proof.
  intros Hp.
  assert (p ++ "/" <> "") as Hp1 by by apply string_app_nonempty.
  unfold path_join. simpl List.filter.
  rewrite !string_eqb_nonempty by assumption. simpl negb. cbv iota.
  change (join "/" [p ++ "/"; "index.html"]) with ((p ++ "/") ++ "/" ++ "index.html").
  change (join "/" [p; "index.html"]) with (p ++ "/" ++ "index.html").
  unfold normalize.
  rewrite !string_eqb_nonempty by (by apply string_app_nonempty).
  rewrite !split_slash_app, split_slash_trailing.
  rewrite !starts_with_slash_app by assumption.
  rewrite !ends_with_slash_app_r by discriminate.
  rewrite <- app_assoc.
  change ([""] ++ split_slash "index.html")%list with ("" :: split_slash "index.html").
  by rewrite normalize_segments_empty.
Qed.

Lemma path_join_index_same (d d' : string) :
  d <> "" -> d' = d \/ d' = d ++ "/" ->
  path_join [d'; "index.html"] = path_join [d; "index.html"].
Proof. intros Hd [-> | ->]; [reflexivity | by apply path_join_index_trailing]. Qed.

Lemma path_join_pair (p q : string) :
  p <> "" -> q <> "" -> path_join [p; q] = normalize (p ++ "/" ++ q).
Proof.
  intros Hp Hq. unfold path_join. simpl List.filter.
  by rewrite !string_eqb_nonempty.
Qed.

Lemma path_join_pair_empty (p : string) : p <> "" -> path_join [p; ""] = normalize p.
Proof.
  intros Hp. unfold path_join. simpl List.filter.
  by rewrite !string_eqb_nonempty.
Qed.

(** The directory of a page under [outDir], for a directory named with or
    without a trailing slash. *)
Lemma path_join_dir_trailing (outDir d : string) :
  outDir <> "" ->
  path_join [outDir; d ++ "/"] = path_join [outDir; d]
  \/ path_join [outDir; d ++ "/"] = path_join [outDir; d] ++ "/".
Proof.
  intros Hout. destruct (String.eqb d "") eqn:Ed.
  - apply String.eqb_eq in Ed as ->.
    rewrite path_join_pair_empty, path_join_pair by (assumption || discriminate).
    destruct (normalize_trailing_slash outDir Hout) as (a & b & -> & _ & H2).
    change (outDir ++ "/" ++ "" ++ "/") with (outDir ++ "/" ++ "/").
    rewrite <- string_app_assoc, H2. apply assemble_trailing.
  - apply String.eqb_neq in Ed.
    rewrite !path_join_pair by (assumption || by apply string_app_nonempty).
    assert (outDir ++ "/" ++ d <> "") as Hp by by apply string_app_nonempty.
    destruct (normalize_trailing_slash _ Hp) as (a & b & -> & H1 & _).
    rewrite !string_app_assoc in H1. rewrite H1. apply assemble_trailing.
Qed.

Lemma routeToFile_file (route : string) : file (routeToFile route) = "index.html".
Proof. unfold routeToFile. by destruct (String.eqb route "/"). Qed.

Lemma drop_leading_slash_app (route : string) :
  route <> "" -> drop_leading_slash (route ++ "/") = drop_leading_slash route ++ "/".
Proof.
  destruct route as [|c r]; [congruence|]. intros _.
  rewrite append_cons. unfold drop_leading_slash.
  destruct c as [[] [] [] [] [] [] [] []]; reflexivity.
Qed.

(** One more trailing slash on the route leaves the directory or adds one
    trailing slash to it. *)
Lemma routeToFile_dir_trailing (route : string) :
  dir (routeToFile (route ++ "/")) = dir (routeToFile route)
  \/ dir (routeToFile (route ++ "/")) = dir (routeToFile route) ++ "/".
Proof.
  destruct (String.eqb route "") eqn:E0; [apply String.eqb_eq in E0 as ->; by left|].
  destruct (String.eqb route "/") eqn:E1; [apply String.eqb_eq in E1 as ->; by left|].
  apply String.eqb_neq in E0, E1.
  rewrite (routeToFile_other route) by assumption.
  rewrite routeToFile_other.
  2:{ destruct route as [|c [|c' r]]; [congruence | | discriminate].
      discriminate. }
  simpl dir. rewrite drop_leading_slash_app, drop_trailing_slash_app by assumption.
  apply drop_trailing_slash_cases.
Qed.

(** The file of a page is the same for a route and for the route with one
    more trailing slash. *)
Lemma page_file_trailing_slash (outDir route : string) :
  outDir <> "" -> page_file outDir (route ++ "/") = page_file outDir route.
Proof.
  intros Hout. unfold page_file, page_dir. rewrite !routeToFile_file.
  apply path_join_index_same; [apply path_join_nonempty|].
  destruct (routeToFile_dir_trailing route) as [-> | ->]; [by left|].
  by apply path_join_dir_trailing.
Qed.

(** C9: for every route other than [/], the directory is the route without
    one leading slash and without one trailing slash, and the file is
    [index.html]; the handler joins them to the output directory of the site
    with [path.join], so that the route and the route with a single trailing
    slash appended are written to the same file, whether or not the route
    itself ends with a slash. *)
Theorem C9_routeToFile_trailing_slash (route : string) :
  route <> "/" ->
  routeToFile route
  = {| dir := drop_trailing_slash (drop_leading_slash route); file := "index.html" |}
  /\ (forall segments, route = "/" ++ segments ++ "/" -> dir (routeToFile route) = segments)
  /\ (ends_with_slash route = false -> routeToFile (route ++ "/") = routeToFile route)
  /\ (forall OUTPUT_ROOT domainName,
        page_file (path_join [OUTPUT_ROOT; domainName]) (route ++ "/")
        = page_file (path_join [OUTPUT_ROOT; domainName]) route)
  /\ (forall outDir, outDir <> "" ->
        page_file outDir (route ++ "/") = page_file outDir route).
Proof.
  intros Hroot. split; [by apply routeToFile_other|]. split; [| split; [| split]].
  - intros segments ->. by rewrite routeToFile_slashes.
  - intros Hend. destruct route as [|c r]; [reflexivity|].
    rewrite (routeToFile_other (String c r)) by done.
    rewrite routeToFile_other by (destruct r; discriminate).
    f_equal.
    rewrite drop_leading_slash_app, drop_trailing_slash_app by discriminate.
    symmetry. apply drop_trailing_slash_id.
    destruct (Ascii.eqb c "/") eqn:Ec.
    + apply Ascii.eqb_eq in Ec as ->.
      assert (r <> "") as Hr by (intros ->; congruence).
      rewrite ends_with_slash_cons in Hend by done. exact Hend.
    + assert (drop_leading_slash (String c r) = String c r) as ->; [| exact Hend].
      unfold drop_leading_slash.
      destruct c as [[] [] [] [] [] [] [] []]; try reflexivity. discriminate.
  - intros root domain. apply page_file_trailing_slash, path_join_nonempty.
  - intros outDir Hout. by apply page_file_trailing_slash.
Qed.

(** C9 at the route [/contacts] and at the route [/a/]: [/contacts] and
    [/contacts/], and [/a/] and [/a//], are written to the same file. *)
Lemma C9_routeToFile_trailing_slash_witness :
  (routeToFile "/contacts" = {| dir := "contacts"; file := "index.html" |}
   /\ page_file (path_join ["/out"; "acme.example"]) "/contacts/"
      = "/out/acme.example/contacts/index.html"
   /\ page_file (path_join ["/out"; "acme.example"]) "/contacts"
      = "/out/acme.example/contacts/index.html")
  /\ (dir (routeToFile "/a/") = "a" /\ dir (routeToFile "/a//") = "a/"
      /\ page_file (path_join ["/out"; "acme.example"]) "/a//"
         = "/out/acme.example/a/index.html"
      /\ page_file (path_join ["/out"; "acme.example"]) "/a/"
         = "/out/acme.example/a/index.html").
Proof.
  split.
  - destruct (C9_routeToFile_trailing_slash "/contacts") as (H1 & _ & _ & H4 & _);
      [discriminate|].
    split; [exact H1|]. split; [| reflexivity].
    exact (eq_trans (H4 "/out" "acme.example") eq_refl).
  - destruct (C9_routeToFile_trailing_slash "/a/") as (_ & H2 & _ & H4 & _);
      [discriminate|].
    split; [exact (H2 "a" eq_refl)|]. split; [reflexivity|]. split; [| reflexivity].
    exact (eq_trans (H4 "/out" "acme.example") eq_refl).
Defined.

(** ** Slot resolver *)

(** The slot pattern accepts exactly the references [{{slot:NAME}}] whose
    name is a non-empty run of [A-Z], [0-9], [_] and [-]. *)
Lemma slot_ref_re_spec (href name : string) :
  slot_ref_re href = Some name <->
  href = "{{slot:" ++ name ++ "}}" /\ name <> ""
  /\ forallb_string is_slot_char name = true.
Proof.
  unfold slot_ref_re. split.
  - destruct (strip_prefix "{{slot:" href) as [rest|] eqn:Hp; [|discriminate].
    apply strip_prefix_Some in Hp.
    pose proof (span_app is_slot_char rest) as Happ.
    pose proof (span_fst_all is_slot_char rest) as Hall.
    destruct (span is_slot_char rest) as [n tail]; simpl in *.
    destruct (negb (String.eqb n "") && String.eqb tail "}}") eqn:E; [|discriminate].
    intros [= <-]. apply andb_true_iff in E as [Hn Ht].
    apply String.eqb_eq in Ht. subst tail. subst rest.
    repeat split; auto. intros ->. discriminate.
  - intros (-> & Hne & Hall).
    rewrite strip_prefix_app, span_split by (auto; reflexivity).
    destruct name; [congruence|reflexivity].
Qed.

Lemma slot_name_not_inherited (name : string) :
  forallb_string is_slot_char name = true -> is_prototype_key name = false.
Proof.
  intros Hall. unfold is_prototype_key. apply bool_decide_eq_false.
  unfold object_prototype_keys. intros Hin.
  repeat (apply elem_of_cons in Hin as [-> | Hin]; [discriminate|]).
  by apply elem_of_nil in Hin.
Qed.

(** A slot reference resolves to the URL of its placement, or to [#]. *)
Lemma resolveSlotHref_reference (name : string) (slotUrls : gmap string string) :
  name <> "" -> forallb_string is_slot_char name = true ->
  resolveSlotHref ("{{slot:" ++ name ++ "}}") slotUrls
  = VStr (default "#" (slotUrls !! name)).
Proof.
  intros Hne Hall. unfold resolveSlotHref.
  assert (slot_ref_re ("{{slot:" ++ name ++ "}}") = Some name) as ->
    by (by apply slot_ref_re_spec).
  unfold slot_get. destruct (slotUrls !! name); [reflexivity|].
  by rewrite (slot_name_not_inherited _ Hall).
Qed.

(** Any other href is returned unchanged. *)
Lemma resolveSlotHref_plain (href : string) (slotUrls : gmap string string) :
  (forall name, name <> "" -> forallb_string is_slot_char name = true ->
                href <> "{{slot:" ++ name ++ "}}") ->
  resolveSlotHref href slotUrls = VStr href.
Proof.
  intros H. unfold resolveSlotHref.
  destruct (slot_ref_re href) as [name|] eqn:E; [|reflexivity].
  apply slot_ref_re_spec in E as (-> & Hne & Hall). by destruct (H name).
Qed.

Lemma slot_fold_first_enabled (links : list LinkAssignment) (p : string)
    (m : gmap string string) :
  is_prototype_key p = false ->
  (forall k u, m !! k = Some u -> u <> "") ->
  (forall a, a ∈ links -> isEnabled a = true -> assignment_url a <> "") ->
  fold_left slot_step links m !! p
  = match m !! p with
    | Some u => Some u
    | None => assignment_url <$> first_enabled p links
    end.
Proof.
  intros Hp. revert m. induction links as [|a links IH]; intros m Hm Hl; simpl.
  - by destruct (m !! p).
  - assert (forall a', a' ∈ links -> isEnabled a' = true -> assignment_url a' <> "") as Hl'
      by (intros a' Ha'; apply Hl; by right).
    unfold slot_step at 2.
    destruct (isEnabled a) eqn:Hen; simpl; [|by apply IH].
    unfold slot_get.
    destruct (m !! placement a) as [u|] eqn:Hlook; simpl.
    + assert (u <> "") as Hu by eauto.
      destruct (String.eqb u "") eqn:Eu; [apply String.eqb_eq in Eu; congruence|].
      simpl. rewrite IH by done.
      destruct (String.eqb (placement a) p) eqn:Epl; [|reflexivity].
      apply String.eqb_eq in Epl. subst p. by rewrite Hlook.
    + destruct (is_prototype_key (placement a)) eqn:Hk; simpl.
      * rewrite IH by done.
        destruct (String.eqb (placement a) p) eqn:Epl; [|reflexivity].
        apply String.eqb_eq in Epl. congruence.
      * unfold slot_set.
        destruct (String.eqb (placement a) "__proto__") eqn:Eproto.
        { apply String.eqb_eq in Eproto. rewrite Eproto in Hk. discriminate. }
        rewrite IH; [|intros k u; rewrite lookup_insert; case_decide;
                      [intros [= <-]; apply Hl; [by left|done]|by apply Hm]|done].
        destruct (String.eqb (placement a) p) eqn:Epl.
        -- apply String.eqb_eq in Epl. subst p.
           by rewrite lookup_insert_eq, Hlook.
        -- apply String.eqb_neq in Epl. by rewrite lookup_insert_ne.
Qed.

(** When no enabled assignment carries an empty URL, the slot table maps a
    placement to the URL of its first enabled assignment. *)
Lemma buildSlotUrls_first_enabled (links : list LinkAssignment) (p : string) :
  is_prototype_key p = false ->
  (forall a, a ∈ links -> isEnabled a = true -> assignment_url a <> "") ->
  buildSlotUrls links !! p = assignment_url <$> first_enabled p links.
Proof.
  intros Hp Hl. unfold buildSlotUrls.
  rewrite slot_fold_first_enabled by (done || intros k u; by rewrite lookup_empty).
  by rewrite lookup_empty.
Qed.

(** C5 (defect): with these assignments the first enabled assignment of
    [FOOTER] has the URL [""], but the slot table maps [FOOTER] to the URL of
    the second one, and a reference [{{slot:FOOTER}}] resolves to it: the
    test [if (slotUrls[a.placement]) continue] takes an empty URL for a
    missing entry. *)
Theorem C5_empty_url_lets_later_assignment_win :
  (assignment_url <$> first_enabled "FOOTER" footer_links_empty_first) = Some ""
  /\ buildSlotUrls footer_links_empty_first !! "FOOTER" = Some "https://b.example/"
  /\ resolveSlotHref "{{slot:FOOTER}}" (buildSlotUrls footer_links_empty_first)
     = VStr "https://b.example/".
Proof. repeat split; vm_compute; reflexivity. Qed.

(** ** Dates *)

Lemma MonthFromTime_range (t : Z) : 0 <= MonthFromTime t <= 11.
Proof.
  unfold MonthFromTime. cbv zeta.
  repeat (match goal with |- context [if ?b then _ else _] => destruct b end); lia.
Qed.

(** Rebuilding the day number from the year, month and date of a time value
    gives its day number back, shifted by what was added to the date. *)
Lemma MakeDay_of_time (t k : Z) :
  MakeDay (YearFromTime t) (MonthFromTime t) (DateFromTime t + k) = Day t + k.
Proof.
  pose proof (MonthFromTime_range t) as Hm.
  unfold MakeDay. cbv zeta.
  rewrite (Z.div_small (MonthFromTime t) 12), (Z.mod_small (MonthFromTime t) 12) by lia.
  rewrite Z.add_0_r.
  unfold DateFromTime, DayWithinYear, InLeapYear. lia.
Qed.

Lemma day_time_split (t : Z) : Day t * msPerDay + TimeWithinDay t = t.
Proof.
  unfold Day, TimeWithinDay. pose proof (Z.div_mod t msPerDay). unfold msPerDay in *. lia.
Qed.

Section LocalTimeFacts.

Variable tza : Z.

Lemma LocalTime_UTC (t : Z) : LocalTime tza (UTC tza t) = t.
Proof. unfold LocalTime, UTC. lia. Qed.

(** [d.setDate(d.getDate() + k)] moves the time value by [k] days. *)
Lemma setDate_getDate_add (t k : Z) :
  setDate tza t (getDate tza t + k) = t + k * msPerDay.
Proof.
  unfold setDate, getDate. cbv zeta. rewrite MakeDay_of_time.
  unfold MakeDate, UTC. pose proof (day_time_split (LocalTime tza t)).
  unfold LocalTime in *. lia.
Qed.



Lemma LocalTime_setHours (t hour min : Z) :
  LocalTime tza (setHours tza t hour min 0 0)
  = Day (LocalTime tza t) * msPerDay + hour * msPerHour + min * msPerMinute.
Proof.
  unfold setHours. cbv zeta. rewrite LocalTime_UTC.
  unfold MakeDate, MakeTime. lia.
Qed.

End LocalTimeFacts.

(** The fields of a time value that is [hour:min:00.000] on day [day]. *)
Lemma fields_of_day_hour_min (day hour min : Z) :
  0 <= hour <= 23 -> 0 <= min <= 59 ->
  let t := day * msPerDay + hour * msPerHour + min * msPerMinute in
  Day t = day /\ HourFromTime t = hour /\ MinFromTime t = min
  /\ SecFromTime t = 0 /\ msFromTime t = 0.
Proof.
  intros Hh Hm t. subst t.
  unfold Day, HourFromTime, MinFromTime, SecFromTime, msFromTime.
  unfold msPerDay, msPerHour, msPerMinute, msPerSecond.
  set (t := day * 86400000 + hour * 3600000 + min * 60000).
  assert (t / 86400000 = day) as Hd
    by (symmetry; apply (Z.div_unique_pos t _ _ (hour * 3600000 + min * 60000)); lia).
  assert (t / 3600000 = day * 24 + hour) as Hh'
    by (symmetry; apply (Z.div_unique_pos t _ _ (min * 60000)); lia).
  assert (t / 60000 = day * 1440 + hour * 60 + min) as Hm'
    by (symmetry; apply (Z.div_unique_pos t _ _ 0); lia).
  assert (t / 1000 = (day * 1440 + hour * 60 + min) * 60) as Hs'
    by (symmetry; apply (Z.div_unique_pos t _ _ 0); lia).
  rewrite Hd, Hh', Hm', Hs'. repeat split.
  - symmetry. apply (Z.mod_unique_pos _ _ day); lia.
  - symmetry. apply (Z.mod_unique_pos _ _ (day * 24 + hour)); lia.
  - symmetry. apply (Z.mod_unique_pos _ _ (day * 1440 + hour * 60 + min)); lia.
  - symmetry. apply (Z.mod_unique_pos _ _ ((day * 1440 + hour * 60 + min) * 60)); lia.
Qed.

(** ** Cadence calculator *)

Lemma WeekDay_range (t : Z) : 0 <= WeekDay t < 7.
Proof. unfold WeekDay. apply Z.mod_pos_bound. lia. Qed.

(** The expression [((d.getDay() + 6) % 7) + 1] is the ISO day of the week. *)
Lemma currentDow_iso (lt : Z) : (WeekDay lt + 6) mod 7 + 1 = iso_weekday lt.
Proof.
  pose proof (WeekDay_range lt) as Hw. unfold iso_weekday.
  destruct (WeekDay lt =? 0) eqn:E.
  - apply Z.eqb_eq in E. rewrite E. reflexivity.
  - apply Z.eqb_neq in E.
    rewrite <- (Z.mod_unique_pos (WeekDay lt + 6) 7 1 (WeekDay lt - 1)); lia.
Qed.

Lemma iso_weekday_range (lt : Z) : 1 <= iso_weekday lt <= 7.
Proof.
  pose proof (WeekDay_range lt). unfold iso_weekday.
  destruct (WeekDay lt =? 0) eqn:E; [lia|]. apply Z.eqb_neq in E. lia.
Qed.


Lemma Day_add_days (t k : Z) : Day (t + k * msPerDay) = Day t + k.
Proof. unfold Day. rewrite Z.div_add; [reflexivity|unfold msPerDay; lia]. Qed.


(** A day that is [dow - 1] days after the Monday of some week, give or
    take whole weeks, has ISO day of the week [dow]. *)
Lemma iso_weekday_of_week_day (lt lr dow k : Z) :
  1 <= dow <= 7 ->
  Day lr = week_start lt + (dow - 1) + 7 * k ->
  iso_weekday lr = dow.
Proof.
  intros Rd HD.
  assert (exists m, Day lr + 4 = dow + m * 7) as [m Hm].
  { unfold week_start, iso_weekday, WeekDay in HD.
    pose proof (Z.div_mod (Day lt + 4) 7 ltac:(lia)) as Hdm.
    pose proof (Z.mod_pos_bound (Day lt + 4) 7 ltac:(lia)) as Hb.
    destruct ((Day lt + 4) mod 7 =? 0) eqn:E.
    - apply Z.eqb_eq in E. exists ((Day lt + 4) / 7 - 1 + k). lia.
    - exists ((Day lt + 4) / 7 + k). lia. }
  unfold iso_weekday, WeekDay. rewrite Hm, Z.mod_add by lia.
  destruct (Z.eq_dec dow 7) as [-> | Hne]; [reflexivity|].
  rewrite Z.mod_small by lia.
  destruct (dow =? 0) eqn:E; [apply Z.eqb_eq in E; lia|reflexivity].
Qed.

Section CadenceFacts.

Variable tza : Z.

(** The local time of the [weekly] result: [hour:minute] on the day that is
    [dow - currentDow] days ahead, or a week later when that is not
    positive. *)
Lemma weekly_local_result (now : Z) (cadenceJson : value) (dow hour minute : Z) :
  cadence_param cadenceJson "dow" 1 = Some dow ->
  cadence_param cadenceJson "hour" 10 = Some hour ->
  cadence_param cadenceJson "minute" 0 = Some minute ->
  exists r,
    computeNextRunAt tza now weekly cadenceJson = Some r
    /\ LocalTime tza r
       = (Day (LocalTime tza now)
          + (if dow <=? iso_weekday (LocalTime tza now)
             then dow - iso_weekday (LocalTime tza now) + 7
             else dow - iso_weekday (LocalTime tza now))) * msPerDay
         + hour * msPerHour + minute * msPerMinute.
Proof.
  unfold cadence_param. intros Hd Hh Hm.
  unfold computeNextRunAt. rewrite Hd, Hh, Hm. simpl.
  eexists. split; [reflexivity|].
  rewrite LocalTime_setHours, setDate_getDate_add.
  unfold getDay. rewrite currentDow_iso.
  set (cur := iso_weekday (LocalTime tza now)).
  replace (LocalTime tza (now + (if dow - cur <=? 0 then dow - cur + 7 else dow - cur) * msPerDay))
    with (LocalTime tza now + (if dow - cur <=? 0 then dow - cur + 7 else dow - cur) * msPerDay)
    by (unfold LocalTime; lia).
  rewrite Day_add_days.
  destruct (dow - cur <=? 0) eqn:E1; destruct (dow <=? cur) eqn:E2; try reflexivity;
    apply Z.leb_le in E1 || apply Z.leb_gt in E1;
    apply Z.leb_le in E2 || apply Z.leb_gt in E2; lia.
Qed.

End CadenceFacts.

(** [Number] on a few values that a cadence document can hold. *)
Example Number_samples :
  map Number [VNum 3; VStr "12"; VStr " 12 "; VStr ""; VStr "1e1"; VStr "2.50e1";
              VStr "0x10"; VStr "-7"; VArr []; VArr [VNum 3]; VArr [VStr "4"];
              VNull; VBool true]
  = map Some [3; 12; 12; 0; 10; 25; 16; -7; 0; 3; 4; 0; 1]
  /\ map Number [VUndef; VStr "soon"; VStr "1,5"; VStr "0x"; VStr "-0x10"; VStr "1e";
                 VArr [VNum 1; VNum 2]; VObj []; VObj [("n", VNum 1)]]
     = [None; None; None; None; None; None; None; None; None].
Proof. split; vm_compute; reflexivity. Qed.

(** C2 (counterexample): on a server in UTC, from Wednesday 2024-01-03
    15:30, [dow = -10] gives Thursday 2023-12-28 10:00, which is before the
    current time and in neither this week nor the next; and [dow = 1] with
    [hour = 25] gives Tuesday 2024-01-09 01:00, which is neither a Monday nor
    at 25:00. *)
Lemma C2_out_of_range_parameters :
  let lt := LocalTime 0 wednesday_afternoon in
  (cadence_param (VObj [("dow", VNum (-10))]) "dow" 1 = Some (-10)
   /\ computeNextRunAt 0 wednesday_afternoon weekly (VObj [("dow", VNum (-10))])
      = Some 1703757600000
   /\ 1703757600000 < wednesday_afternoon
   /\ Day (LocalTime 0 1703757600000) < week_start lt
   /\ (YearFromTime 1703757600000, MonthFromTime 1703757600000 + 1,
       DateFromTime 1703757600000, iso_weekday 1703757600000) = (2023, 12, 28, 4))
  /\ (cadence_param (VObj [("dow", VNum 1); ("hour", VNum 25)]) "hour" 10 = Some 25
      /\ computeNextRunAt 0 wednesday_afternoon weekly (VObj [("dow", VNum 1); ("hour", VNum 25)])
         = Some 1704762000000
      /\ iso_weekday (LocalTime 0 1704762000000) = 2
      /\ HourFromTime (LocalTime 0 1704762000000) = 1
      /\ (YearFromTime 1704762000000, MonthFromTime 1704762000000 + 1,
          DateFromTime 1704762000000) = (2024, 1, 9)).
Proof. vm_compute. repeat split; reflexivity || lia. Qed.

(** C2 (amended): with [dow] in 1..7, [hour] in 0..23 and [minute] in 0..59,
    on a server whose local time is at a fixed offset from UTC and for a
    current time at least eight days before the end of the range of dates,
    [weekly] computes the ISO day of the week of the current local time,
    lands on the target day of the next week when that day is today or has
    passed this week and on the target day of this week otherwise, at
    exactly [hour:minute:00.000]; the parameters default to 1, 10 and 0; and
    from a Wednesday, [dow = 1] gives the Monday five days later. *)
Theorem C2_weekly_next_run (tza now : Z) (cadenceJson : value) (dow hour minute : Z) :
  cadence_param cadenceJson "dow" 1 = Some dow ->
  cadence_param cadenceJson "hour" 10 = Some hour ->
  cadence_param cadenceJson "minute" 0 = Some minute ->
  1 <= dow <= 7 -> 0 <= hour <= 23 -> 0 <= minute <= 59 ->
  time_value now -> time_value (now + 8 * msPerDay) ->
  exists r,
    computeNextRunAt tza now weekly cadenceJson = Some r
    /\ time_value r
    /\ let lt := LocalTime tza now in
       let lr := LocalTime tza r in
       Day lr = week_start lt + (dow - 1) + (if dow <=? iso_weekday lt then 7 else 0)
       /\ iso_weekday lr = dow
       /\ HourFromTime lr = hour /\ MinFromTime lr = minute
       /\ SecFromTime lr = 0 /\ msFromTime lr = 0
       /\ (oprop cadenceJson "dow" = VUndef -> dow = 1)
       /\ (oprop cadenceJson "hour" = VUndef -> hour = 10)
       /\ (oprop cadenceJson "minute" = VUndef -> minute = 0)
       /\ (iso_weekday lt = 3 -> dow = 1 -> hour = 10 -> minute = 0 ->
           Day lr = Day lt + 5 /\ Day lr = week_start lt + 7
           /\ TimeWithinDay lr = 10 * msPerHour).
Proof.
  intros Hd Hh Hm Rd Rh Rm Tn Tr.
  destruct (weekly_local_result tza now cadenceJson dow hour minute Hd Hh Hm)
    as (r & Hr & Hlr).
  exists r. split; [exact Hr|]. cbv zeta.
  pose proof (iso_weekday_range (LocalTime tza now)) as Hcur.
  set (cur := iso_weekday (LocalTime tza now)) in *.
  set (add := if dow <=? cur then dow - cur + 7 else dow - cur) in *.
  split.
  { assert (1 <= add <= 7) as Hadd.
    { unfold add. destruct (dow <=? cur) eqn:E;
        [apply Z.leb_le in E|apply Z.leb_gt in E]; lia. }
    pose proof (day_time_split (LocalTime tza now)) as Hsplit.
    pose proof (Z.mod_pos_bound (LocalTime tza now) msPerDay ltac:(unfold msPerDay; lia)) as Hb.
    fold (TimeWithinDay (LocalTime tza now)) in Hb.
    unfold time_value in *. unfold LocalTime in *.
    unfold msPerDay, msPerHour, msPerMinute in *. lia. }
  destruct (fields_of_day_hour_min (Day (LocalTime tza now) + add) hour minute Rh Rm)
    as (Fd & Fh & Fm & Fs & Fms).
  rewrite <- Hlr in Fd, Fh, Fm, Fs, Fms.
  assert (Day (LocalTime tza r)
          = week_start (LocalTime tza now) + (dow - 1) + (if dow <=? cur then 7 else 0)) as HD.
  { rewrite Fd. unfold week_start. fold cur. unfold add. destruct (dow <=? cur); lia. }
  split; [exact HD|]. split.
  { apply (iso_weekday_of_week_day (LocalTime tza now) _ dow
             (if dow <=? cur then 1 else 0) Rd).
    rewrite HD. fold cur. destruct (dow <=? cur); lia. }
  split; [exact Fh|]. split; [exact Fm|]. split; [exact Fs|]. split; [exact Fms|].
  split; [|split; [|split]].
  - intros Hu. unfold cadence_param in Hd. rewrite Hu in Hd. simpl in Hd. congruence.
  - intros Hu. unfold cadence_param in Hh. rewrite Hu in Hh. simpl in Hh. congruence.
  - intros Hu. unfold cadence_param in Hm. rewrite Hu in Hm. simpl in Hm. congruence.
  - intros Hwed -> -> ->. fold cur in Hwed.
    assert (add = 5) as Hadd by (unfold add; rewrite Hwed; reflexivity).
    split; [rewrite Fd; lia|]. split.
    + rewrite HD, Hwed. simpl. lia.
    + rewrite Hlr. unfold TimeWithinDay.
      replace ((Day (LocalTime tza now) + add) * msPerDay + 10 * msPerHour + 0 * msPerMinute)
        with (10 * msPerHour + (Day (LocalTime tza now) + add) * msPerDay) by lia.
      rewrite Z.mod_add by (unfold msPerDay; lia). reflexivity.
Qed.

(** C2 at a Wednesday afternoon, for Mondays at ten. *)
Lemma C2_weekly_next_run_witness :
  exists r,
    computeNextRunAt 0 wednesday_afternoon weekly monday_ten = Some r
    /\ time_value r
    /\ let lt := LocalTime 0 wednesday_afternoon in
       let lr := LocalTime 0 r in
       Day lr = week_start lt + (1 - 1) + (if 1 <=? iso_weekday lt then 7 else 0)
       /\ iso_weekday lr = 1
       /\ HourFromTime lr = 10 /\ MinFromTime lr = 0
       /\ SecFromTime lr = 0 /\ msFromTime lr = 0
       /\ (oprop monday_ten "dow" = VUndef -> 1 = 1)
       /\ (oprop monday_ten "hour" = VUndef -> 10 = 10)
       /\ (oprop monday_ten "minute" = VUndef -> 0 = 0)
       /\ (iso_weekday lt = 3 -> 1 = 1 -> 10 = 10 -> 0 = 0 ->
           Day lr = Day lt + 5 /\ Day lr = week_start lt + 7
           /\ TimeWithinDay lr = 10 * msPerHour).
Proof.
  apply (C2_weekly_next_run 0 wednesday_afternoon monday_ten 1 10 0);
    solve [reflexivity | lia | vm_compute; split; discriminate].
Defined.

(** The calendar fields of a few time values: 1970-01-01, 1969-12-31,
    2000-02-29, 2024-01-03 (a Wednesday), 2024-12-31. *)
Example calendar_samples :
  map (fun t => (YearFromTime t, MonthFromTime t + 1, DateFromTime t, WeekDay t))
    [0; -1; 951782400000; wednesday_afternoon; 1735603200000]
  = [(1970, 1, 1, 4); (1969, 12, 31, 3); (2000, 2, 29, 2); (2024, 1, 3, 3);
     (2024, 12, 31, 2)].
Proof. vm_compute. reflexivity. Qed.

(** From that Wednesday the run is due on Monday 2024-01-08 at 10:00:00.000
    UTC, with the defaults as well. *)
Example weekly_from_wednesday :
  iso_weekday (LocalTime 0 wednesday_afternoon) = 3
  /\ computeNextRunAt 0 wednesday_afternoon weekly monday_ten = Some 1704708000000
  /\ computeNextRunAt 0 wednesday_afternoon weekly (VObj []) = Some 1704708000000
  /\ (YearFromTime 1704708000000, MonthFromTime 1704708000000,
      DateFromTime 1704708000000, WeekDay 1704708000000,
      TimeWithinDay 1704708000000) = (2024, 0, 8, 1, 10 * msPerHour).
Proof. repeat split; vm_compute; reflexivity. Qed.




Example every_n_days_and_cron_samples :
  computeNextRunAt 0 wednesday_afternoon every_n_days (VObj [("n", VNum 7)])
  = Some (wednesday_afternoon + 7 * msPerDay)
  /\ computeNextRunAt 0 wednesday_afternoon every_n_days (VObj [("n", VNum 0)])
     = Some (wednesday_afternoon + 1 * msPerDay)
  /\ computeNextRunAt 0 wednesday_afternoon cron (VObj [("minutes", VNum 2)])
     = Some (wednesday_afternoon + 5 * msPerMinute)
  /\ computeNextRunAt 0 wednesday_afternoon cron VNull
     = Some (wednesday_afternoon + 60 * msPerMinute).
Proof. repeat split; vm_compute; reflexivity. Qed.

(** C10: with [dow] in 1..7, [hour] in 0..23 and [minute] in 0..59 the
    [weekly] result is strictly later than the current time, and its local
    calendar day is between 1 and 7 days after the current local day. *)
Theorem C10_weekly_strictly_later (tza now : Z) (cadenceJson : value) (dow hour minute : Z) :
  cadence_param cadenceJson "dow" 1 = Some dow ->
  cadence_param cadenceJson "hour" 10 = Some hour ->
  cadence_param cadenceJson "minute" 0 = Some minute ->
  1 <= dow <= 7 -> 0 <= hour <= 23 -> 0 <= minute <= 59 ->
  exists r,
    computeNextRunAt tza now weekly cadenceJson = Some r
    /\ now < r
    /\ 1 <= Day (LocalTime tza r) - Day (LocalTime tza now) <= 7.
Proof.
  intros Hd Hh Hm Rd Rh Rm.
  destruct (weekly_local_result tza now cadenceJson dow hour minute Hd Hh Hm)
    as (r & Hr & Hlr).
  exists r. split; [exact Hr|].
  pose proof (iso_weekday_range (LocalTime tza now)) as Hcur.
  set (cur := iso_weekday (LocalTime tza now)) in *.
  set (add := if dow <=? cur then dow - cur + 7 else dow - cur) in *.
  assert (1 <= add <= 7) as Hadd.
  { unfold add. destruct (dow <=? cur) eqn:E;
      [apply Z.leb_le in E|apply Z.leb_gt in E]; lia. }
  destruct (fields_of_day_hour_min (Day (LocalTime tza now) + add) hour minute Rh Rm)
    as (Fd & _).
  rewrite <- Hlr in Fd. split; [|lia].
  pose proof (day_time_split (LocalTime tza now)) as Hsplit.
  pose proof (Z.mod_pos_bound (LocalTime tza now) msPerDay ltac:(unfold msPerDay; lia)) as Hb.
  fold (TimeWithinDay (LocalTime tza now)) in Hb.
  unfold LocalTime in *. unfold msPerDay, msPerHour, msPerMinute in *. lia.
Qed.

(** C10 at the same sample. *)
Lemma C10_weekly_strictly_later_witness :
  exists r,
    computeNextRunAt 0 wednesday_afternoon weekly monday_ten = Some r
    /\ wednesday_afternoon < r
    /\ 1 <= Day (LocalTime 0 r) - Day (LocalTime 0 wednesday_afternoon) <= 7.
Proof.
  apply (C10_weekly_strictly_later 0 wednesday_afternoon monday_ten 1 10 0);
    solve [reflexivity | lia].
Defined.

(** ** Block renderer *)

Lemma block_pred_is_block (ty : string) (b : value) :
  not_nullish b -> block_pred ty b = Ok (is_block ty b).
Proof.
  intros [Hu Hn]. unfold block_pred, is_block.
  destruct b; try congruence; simpl; try reflexivity.
  destruct (strict_eq_str (obj_get fields "type") ty); reflexivity.
Qed.

Lemma is_block_object (ty : string) (b : value) :
  is_block ty b = true -> exists fields, b = VObj fields.
Proof.
  unfold is_block. destruct b; simpl; try discriminate. eauto.
Qed.

Lemma is_block_truthy (ty : string) (b : value) : is_block ty b = true -> truthy b = true.
Proof. intros H. by destruct (is_block_object _ _ H) as [fields ->]. Qed.

Lemma is_block_not_nullish (ty : string) (b : value) : is_block ty b = true -> not_nullish b.
Proof. intros H. destruct (is_block_object _ _ H) as [fields ->]. by split. Qed.

(** A block has one type. *)
Lemma is_block_type_unique (ty ty' : string) (b : value) :
  is_block ty b = true -> ty <> ty' -> is_block ty' b = false.
Proof.
  unfold is_block. intros H Hne.
  apply andb_true_iff in H as [Ht _].
  destruct (oprop b "type"); simpl in *; try discriminate.
  apply String.eqb_eq in Ht. subst s.
  destruct (String.eqb ty ty') eqn:E; [|reflexivity].
  apply String.eqb_eq in E. congruence.
Qed.

(** A block without [enabled] member counts as enabled, one whose member is
    [false] does not. *)
Lemma is_block_enabled_flag (ty : string) (fields : list (string * value)) :
  assoc "type" fields = Some (VStr ty) ->
  (assoc "enabled" fields = None -> is_block ty (VObj fields) = true)
  /\ (assoc "enabled" fields = Some (VBool false) -> is_block ty (VObj fields) = false)
  /\ (assoc "enabled" fields = Some (VBool true) -> is_block ty (VObj fields) = true).
Proof.
  intros Ht. unfold is_block, oprop, obj_get. rewrite Ht. simpl.
  rewrite String.eqb_refl.
  repeat split; intros ->; reflexivity.
Qed.

Lemma array_find_first_block (ty : string) (blocks : list value) :
  Forall not_nullish blocks ->
  array_find (block_pred ty) blocks = Ok (default VUndef (first_block ty blocks)).
Proof.
  induction 1 as [|b blocks Hb _ IH]; simpl; [reflexivity|].
  rewrite (block_pred_is_block _ _ Hb). simpl.
  destruct (is_block ty b); [reflexivity|exact IH].
Qed.

(** What [find] returns: the earliest block that passes the test. *)
Lemma first_block_spec (ty : string) (blocks : list value) :
  match first_block ty blocks with
  | Some b =>
      exists pre post, blocks = (pre ++ b :: post)%list /\ is_block ty b = true
                       /\ Forall (fun x => is_block ty x = false) pre
  | None => Forall (fun x => is_block ty x = false) blocks
  end.
Proof.
  unfold first_block. induction blocks as [|x blocks IH]; simpl; [constructor|].
  destruct (is_block ty x) eqn:E.
  - exists [], blocks. repeat split; auto.
  - destruct (List.find (is_block ty) blocks) as [b|].
    + destruct IH as (pre & post & -> & Hb & Hpre).
      exists (x :: pre), post. repeat split; auto.
    + by constructor.
Qed.

Lemma block_section_first_block (ty : string) (render : value -> res (list string))
    (blocks : list value) :
  Forall not_nullish blocks ->
  block_section ty render blocks
  = match first_block ty blocks with
    | Some b => render b
    | None => Ok []
    end.
Proof.
  intros Hwf. unfold block_section. rewrite (array_find_first_block _ _ Hwf). simpl.
  pose proof (first_block_spec ty blocks) as Hspec.
  destruct (first_block ty blocks) as [b|]; simpl; [|reflexivity].
  destruct Hspec as (_ & _ & _ & Hb & _). by rewrite (is_block_truthy _ _ Hb).
Qed.

(** The fragments depend on the block list only through the first enabled
    block of each supported type. *)
Lemma render_parts_extensional (blocks blocks' : list value) (slotUrls : gmap string string) :
  Forall not_nullish blocks -> Forall not_nullish blocks' ->
  (forall ty, ty ∈ supported_types -> first_block ty blocks = first_block ty blocks') ->
  render_parts blocks slotUrls = render_parts blocks' slotUrls.
Proof.
  intros Hwf Hwf' Hsame. unfold render_parts.
  rewrite !block_section_first_block by done.
  rewrite !Hsame by (unfold supported_types; rewrite !elem_of_cons; tauto).
  reflexivity.
Qed.

Lemma find_app_skip (ty : string) (l1 l2 : list value) :
  Forall (fun x => is_block ty x = false) l1 ->
  List.find (is_block ty) (l1 ++ l2) = List.find (is_block ty) l2.
Proof.
  induction 1 as [|x l1 Hx _ IH]; simpl; [reflexivity|]. by rewrite Hx.
Qed.

Lemma opt_list_other_type (ty ty' : string) (blocks : list value) :
  ty <> ty' ->
  Forall (fun x => is_block ty x = false) (opt_list (first_block ty' blocks)).
Proof.
  intros Hne. pose proof (first_block_spec ty' blocks) as Hspec.
  destruct (first_block ty' blocks) as [b|]; simpl; [|constructor].
  destruct Hspec as (_ & _ & _ & Hb & _).
  constructor; [|constructor]. eapply is_block_type_unique; eauto.
Qed.

Lemma find_opt_list_same (ty : string) (blocks rest : list value) :
  Forall (fun x => is_block ty x = false) rest ->
  List.find (is_block ty) (opt_list (first_block ty blocks) ++ rest)
  = first_block ty blocks.
Proof.
  intros Hrest. pose proof (first_block_spec ty blocks) as Hspec.
  destruct (first_block ty blocks) as [b|]; simpl.
  - destruct Hspec as (_ & _ & _ & Hb & _). by rewrite Hb.
  - clear Hspec. induction Hrest as [|x rest Hx _ IH]; simpl; [reflexivity|].
    by rewrite Hx.
Qed.

(** Selecting again among the selected blocks changes nothing. *)
Lemma first_block_selected (ty : string) (blocks : list value) :
  ty ∈ supported_types ->
  first_block ty (selected_blocks blocks) = first_block ty blocks.
Proof.
  intros Hty. unfold selected_blocks, supported_types in *. simpl.
  rewrite app_nil_r. unfold first_block at 1.
  repeat (apply elem_of_cons in Hty as [-> | Hty];
    [ repeat (rewrite find_app_skip by (by apply opt_list_other_type));
      first
        [ apply find_opt_list_same;
          repeat (apply Forall_app; split); by apply opt_list_other_type
        | rewrite <- (app_nil_r (opt_list _)); apply find_opt_list_same; constructor ]
    | ]).
  by apply elem_of_nil in Hty.
Qed.

Lemma selected_blocks_not_nullish (blocks : list value) :
  Forall not_nullish (selected_blocks blocks).
Proof.
  unfold selected_blocks. apply Forall_concat, Forall_map, Forall_forall.
  intros ty _. pose proof (first_block_spec ty blocks) as Hspec.
  destruct (first_block ty blocks) as [b|]; simpl; [|constructor].
  destruct Hspec as (_ & _ & _ & Hb & _).
  constructor; [|constructor]. by eapply is_block_not_nullish.
Qed.

Lemma opt_list_length {A : Type} (o : option A) : (length (opt_list o) <= 1)%nat.
Proof. destruct o; simpl; lia. Qed.

(** At most one selected block per type. *)
Lemma selected_blocks_one_per_type (ty : string) (blocks : list value) :
  (length (List.filter (is_block ty) (selected_blocks blocks)) <= 1)%nat.
Proof.
  unfold selected_blocks, supported_types. simpl. rewrite app_nil_r.
  assert (forall ty' l,
            (length (List.filter (is_block ty) (opt_list (first_block ty' blocks) ++ l))
             <= length (List.filter (is_block ty) l)
                + (if String.eqb ty ty' then 1 else 0))%nat) as Hstep.
  { intros ty' l. rewrite List.filter_app, length_app.
    destruct (String.eqb ty ty') eqn:E.
    - pose proof (opt_list_length (first_block ty' blocks)).
      pose proof (List.filter_length_le (is_block ty) (opt_list (first_block ty' blocks))). lia.
    - apply String.eqb_neq in E.
      pose proof (opt_list_other_type ty ty' blocks E) as Hf.
      assert (List.filter (is_block ty) (opt_list (first_block ty' blocks)) = []) as ->.
      { destruct (first_block ty' blocks); simpl in *; [|reflexivity].
        inversion Hf as [|? ? Hx _]; subst. by rewrite Hx. }
      simpl. lia. }
  pose proof (Hstep "hero" (opt_list (first_block "content" blocks)
     ++ opt_list (first_block "contacts" blocks) ++ opt_list (first_block "faq" blocks)
     ++ opt_list (first_block "footer_links" blocks))%list) as H1.
  pose proof (Hstep "content" (opt_list (first_block "contacts" blocks)
     ++ opt_list (first_block "faq" blocks)
     ++ opt_list (first_block "footer_links" blocks))%list) as H2.
  pose proof (Hstep "contacts" (opt_list (first_block "faq" blocks)
     ++ opt_list (first_block "footer_links" blocks))%list) as H3.
  pose proof (Hstep "faq" (opt_list (first_block "footer_links" blocks))) as H4.
  pose proof (Hstep "footer_links" []) as H5.
  rewrite app_nil_r in H5. simpl in H5.
  destruct (String.eqb ty "hero") eqn:E1;
    [apply String.eqb_eq in E1; subst; simpl in *; lia|].
  destruct (String.eqb ty "content") eqn:E2;
    [apply String.eqb_eq in E2; subst; simpl in *; lia|].
  destruct (String.eqb ty "contacts") eqn:E3;
    [apply String.eqb_eq in E3; subst; simpl in *; lia|].
  destruct (String.eqb ty "faq") eqn:E4;
    [apply String.eqb_eq in E4; subst; simpl in *; lia|].
  destruct (String.eqb ty "footer_links") eqn:E5;
    [apply String.eqb_eq in E5; subst; simpl in *; lia|].
  lia.
Qed.

Lemma one_length (r : res string) (l : list string) : one r = Ok l -> length l = 1%nat.
Proof. unfold one. destruct r; simpl; [|discriminate]. by intros [= <-]. Qed.

Lemma bind_Ok {A B : Type} (m : res A) (k : A -> res B) (b : B) :
  Js.bind m k = Ok b -> exists a, m = Ok a /\ k a = Ok b.
Proof. destruct m; simpl; [eauto|discriminate]. Qed.

Lemma render_faq_length (faq : value) (l : list string) :
  render_faq faq = Ok l -> (length l <= 1)%nat.
Proof.
  unfold render_faq. intros H. apply bind_Ok in H as (data & _ & H).
  destruct (match oprop data "items" with VArr l0 => l0 | _ => [] end).
  - injection H as <-. simpl. lia.
  - apply bind_Ok in H as (list & _ & H). injection H as <-. simpl. lia.
Qed.

Lemma render_footer_links_length (b : value) (slotUrls : gmap string string)
    (l : list string) :
  render_footer_links b slotUrls = Ok l -> (length l <= 1)%nat.
Proof.
  unfold render_footer_links. intros H. apply bind_Ok in H as (data & _ & H).
  destruct (oprop data "items") as [| | | | |items| |];
    try (injection H as <-; simpl; lia).
  destruct items as [|it r]; [injection H as <-; simpl; lia|].
  apply bind_Ok in H as (list & _ & H). injection H as <-. simpl. lia.
Qed.

Lemma block_section_length (ty : string) (render : value -> res (list string))
    (blocks : list value) (l : list string) :
  (forall b l', render b = Ok l' -> (length l' <= 1)%nat) ->
  block_section ty render blocks = Ok l -> (length l <= 1)%nat.
Proof.
  intros Hr. unfold block_section.
  destruct (array_find (block_pred ty) blocks) as [b|]; simpl; [|discriminate].
  destruct (truthy b); [apply Hr|]. intros [= <-]. simpl. lia.
Qed.

(** At most one fragment per supported type, and the generator credit. *)
Lemma render_parts_length (blocks : list value) (slotUrls : gmap string string)
    (parts : list string) :
  render_parts blocks slotUrls = Ok parts -> (length parts <= 6)%nat.
Proof.
  unfold render_parts.
  destruct (block_section "hero" _ blocks) as [p1|] eqn:E1; simpl; [|discriminate].
  destruct (block_section "content" _ blocks) as [p2|] eqn:E2; simpl; [|discriminate].
  destruct (block_section "contacts" _ blocks) as [p3|] eqn:E3; simpl; [|discriminate].
  destruct (block_section "faq" _ blocks) as [p4|] eqn:E4; simpl; [|discriminate].
  destruct (block_section "footer_links" _ blocks) as [p5|] eqn:E5; simpl; [|discriminate].
  intros [= <-].
  apply block_section_length in E1;
    [|intros b l' Hl; apply one_length in Hl; lia].
  apply block_section_length in E2;
    [|intros b l' Hl; apply one_length in Hl; lia].
  apply block_section_length in E3;
    [|intros b l' Hl; apply one_length in Hl; lia].
  apply block_section_length in E4; [|intros b l'; apply render_faq_length].
  apply block_section_length in E5; [|intros b l'; apply render_footer_links_length].
  rewrite !length_app. simpl. lia.
Qed.

Lemma find_app_cases {A : Type} (f : A -> bool) (l1 l2 : list A) :
  List.find f (l1 ++ l2)
  = match List.find f l1 with
    | Some x => Some x
    | None => List.find f l2
    end.
Proof. induction l1 as [|x l1 IH]; simpl; [reflexivity|]. by destruct (f x). Qed.

(** The output in terms of the first enabled block of each type. *)
Lemma renderBlocksWithSlots_first_blocks (blocks : list value)
    (slotUrls : gmap string string) :
  Forall not_nullish blocks ->
  renderBlocksWithSlots blocks slotUrls
  = (hero <- block_fragments (first_block "hero" blocks)
               (fun b => s <- render_hero b slotUrls ;; Ok [s]) ;;
     content <- block_fragments (first_block "content" blocks)
                  (fun b => s <- render_content b ;; Ok [s]) ;;
     contacts <- block_fragments (first_block "contacts" blocks)
                   (fun b => s <- render_contacts b ;; Ok [s]) ;;
     faq <- block_fragments (first_block "faq" blocks) render_faq ;;
     footer <- block_fragments (first_block "footer_links" blocks)
                 (fun b => render_footer_links b slotUrls) ;;
     Ok (join nl (hero ++ content ++ contacts ++ faq ++ footer ++ [generator_credit])%list)).
Proof.
  intros Hwf. unfold renderBlocksWithSlots, render_parts.
  rewrite !block_section_first_block by done.
  unfold block_fragments, one.
  destruct (first_block "hero" blocks) as [b1|];
    [destruct (render_hero b1 slotUrls); [|reflexivity]|]; simpl;
  (destruct (first_block "content" blocks) as [b2|];
    [destruct (render_content b2); [|reflexivity]|]; simpl;
  (destruct (first_block "contacts" blocks) as [b3|];
    [destruct (render_contacts b3); [|reflexivity]|]; simpl;
  (destruct (first_block "faq" blocks) as [b4|];
    [destruct (render_faq b4); [|reflexivity]|]; simpl;
  (destruct (first_block "footer_links" blocks) as [b5|];
    [destruct (render_footer_links b5 slotUrls); [|reflexivity]|]; simpl;
   reflexivity)))).
Qed.

Lemma join_cons_nonempty (sep x : string) (l : list string) :
  l <> [] -> join sep (x :: l) = x ++ sep ++ join sep l.
Proof. destruct l; [congruence | reflexivity]. Qed.

(** A block of a type that already has an enabled block before it changes
    no first block. *)
Lemma first_block_later (ty ty' : string) (pre post : list value) (b later : value) :
  first_block ty pre = Some b -> oprop later "type" = VStr ty ->
  first_block ty' (pre ++ later :: post) = first_block ty' (pre ++ post).
Proof.
  intros Hb Hty. unfold first_block in *. rewrite !find_app_cases.
  destruct (String.eqb ty ty') eqn:E.
  - apply String.eqb_eq in E as <-. by rewrite Hb.
  - destruct (List.find (is_block ty') pre); [reflexivity|]. simpl.
    unfold is_block at 1. rewrite Hty. simpl. by rewrite E.
Qed.

(** C6: for a list of blocks (objects), and for each supported type, the
    block that [renderBlocksWithSlots] looks up is the first one of that type
    whose [enabled] member is not [false] (a block without the member counts
    as enabled); the output is the fragments of these first blocks, in the
    order hero, content, contacts, FAQ, footer links, followed by the credit
    and joined by line breaks, so that it starts with the fragment of the
    first enabled hero; it is the output for the list of these first blocks
    alone, at most one per type; a further block of a type, put anywhere
    after an enabled block of that type, changes nothing; and at most one
    fragment per type is emitted, before the credit. *)
Theorem C6_first_enabled_block_per_type (blocks : list value) (slotUrls : gmap string string) :
  Forall not_nullish blocks ->
  (forall ty, ty ∈ supported_types ->
     array_find (block_pred ty) blocks = Ok (default VUndef (first_block ty blocks))
     /\ match first_block ty blocks with
        | Some b =>
            exists pre post, blocks = (pre ++ b :: post)%list /\ is_block ty b = true
                             /\ Forall (fun x => is_block ty x = false) pre
        | None => Forall (fun x => is_block ty x = false) blocks
        end)
  /\ (forall ty fields, assoc "type" fields = Some (VStr ty) ->
        assoc "enabled" fields = None -> is_block ty (VObj fields) = true)
  /\ (forall ty, (length (List.filter (is_block ty) (selected_blocks blocks)) <= 1)%nat)
  /\ renderBlocksWithSlots blocks slotUrls
     = renderBlocksWithSlots (selected_blocks blocks) slotUrls
  /\ (forall blocks', Forall not_nullish blocks' ->
        (forall ty, ty ∈ supported_types -> first_block ty blocks' = first_block ty blocks) ->
        renderBlocksWithSlots blocks' slotUrls = renderBlocksWithSlots blocks slotUrls)
  /\ (forall parts, render_parts blocks slotUrls = Ok parts -> (length parts <= 6)%nat)
  /\ renderBlocksWithSlots blocks slotUrls
     = (hero <- block_fragments (first_block "hero" blocks)
                  (fun b => s <- render_hero b slotUrls ;; Ok [s]) ;;
        content <- block_fragments (first_block "content" blocks)
                     (fun b => s <- render_content b ;; Ok [s]) ;;
        contacts <- block_fragments (first_block "contacts" blocks)
                      (fun b => s <- render_contacts b ;; Ok [s]) ;;
        faq <- block_fragments (first_block "faq" blocks) render_faq ;;
        footer <- block_fragments (first_block "footer_links" blocks)
                    (fun b => render_footer_links b slotUrls) ;;
        Ok (join nl (hero ++ content ++ contacts ++ faq ++ footer
                     ++ [generator_credit])%list))
  /\ (forall b html, first_block "hero" blocks = Some b ->
        renderBlocksWithSlots blocks slotUrls = Ok html ->
        exists fragment rest,
          render_hero b slotUrls = Ok fragment /\ html = fragment ++ nl ++ rest)
  /\ (forall ty b pre post later,
        blocks = (pre ++ post)%list -> first_block ty pre = Some b ->
        not_nullish later -> oprop later "type" = VStr ty ->
        renderBlocksWithSlots (pre ++ later :: post) slotUrls
        = renderBlocksWithSlots blocks slotUrls).
Proof.
  intros Hwf. split; [|split; [|split; [|split; [|split; [|split; [|split; [|split]]]]]]].
  - intros ty _. split; [by apply array_find_first_block|apply first_block_spec].
  - intros ty fields Ht He.
    destruct (is_block_enabled_flag ty fields Ht) as (Habsent & _). by apply Habsent.
  - intros ty. apply selected_blocks_one_per_type.
  - unfold renderBlocksWithSlots.
    rewrite (render_parts_extensional blocks (selected_blocks blocks)); auto.
    + apply selected_blocks_not_nullish.
    + intros ty Hty. symmetry. by apply first_block_selected.
  - intros blocks' Hwf' Hsame. unfold renderBlocksWithSlots.
    by rewrite (render_parts_extensional blocks' blocks).
  - intros parts. apply render_parts_length.
  - by apply renderBlocksWithSlots_first_blocks.
  - intros b html Hb. rewrite renderBlocksWithSlots_first_blocks by done.
    rewrite Hb. unfold block_fragments at 1.
    destruct (render_hero b slotUrls) as [fragment|e]; [|discriminate]. simpl.
    intros H.
    apply bind_Ok in H as (content & _ & H). apply bind_Ok in H as (contacts & _ & H).
    apply bind_Ok in H as (faq & _ & H). apply bind_Ok in H as (footer & _ & H).
    injection H as <-.
    exists fragment,
      (join nl (content ++ contacts ++ faq ++ footer ++ [generator_credit])%list).
    split; [reflexivity|]. apply join_cons_nonempty.
    destruct content, contacts, faq, footer; discriminate.
  - intros ty b pre post later -> Hb Hlater Hty. unfold renderBlocksWithSlots.
    rewrite (render_parts_extensional (pre ++ later :: post) (pre ++ post)); auto.
    + apply Forall_app in Hwf as [Hpre Hpost].
      apply Forall_app. split; [exact Hpre|]. by constructor.
    + intros ty' _. by apply (first_block_later ty ty' pre post b later).
Qed.

Lemma demo_blocks_not_nullish : Forall not_nullish demo_blocks.
Proof. unfold demo_blocks. repeat constructor; discriminate. Qed.

(** C6 at the sample list: the output is the one for the selected blocks;
    it holds the heading of the second block, the first hero that is not
    disabled, and neither the heading of the disabled hero before it nor
    that of the enabled hero after it. *)
Lemma C6_first_enabled_block_per_type_witness :
  renderBlocksWithSlots demo_blocks demo_slots
  = renderBlocksWithSlots (selected_blocks demo_blocks) demo_slots
  /\ (forall parts, render_parts demo_blocks demo_slots = Ok parts -> (length parts <= 6)%nat)
  /\ exists html,
       renderBlocksWithSlots demo_blocks demo_slots = Ok html
       /\ includes html "<h1>A&amp;B</h1>" = true
       /\ includes html "<h1>off</h1>" = false
       /\ includes html "<h1>later</h1>" = false
       /\ includes html "<h2>Contacts</h2>" = true
       /\ includes html "<h2>FAQ</h2>" = false.
Proof.
  destruct (C6_first_enabled_block_per_type demo_blocks demo_slots demo_blocks_not_nullish)
    as (_ & _ & _ & Hsel & _ & Hlen & Hout & _).
  split; [exact Hsel|]. split; [exact Hlen|].
  eexists. split; [exact (eq_trans Hout eq_refl)|].
  repeat split; vm_compute; reflexivity.
Defined.

(** On the sample list the second block is the hero that is rendered; the
    FAQ without items leaves no fragment. *)
Example demo_blocks_render :
  first_block "hero" demo_blocks = nth_error demo_blocks 1
  /\ (length <$> match render_parts demo_blocks demo_slots with
                 | Ok parts => Some parts
                 | Throw _ => None
                 end) = Some 3%nat.
Proof. split; vm_compute; reflexivity. Qed.

(** ** The store *)

Lemma max_by_In {A : Type} (key : A -> Z) (l : list A) (x : A) :
  max_by key l = Some x -> In x l /\ forall y, In y l -> key y <= key x.
Proof.
  revert x. induction l as [|a l IH]; intros x; simpl; [discriminate|].
  destruct (max_by key l) as [y|] eqn:E.
  - destruct (IH y eq_refl) as [Hin Hmax].
    destruct (key a <? key y) eqn:Hlt; intros [= <-].
    + apply Z.ltb_lt in Hlt. split; [by right|].
      intros z [<- | Hz]; [lia|by apply Hmax].
    + apply Z.ltb_ge in Hlt. split; [by left|].
      intros z [<- | Hz]; [lia|]. specialize (Hmax z Hz). lia.
  - intros [= <-]. split; [by left|].
    destruct l; [|simpl in E; destruct (max_by key l); [destruct (_ <? _)|]; discriminate].
    intros z [<- | []]. lia.
Qed.

Lemma max_by_None {A : Type} (key : A -> Z) (l : list A) :
  max_by key l = None -> l = [].
Proof.
  destruct l as [|a l]; [reflexivity|]. simpl.
  destruct (max_by key l); [destruct (_ <? _)|]; discriminate.
Qed.

Lemma max_by_map {A : Type} (key : A -> Z) (f : A -> A) (l : list A) :
  (forall x, key (f x) = key x) ->
  max_by key (map f l) = option_map f (max_by key l).
Proof.
  intros Hk. induction l as [|a l IH]; simpl; [reflexivity|].
  rewrite IH. destruct (max_by key l) as [y|]; simpl; [|reflexivity].
  rewrite !Hk. by destruct (key a <? key y).
Qed.

Lemma filter_map_same {A : Type} (p : A -> bool) (f : A -> A) (l : list A) :
  (forall x, p (f x) = p x) ->
  List.filter p (map f l) = map f (List.filter p l).
Proof.
  intros Hp. induction l as [|a l IH]; simpl; [reflexivity|].
  rewrite Hp, IH. by destruct (p a).
Qed.

Lemma update_where_length {A : Type} (id_of : A -> nat) (id : nat) (f : A -> A) (l : list A) :
  length (update_where id_of id f l) = length l.
Proof. unfold update_where. apply length_map. Qed.

(** ** Publish pipeline: builds *)

Lemma publish_latest_versions_frame (ps : list Page) (s : Store) :
  exists s',
    publish_latest_versions ps s = (Ok tt, s')
    /\ builds s' = builds s /\ sites s' = sites s /\ next_id s' = next_id s
    /\ runs s' = runs s /\ schedules s' = schedules s.
Proof.
  revert s. induction ps as [|p ps IH]; intros s.
  - exists s. repeat split.
  - unfold publish_latest_versions. simpl. unfold bindM at 1.
    unfold bindM at 1. unfold pageVersion_findFirst_latest at 1.
    unfold bindM at 1. simpl.
    destruct (max_by versionNumber _) as [latest|].
    + unfold bindM at 1. simpl.
      match goal with |- context [for_each ps ?body ?s1] =>
        destruct (IH s1) as (s' & Hrun & Hb & Hsi & Hn & Hr & Hsc) end.
      unfold publish_latest_versions in Hrun. rewrite Hrun.
      exists s'. repeat split; auto.
    + simpl. destruct (IH s) as (s' & Hrun & Hb & Hsi & Hn & Hr & Hsc).
      unfold publish_latest_versions in Hrun. rewrite Hrun.
      exists s'. repeat split; auto.
Qed.

Lemma build_key_update_where (id : nat) (f : Build -> Build) (l : list Build) :
  (forall b, build_key (f b) = build_key b) ->
  map build_key (update_where build_id id f l) = map build_key l.
Proof.
  intros Hf. unfold update_where. rewrite map_map. apply map_ext.
  intros b. destruct (Nat.eqb (build_id b) id); [apply Hf|reflexivity].
Qed.

Lemma internalPublishSite_build_keys (now : Z) (resp : FetchOutcome) (siteId : nat)
    (s : Store) (site : Site) :
  find (fun x => Nat.eqb (site_id x) siteId) (sites s) = Some site ->
  map build_key (builds (snd (internalPublishSite now resp siteId s)))
  = (map build_key (builds s) ++ [(siteId, next_build_number siteId s)])%list.
Proof.
  intros Hfind.
  assert (site_id site = siteId) as Hid.
  { apply find_some in Hfind as [_ H]. by apply Nat.eqb_eq in H. }
  unfold internalPublishSite, bindM at 1, site_findUnique, bindM at 1, get_store, ret.
  rewrite Hfind. rewrite Hid.
  unfold bindM at 1. unfold page_findMany_bySite, bindM at 1, get_store, ret.
  unfold bindM at 1.
  destruct (publish_latest_versions_frame
              (List.filter (fun p => Nat.eqb (page_siteId p) siteId) (pages s)) s)
    as (s1 & Hrun & Hb & _ & _ & _ & _).
  rewrite Hrun.
  unfold bindM at 1, build_findFirst_last, bindM at 1, get_store, ret.
  rewrite Hb. fold (next_build_number siteId s).
  destruct resp as [msg | t | path]; cbn -[update_where next_build_number];
    rewrite ?build_key_update_where by reflexivity;
    rewrite Hb, map_app; reflexivity.
Qed.

Lemma site_build_numbers_keys (siteId : nat) (s : Store) :
  site_build_numbers siteId s
  = map snd (List.filter (fun k => Nat.eqb (fst k) siteId) (map build_key (builds s))).
Proof.
  unfold site_build_numbers. induction (builds s) as [|b l IH]; simpl; [reflexivity|].
  destruct (Nat.eqb (build_siteId b) siteId); simpl; by rewrite IH.
Qed.

Lemma next_build_number_spec (siteId : nat) (s : Store) :
  let old := site_build_numbers siteId s in
  (old = [] -> next_build_number siteId s = 1)
  /\ (old <> [] ->
      In (next_build_number siteId s - 1) old
      /\ forall m, In m old -> m <= next_build_number siteId s - 1).
Proof.
  unfold next_build_number, site_build_numbers. cbv zeta.
  set (l := List.filter (fun b => Nat.eqb (build_siteId b) siteId) (builds s)).
  destruct (max_by buildNumber l) as [b|] eqn:E.
  - apply max_by_In in E as [Hin Hmax]. split.
    + intros Hnil. apply map_eq_nil in Hnil. rewrite Hnil in Hin. destruct Hin.
    + intros _. replace (buildNumber b + 1 - 1) with (buildNumber b) by lia. split.
      * by apply in_map.
      * intros m Hm. apply in_map_iff in Hm as (b' & <- & Hb'). by apply Hmax.
  - apply max_by_None in E. rewrite E. simpl. split; [reflexivity|congruence].
Qed.

Lemma seq_Z_last (k : nat) :
  map Z.of_nat (seq 1 (S k)) = (map Z.of_nat (seq 1 k) ++ [Z.of_nat k + 1])%list.
Proof.
  rewrite seq_S, map_app. simpl. f_equal. f_equal. lia.
Qed.

(** C8: a publish of an existing site appends one build to the site's
    builds; its number is 1 when the site had none, and otherwise the highest
    number so far plus one, so it is greater than every earlier number and
    numbers that ran 1, 2, ..., k run 1, 2, ..., k + 1 afterwards.  The
    builds of the other sites are untouched, and the HTTP handler does the
    same as [internalPublishSite]. *)
Theorem C8_build_number_increments (now : Z) (resp : FetchOutcome) (siteId : nat)
    (s : Store) (site : Site) :
  find (fun x => Nat.eqb (site_id x) siteId) (sites s) = Some site ->
  let s' := snd (internalPublishSite now resp siteId s) in
  let old := site_build_numbers siteId s in
  exists n,
    site_build_numbers siteId s' = (old ++ [n])%list
    /\ (old = [] -> n = 1)
    /\ (old <> [] -> In (n - 1) old /\ forall m, In m old -> m <= n - 1)
    /\ (forall m, In m old -> m < n)
    /\ (old = map Z.of_nat (seq 1 (length old)) ->
        (old ++ [n])%list = map Z.of_nat (seq 1 (S (length old))))
    /\ (forall other, other <> siteId ->
        site_build_numbers other s' = site_build_numbers other s)
    /\ post_sites_publish now resp siteId s = internalPublishSite now resp siteId s.
Proof.
  intros Hfind s' old.
  pose proof (internalPublishSite_build_keys now resp siteId s site Hfind) as Hkeys.
  fold s' in Hkeys.
  destruct (next_build_number_spec siteId s) as [Hempty Hmax]. fold old in Hempty, Hmax.
  exists (next_build_number siteId s).
  split; [|split; [|split; [|split; [|split; [|split]]]]].
  - rewrite (site_build_numbers_keys siteId s'), Hkeys.
    rewrite List.filter_app, map_app. simpl. rewrite Nat.eqb_refl. simpl.
    unfold old. by rewrite site_build_numbers_keys.
  - exact Hempty.
  - exact Hmax.
  - intros m Hm. assert (old <> []) as Hne by (intros Hnil; rewrite Hnil in Hm; destruct Hm).
    destruct (Hmax Hne) as [_ Hle]. specialize (Hle m Hm). lia.
  - intros Hseq. rewrite seq_Z_last, <- Hseq. f_equal. f_equal.
    destruct (length old) as [|k] eqn:Hlen.
    + apply length_zero_iff_nil in Hlen. rewrite (Hempty Hlen). reflexivity.
    + assert (old <> []) as Hne by (intros Hnil; rewrite Hnil in Hlen; discriminate).
      destruct (Hmax Hne) as [Hin Hle].
      assert (In (Z.of_nat (S k)) old) as Hk.
      { rewrite Hseq. apply in_map. apply in_seq. lia. }
      apply Hle in Hk.
      rewrite Hseq in Hin. apply in_map_iff in Hin as (j & Hj & Hjin).
      apply in_seq in Hjin. lia.
  - intros other Hother. rewrite (site_build_numbers_keys other s'), Hkeys.
    rewrite List.filter_app, map_app. simpl.
    destruct (Nat.eqb siteId other) eqn:E; [apply Nat.eqb_eq in E; congruence|].
    simpl. by rewrite app_nil_r, site_build_numbers_keys.
  - reflexivity.
Qed.

(** C8 at a store with builds 1, 2, 3, for a publish that the renderer
    refuses. *)
Lemma C8_build_number_increments_witness :
  let s' := snd (internalPublishSite 0 (FetchNotOk "boom") 1 store_three_builds) in
  let old := site_build_numbers 1 store_three_builds in
  exists n,
    site_build_numbers 1 s' = (old ++ [n])%list
    /\ (old = [] -> n = 1)
    /\ (old <> [] -> In (n - 1) old /\ forall m, In m old -> m <= n - 1)
    /\ (forall m, In m old -> m < n)
    /\ (old = map Z.of_nat (seq 1 (length old)) ->
        (old ++ [n])%list = map Z.of_nat (seq 1 (S (length old))))
    /\ (forall other, other <> 1%nat ->
        site_build_numbers other s' = site_build_numbers other store_three_builds)
    /\ post_sites_publish 0 (FetchNotOk "boom") 1 store_three_builds
       = internalPublishSite 0 (FetchNotOk "boom") 1 store_three_builds.
Proof.
  apply (C8_build_number_increments 0 (FetchNotOk "boom") 1 store_three_builds
           {| site_id := 1; site_status := site_published; site_theme := "Demo";
              site_language := Some "en" |}).
  reflexivity.
Defined.

(** Builds 1, 2, 3 are followed by 4; the first build of a site is 1, the
    second 2, whatever the renderer answers. *)
Example build_numbers_samples :
  site_build_numbers 1 (snd (internalPublishSite 0 (FetchOk "/srv/www/demo") 1 store_three_builds))
  = [1; 2; 3; 4]
  /\ site_build_numbers 2 (snd (internalPublishSite 0 (FetchOk "/srv/www/demo") 1 store_three_builds))
     = [7]
  /\ (let empty := {| sites := sites store_three_builds; pages := []; versions := [];
                      builds := []; schedules := []; runs := []; next_id := 20 |} in
      let s1 := snd (internalPublishSite 0 (FetchRejected "fetch failed") 1 empty) in
      let s2 := snd (post_sites_publish 1 (FetchOk "/srv/www/demo") 1 s1) in
      site_build_numbers 1 s1 = [1] /\ site_build_numbers 1 s2 = [1; 2]).
Proof. repeat split; vm_compute; reflexivity. Qed.

(** ** Publish pipeline: published versions *)

Lemma promote_fields (ids : list nat) (v : PageVersion) :
  pv_id (promote ids v) = pv_id v /\ pv_pageId (promote ids v) = pv_pageId v
  /\ versionNumber (promote ids v) = versionNumber v.
Proof. unfold promote. destruct (existsb _ ids); repeat split. Qed.

Lemma promote_promote (a b : list nat) (v : PageVersion) :
  promote a (promote b v) = promote (b ++ a) v.
Proof.
  unfold promote. rewrite existsb_app.
  destruct (existsb (Nat.eqb (pv_id v)) b) eqn:Eb; cbn [orb].
  - change (pv_id (set_isPublished true v)) with (pv_id v).
    by destruct (existsb (Nat.eqb (pv_id v)) a).
  - reflexivity.
Qed.

Lemma update_where_promote (id : nat) (vs : list PageVersion) :
  update_where pv_id id (set_isPublished true) vs = map (promote [id]) vs.
Proof.
  unfold update_where, promote. apply map_ext. intros v. simpl.
  by rewrite orb_false_r.
Qed.

Lemma latest_version_promote (ids : list nat) (pageId : nat) (vs : list PageVersion) :
  latest_version pageId (map (promote ids) vs)
  = option_map (promote ids) (latest_version pageId vs).
Proof.
  unfold latest_version.
  rewrite filter_map_same by (intros v; by destruct (promote_fields ids v) as (_ & -> & _)).
  apply max_by_map. intros v. by destruct (promote_fields ids v) as (_ & _ & ->).
Qed.

Lemma latest_ids_promote (ids : list nat) (ps : list Page) (vs : list PageVersion) :
  latest_ids ps (map (promote ids) vs) = latest_ids ps vs.
Proof.
  unfold latest_ids. induction ps as [|p ps IH]; simpl; [reflexivity|].
  rewrite IH, latest_version_promote.
  destruct (latest_version (page_id p) vs) as [v|]; simpl; [|reflexivity].
  by destruct (promote_fields ids v) as (-> & _).
Qed.

(** The loop promotes the latest version of each page and changes no other
    row of the version table. *)
Lemma publish_latest_versions_versions (ps : list Page) (s : Store) :
  versions (snd (publish_latest_versions ps s))
  = map (promote (latest_ids ps (versions s))) (versions s).
Proof.
  revert s. induction ps as [|p ps IH]; intros s.
  - simpl. rewrite <- (map_id (versions s)) at 1. apply map_ext.
    intros v. reflexivity.
  - unfold publish_latest_versions in *. simpl.
    unfold bindM at 1. unfold bindM at 1.
    unfold pageVersion_findFirst_latest at 1. unfold bindM at 1. simpl.
    fold (latest_version (page_id p) (versions s)).
    destruct (latest_version (page_id p) (versions s)) as [latest|]; simpl.
    + unfold bindM at 1. simpl. rewrite IH. simpl.
      rewrite update_where_promote, latest_ids_promote, map_map.
      apply map_ext. intros v. apply promote_promote.
    + apply IH.
Qed.

Lemma internalPublishSite_versions (now : Z) (resp : FetchOutcome) (siteId : nat)
    (s : Store) (site : Site) :
  find (fun x => Nat.eqb (site_id x) siteId) (sites s) = Some site ->
  versions (snd (internalPublishSite now resp siteId s))
  = map (promote (promoted_ids siteId s)) (versions s).
Proof.
  intros Hfind.
  assert (site_id site = siteId) as Hid.
  { apply find_some in Hfind as [_ H]. by apply Nat.eqb_eq in H. }
  unfold internalPublishSite, bindM at 1, site_findUnique, bindM at 1, get_store, ret.
  rewrite Hfind. rewrite Hid.
  unfold bindM at 1. unfold page_findMany_bySite, bindM at 1, get_store, ret.
  unfold bindM at 1.
  pose proof (publish_latest_versions_versions
                (List.filter (fun p => Nat.eqb (page_siteId p) siteId) (pages s)) s) as Hv.
  destruct (publish_latest_versions_frame
              (List.filter (fun p => Nat.eqb (page_siteId p) siteId) (pages s)) s)
    as (s1 & Hrun & _).
  rewrite Hrun in Hv |- *. simpl in Hv. fold (promoted_ids siteId s) in Hv.
  destruct resp as [msg | t | path]; cbn -[update_where promoted_ids promote]; exact Hv.
Qed.

Lemma at_most_one_published_check (s : Store) :
  forallb (fun v => (published_count (pv_pageId v) s <=? 1)%nat) (versions s) = true ->
  at_most_one_published s.
Proof.
  intros Hall pageId. unfold published_count at 1.
  destruct (List.filter _ (versions s)) as [|v l] eqn:E; [simpl; lia|].
  assert (In v (List.filter (fun v => Nat.eqb (pv_pageId v) pageId && isPublished v)
                  (versions s))) as Hin by (rewrite E; by left).
  apply filter_In in Hin as [Hin Hv]. apply andb_true_iff in Hv as [Hp _].
  apply Nat.eqb_eq in Hp.
  rewrite forallb_forall in Hall. specialize (Hall v Hin).
  apply Nat.leb_le in Hall. rewrite Hp in Hall. unfold published_count in Hall.
  by rewrite E in Hall.
Qed.

(** C1 (counterexample): in a store that the autopost runs and a publish
    produce, every page has at most one published version; after one more
    publish the blog index page has two, version 2 published earlier and
    version 3 promoted now. *)
Lemma C1_second_publish_leaves_two_published :
  at_most_one_published store_before_second_publish
  /\ map (fun v => (versionNumber v, isPublished v))
       (List.filter (fun v => Nat.eqb (pv_pageId v) blog_index_page_id)
          (versions store_before_second_publish))
     = [(1, false); (2, true); (3, false)]
  /\ (forall now resp,
        map (fun v => (versionNumber v, isPublished v))
          (List.filter (fun v => Nat.eqb (pv_pageId v) blog_index_page_id)
             (versions (snd (internalPublishSite now resp 1 store_before_second_publish))))
        = [(1, false); (2, true); (3, true)]
        /\ published_count blog_index_page_id
             (snd (internalPublishSite now resp 1 store_before_second_publish)) = 2%nat
        /\ ~ at_most_one_published
               (snd (internalPublishSite now resp 1 store_before_second_publish))).
Proof.
  split; [apply at_most_one_published_check; vm_compute; reflexivity|].
  split; [vm_compute; reflexivity|].
  intros now resp.
  assert (versions (snd (internalPublishSite now resp 1 store_before_second_publish))
          = map (promote (promoted_ids 1 store_before_second_publish))
              (versions store_before_second_publish)) as Hv.
  { eapply internalPublishSite_versions. vm_compute. reflexivity. }
  assert (published_count blog_index_page_id
            (snd (internalPublishSite now resp 1 store_before_second_publish)) = 2%nat) as Hc.
  { unfold published_count. rewrite Hv. vm_compute. reflexivity. }
  split; [rewrite Hv; vm_compute; reflexivity|]. split; [exact Hc|].
  intros Hle. specialize (Hle blog_index_page_id). rewrite Hc in Hle. lia.
Qed.

(** C1 (amended): a publish of an existing site sets [isPublished] on the
    highest-numbered version of every page of the site and leaves every other
    field and every other version as they were: no version is demoted.  So
    afterwards the highest version of each page of the site is published, and
    the versions published before are still published. *)
Theorem C1_publish_promotes_latest_keeps_others (now : Z) (resp : FetchOutcome)
    (siteId : nat) (s : Store) (site : Site) :
  find (fun x => Nat.eqb (site_id x) siteId) (sites s) = Some site ->
  let s' := snd (internalPublishSite now resp siteId s) in
  length (versions s') = length (versions s)
  /\ (forall i v, nth_error (versions s) i = Some v ->
      exists v', nth_error (versions s') i = Some v'
                 /\ v' = set_isPublished (isPublished v') v
                 /\ (isPublished v = true -> isPublished v' = true)
                 /\ (isPublished v' = true ->
                     isPublished v = true \/ In (pv_id v) (promoted_ids siteId s)))
  /\ (forall p latest,
        In p (pages s) -> page_siteId p = siteId ->
        latest_version (page_id p) (versions s) = Some latest ->
        (forall v, In v (versions s) -> pv_pageId v = page_id p ->
                   versionNumber v <= versionNumber latest)
        /\ In (set_isPublished true latest) (versions s'))
  /\ post_sites_publish now resp siteId s = internalPublishSite now resp siteId s.
Proof.
  intros Hfind s'.
  pose proof (internalPublishSite_versions now resp siteId s site Hfind) as Hv.
  fold s' in Hv.
  split; [by rewrite Hv, length_map|].
  split; [|split; [|reflexivity]].
  - intros i v Hi. exists (promote (promoted_ids siteId s) v).
    split; [rewrite Hv, nth_error_map, Hi; reflexivity|].
    unfold promote.
    destruct (existsb (Nat.eqb (pv_id v)) (promoted_ids siteId s)) eqn:E.
    + repeat split; auto. intros _. right.
      apply existsb_exists in E as (x & Hx & Hxe). apply Nat.eqb_eq in Hxe. by subst x.
    + repeat split; auto. by destruct v.
  - intros p latest Hp Hsite Hlatest.
    pose proof Hlatest as Hl. unfold latest_version in Hl.
    apply max_by_In in Hl as [Hin Hmax].
    apply filter_In in Hin as [Hin Hpage]. split.
    + intros v Hv' Hvp. apply Hmax. apply filter_In. split; [exact Hv'|].
      by apply Nat.eqb_eq.
    + rewrite Hv. apply in_map_iff. exists latest. split; [|exact Hin].
      unfold promote.
      assert (existsb (Nat.eqb (pv_id latest)) (promoted_ids siteId s) = true) as ->;
        [|reflexivity].
      apply existsb_exists. exists (pv_id latest). split; [|apply Nat.eqb_refl].
      unfold promoted_ids, latest_ids. apply in_flat_map. exists p. split.
      * apply filter_In. split; [exact Hp|]. by apply Nat.eqb_eq.
      * rewrite Hlatest. simpl. by left.
Qed.

(** C1 (amended) at the store of the counterexample. *)
Lemma C1_publish_promotes_latest_keeps_others_witness :
  let s := store_before_second_publish in
  let s' := snd (internalPublishSite 0 (FetchOk "/srv/www/demo") 1 s) in
  length (versions s') = length (versions s)
  /\ (forall i v, nth_error (versions s) i = Some v ->
      exists v', nth_error (versions s') i = Some v'
                 /\ v' = set_isPublished (isPublished v') v
                 /\ (isPublished v = true -> isPublished v' = true)
                 /\ (isPublished v' = true ->
                     isPublished v = true \/ In (pv_id v) (promoted_ids 1 s)))
  /\ (forall p latest,
        In p (pages s) -> page_siteId p = 1%nat ->
        latest_version (page_id p) (versions s) = Some latest ->
        (forall v, In v (versions s) -> pv_pageId v = page_id p ->
                   versionNumber v <= versionNumber latest)
        /\ In (set_isPublished true latest) (versions s'))
  /\ post_sites_publish 0 (FetchOk "/srv/www/demo") 1 s
     = internalPublishSite 0 (FetchOk "/srv/www/demo") 1 s.
Proof.
  apply (C1_publish_promotes_latest_keeps_others 0 (FetchOk "/srv/www/demo") 1
           store_before_second_publish
           {| site_id := 1; site_status := site_published; site_theme := "Demo";
              site_language := Some "en" |}).
  vm_compute. reflexivity.
Defined.

(** ** Autopost run engine *)

Lemma bindM_Ok {A B : Type} (m : M A) (k : A -> M B) (s s' : Store) (a : A) :
  m s = (Ok a, s') -> bindM m k s = k a s'.
Proof. intros H. unfold bindM. by rewrite H. Qed.

Lemma bindM_Throw {A B : Type} (m : M A) (k : A -> M B) (s s' : Store) (e : string) :
  m s = (Throw e, s') -> bindM m k s = (Throw e, s').
Proof. intros H. unfold bindM. by rewrite H. Qed.

Lemma keeps_runs_ret {A : Type} (a : A) : keeps_runs (ret a).
Proof. intros s. reflexivity. Qed.

Lemma keeps_runs_throw {A : Type} (msg : string) : keeps_runs (@throw A msg).
Proof. intros s. reflexivity. Qed.

Lemma keeps_runs_get_store : keeps_runs get_store.
Proof. intros s. reflexivity. Qed.

Lemma keeps_runs_fresh_id : keeps_runs fresh_id.
Proof. intros s. reflexivity. Qed.

Lemma keeps_runs_bind {A B : Type} (m : M A) (k : A -> M B) :
  keeps_runs m -> (forall a, keeps_runs (k a)) -> keeps_runs (bindM m k).
Proof.
  intros Hm Hk s. unfold bindM. specialize (Hm s).
  destruct (m s) as [[a | e] s1]; simpl in *; [|exact Hm].
  rewrite (Hk a s1). exact Hm.
Qed.

Lemma keeps_runs_modify (f : Store -> Store) :
  (forall s, runs (f s) = runs s) -> keeps_runs (modify f).
Proof. intros Hf s. apply Hf. Qed.

Lemma keeps_runs_for_each {A : Type} (l : list A) (body : A -> M unit) :
  (forall x, keeps_runs (body x)) -> keeps_runs (for_each l body).
Proof.
  intros Hb. induction l as [|x l IH]; simpl; [apply keeps_runs_ret|].
  apply keeps_runs_bind; [apply Hb|intros _; exact IH].
Qed.

Ltac keeps_runs_step :=
  first
    [ apply keeps_runs_ret
    | apply keeps_runs_throw
    | apply keeps_runs_get_store
    | apply keeps_runs_fresh_id
    | apply keeps_runs_modify; intros ?; reflexivity
    | apply keeps_runs_for_each; intros ?
    | apply keeps_runs_bind; [|intros ?]
    | match goal with
      | |- keeps_runs (match ?x with _ => _ end) => destruct x
      | |- keeps_runs (if ?b then _ else _) => destruct b
      end ].

Ltac keeps_runs_auto := repeat keeps_runs_step.

Lemma keeps_runs_internalPublishSite (now : Z) (resp : FetchOutcome) (siteId : nat) :
  keeps_runs (internalPublishSite now resp siteId).
Proof.
  unfold internalPublishSite, site_findUnique, page_findMany_bySite,
    publish_latest_versions, pageVersion_findFirst_latest,
    pageVersion_update_isPublished, page_update_status, build_findFirst_last,
    build_create, build_update, site_update_status.
  keeps_runs_auto.
Qed.

Lemma keeps_runs_page_create (now : Z) (siteId : nat) (route pageType : string)
    (slug : option string) :
  keeps_runs (page_create now siteId route pageType slug).
Proof.
  unfold page_create, site_findUnique, page_findUnique_siteId_route. keeps_runs_auto.
Qed.

Lemma keeps_runs_pageVersion_create (pageId : nat) (n : Z) (b : bool) (c seo sch : value) :
  keeps_runs (pageVersion_create pageId n b c seo sch).
Proof. unfold pageVersion_create. keeps_runs_auto. Qed.

Lemma keeps_runs_ensureIndexPage (now : Z) (siteId : nat) (route pageType title : string) :
  keeps_runs (ensureIndexPage now siteId route pageType title).
Proof.
  unfold ensureIndexPage, page_findUnique_siteId_route.
  repeat first [ apply keeps_runs_page_create | apply keeps_runs_pageVersion_create
               | keeps_runs_step ].
Qed.

(** The steps of the [try] block do not touch the runs. *)
Lemma keeps_runs_autopost_steps (now : Z) (resp : FetchOutcome) (tza : Z)
    (schedule : AutopostSchedule) (site : option Site) :
  keeps_runs (autopost_steps now resp tza schedule site).
Proof.
  unfold autopost_steps, pageVersion_findFirst_latest, page_findMany_posts,
    schedule_update_run.
  cbv zeta.
  repeat first [ apply keeps_runs_page_create | apply keeps_runs_pageVersion_create
               | apply keeps_runs_ensureIndexPage | apply keeps_runs_internalPublishSite
               | keeps_runs_step ].
Qed.

Lemma update_where_fresh (id : nat) (f : AutopostRun -> AutopostRun)
    (l : list AutopostRun) (r : AutopostRun) :
  Forall (fun x => run_id x <> id) l -> run_id r = id ->
  update_where run_id id f (l ++ [r]) = (l ++ [f r])%list.
Proof.
  intros Hl Hr. unfold update_where. rewrite map_app. simpl.
  rewrite Hr, Nat.eqb_refl. f_equal.
  induction Hl as [|x l Hx _ IH]; simpl; [reflexivity|].
  apply Nat.eqb_neq in Hx. by rewrite Hx, IH.
Qed.

(** C7: a disabled schedule gives the no-op result and leaves the store, and
    so the runs, untouched.  For an enabled schedule a run is inserted in
    state [running] and the steps of the [try] block start from there; when
    they throw, the same exception leaves [runAutopostSchedule] and the run
    is [failed] with the message as its log; when they complete, the run is
    [success] with the result payload and the id of the created page. *)
Theorem C7_autopost_run_states (now : Z) (resp : FetchOutcome) (tza : Z)
    (scheduleId : nat) (s : Store) (schedule : AutopostSchedule) :
  find (fun x => Nat.eqb (sched_id x) scheduleId) (schedules s) = Some schedule ->
  Forall (fun r => run_id r <> next_id s) (runs s) ->
  let site := find (fun x => Nat.eqb (site_id x) (sched_siteId schedule)) (sites s) in
  let s1 := snd (run_create (sched_id schedule) s) in
  (sched_isEnabled schedule = false ->
   runAutopostSchedule now resp tza scheduleId s
   = (Ok (VObj [("ok", VBool false); ("message", VStr "Schedule disabled")]), s))
  /\ (sched_isEnabled schedule = true ->
      runs s1 = (runs s ++ [running_run s schedule])%list
      /\ run_status (running_run s schedule) = run_running
      /\ match autopost_steps now resp tza schedule site s1 with
         | (Throw e, s2) =>
             exists s3,
               runAutopostSchedule now resp tza scheduleId s = (Throw e, s3)
               /\ runs s3 = (runs s ++ [run_mark_failed now e (running_run s schedule)])%list
               /\ run_status (run_mark_failed now e (running_run s schedule)) = run_failed
               /\ run_logs (run_mark_failed now e (running_run s schedule)) = Some e
         | (Ok o, s2) =>
             exists s3,
               runAutopostSchedule now resp tza scheduleId s
               = (Ok (VObj [("ok", VBool true); ("postRoute", VStr (postRoute o));
                            ("published", published o)]), s3)
               /\ runs s3
                  = (runs s ++ [run_mark_success now (run_result_json o) (postPageId o)
                                  (running_run s schedule)])%list
               /\ run_status (run_mark_success now (run_result_json o) (postPageId o)
                                (running_run s schedule)) = run_success
               /\ resultJson (run_mark_success now (run_result_json o) (postPageId o)
                                (running_run s schedule))
                  = Some (VObj [("postRoute", VStr (postRoute o));
                                ("published", published o)])
               /\ createdPageId (run_mark_success now (run_result_json o) (postPageId o)
                                   (running_run s schedule)) = Some (postPageId o)
         end).
Proof.
  intros Hfind Hfresh site s1. split.
  - intros Hdis. unfold runAutopostSchedule, bindM at 1, schedule_findUnique,
      bindM at 1, get_store, ret.
    rewrite Hfind. unfold bindM at 1, site_findUnique, bindM at 1, get_store, ret.
    by rewrite Hdis.
  - intros Hen. split; [reflexivity|]. split; [reflexivity|].
    pose proof (keeps_runs_autopost_steps now resp tza schedule site s1) as Hkeep.
    assert (runAutopostSchedule now resp tza scheduleId s
            = try_catch (autopost_body now resp tza schedule site (running_run s schedule))
                (fun e => bindM (run_update (run_id (running_run s schedule))
                                   (run_mark_failed now e))
                            (fun _ => throw e)) s1) as Hrun.
    { unfold runAutopostSchedule, bindM at 1, schedule_findUnique,
        bindM at 1, get_store, ret.
      rewrite Hfind. unfold bindM at 1, site_findUnique, bindM at 1, get_store, ret.
      rewrite Hen. reflexivity. }
    rewrite Hrun. unfold try_catch, autopost_body.
    destruct (autopost_steps now resp tza schedule site s1) as [[o | e] s2] eqn:Esteps;
      simpl in Hkeep.
    + rewrite (bindM_Ok _ _ _ _ _ Esteps).
      eexists. split; [reflexivity|]. split; [|repeat split].
      cbn -[update_where]. rewrite Hkeep.
      by apply update_where_fresh.
    + rewrite (bindM_Throw _ _ _ _ _ Esteps).
      eexists. split; [reflexivity|]. split; [|repeat split].
      cbn -[update_where]. rewrite Hkeep.
      by apply update_where_fresh.
Qed.

(** C7 at an enabled schedule whose nested publish is refused by the
    renderer: the exception leaves the function and the run is [failed]. *)
Lemma C7_autopost_run_states_witness :
  exists s3,
    runAutopostSchedule wednesday_afternoon (FetchNotOk "boom") 0 2 store_two_schedules
    = (Throw "Renderer error: boom", s3)
    /\ map (fun r => (run_status r, run_logs r, createdPageId r)) (runs s3)
       = [(run_failed, Some "Renderer error: boom", None)].
Proof.
  pose proof (C7_autopost_run_states wednesday_afternoon (FetchNotOk "boom") 0 2
                store_two_schedules
                {| sched_id := 2; sched_siteId := 1; section := "blog";
                   cadenceType := weekly; cadenceJson := VObj [];
                   requireApproval := false; sched_isEnabled := true;
                   nextRunAt := 0; lastRunAt := None |}
                eq_refl (@List.Forall_nil _ _)) as [_ Hen].
  destruct (Hen eq_refl) as (_ & _ & Hsteps).
  vm_compute in Hsteps. destruct Hsteps as (s3 & Hrun & Hruns & _).
  exists s3. split; [exact Hrun|].
  change (map (fun r => (run_status r, run_logs r, createdPageId r)) (runs s3)
          = [(run_failed, Some "Renderer error: boom", None)]).
  replace (runs s3) with [run_mark_failed wednesday_afternoon "Renderer error: boom"
                            (running_run store_two_schedules
                               {| sched_id := 2; sched_siteId := 1; section := "blog";
                                  cadenceType := weekly; cadenceJson := VObj [];
                                  requireApproval := false; sched_isEnabled := true;
                                  nextRunAt := 0; lastRunAt := None |})]
    by (symmetry; exact Hruns).
  reflexivity.
Defined.

(** The three outcomes on the sample store: a run that succeeds and
    publishes, a run whose nested publish fails, a disabled schedule. *)
Example autopost_samples :
  (let r := runAutopostSchedule wednesday_afternoon (FetchOk "/srv/www/demo") 0 2
              store_two_schedules in
   fst r = Ok (VObj [("ok", VBool true); ("postRoute", VStr "/blog/blog-1704295800000");
                     ("published", VObj [("buildId", VNum 16);
                                         ("artifactPath", VStr "/srv/www/demo")])])
   /\ map (fun x => (run_status x, run_logs x, createdPageId x)) (runs (snd r))
      = [(run_success, None, Some 11%nat)]
   /\ map (fun x => (nextRunAt x, lastRunAt x)) (schedules (snd r))
      = [(1704708000000, Some wednesday_afternoon); (0, None)])
  /\ (let r := runAutopostSchedule wednesday_afternoon (FetchRejected "fetch failed") 0 2
                 store_two_schedules in
      fst r = Throw "fetch failed"
      /\ map (fun x => (run_status x, run_logs x)) (runs (snd r))
         = [(run_failed, Some "fetch failed")])
  /\ runAutopostSchedule wednesday_afternoon (FetchOk "/srv/www/demo") 0 3 store_two_schedules
     = (Ok (VObj [("ok", VBool false); ("message", VStr "Schedule disabled")]),
        store_two_schedules).
Proof. repeat split; vm_compute; reflexivity. Qed.

(** * Further properties *)

(** ** Theme compiler *)

(** Unless the input is a name inherited from [Object.prototype], the
    radius resolution yields the fallback or a CSS length (digits and a
    unit); a CSS length is returned as it is, the empty string and values
    that are not strings give the fallback. *)
Theorem radius_is_length_or_fallback (v : value) (fallbackPx : string) :
  match v with VStr s => is_prototype_key s = false | _ => True end ->
  (radiusTokenToPx v fallbackPx = VStr fallbackPx
   \/ exists len, radiusTokenToPx v fallbackPx = VStr len /\ css_length_re len = true)
  /\ (forall s, v = VStr s -> css_length_re s = true ->
        radiusTokenToPx v fallbackPx = VStr s)
  /\ (match v with VStr EmptyString => True | VStr _ => False | _ => True end ->
      radiusTokenToPx v fallbackPx = VStr fallbackPx).
Proof.
  intros Hkey. split; [|split].
  - destruct v as [| | | | s | | |]; try (left; reflexivity).
    unfold radiusTokenToPx.
    destruct (String.eqb s ""); [by left|].
    destruct (css_length_re s) eqn:Hre; [right; eauto|].
    unfold obj_get. rewrite Hkey.
    unfold radius_map. simpl.
    repeat (destruct (String.eqb s _);
            [right; eexists; split; [reflexivity|reflexivity]|]).
    by left.
  - intros s -> Hre. by apply radius_css_length.
  - destruct v as [| | | | s | | |]; try reflexivity.
    destruct s; [reflexivity|]. intros [].
Qed.

(** The radius resolution at the token [lg]. *)
Lemma radius_is_length_or_fallback_witness :
  (radiusTokenToPx (VStr "lg") "12px" = VStr "12px"
   \/ exists len, radiusTokenToPx (VStr "lg") "12px" = VStr len /\ css_length_re len = true).
Proof.
  destruct (radius_is_length_or_fallback (VStr "lg") "12px") as (H & _); [reflexivity|].
  exact H.
Defined.

(** ** Escaping *)

Lemma replace_all_char_app (c : ascii) (rep a b : string) :
  replace_all_char c rep (a ++ b) = replace_all_char c rep a ++ replace_all_char c rep b.
Proof.
  induction a as [|x a IH]; [reflexivity|].
  rewrite append_cons. simpl. rewrite IH.
  destruct (Ascii.eqb x c); [|reflexivity].
  by rewrite string_app_assoc.
Qed.

Lemma escapeHtml_app (a b : string) : escapeHtml (a ++ b) = escapeHtml a ++ escapeHtml b.
Proof. unfold escapeHtml. by rewrite !replace_all_char_app. Qed.

Lemma escapeHtml_char (c : ascii) : escapeHtml (String c EmptyString) = escape_char c.
Proof.
  unfold escapeHtml, escape_char. simpl.
  destruct (Ascii.eqb c "&") eqn:E1; [reflexivity|]. simpl.
  destruct (Ascii.eqb c "<") eqn:E2; [reflexivity|]. simpl.
  destruct (Ascii.eqb c ">") eqn:E3; [reflexivity|]. simpl.
  destruct (Ascii.eqb c dquote) eqn:E4; [reflexivity|]. simpl.
  destruct (Ascii.eqb c "'") eqn:E5; reflexivity.
Qed.

(** The five chained replacements amount to one pass that rewrites each
    character on its own. *)
Lemma escapeHtml_cons (c : ascii) (s : string) :
  escapeHtml (String c s) = escape_char c ++ escapeHtml s.
Proof.
  change (String c s) with (String c EmptyString ++ s).
  by rewrite escapeHtml_app, escapeHtml_char.
Qed.

Lemma occurs_app (c : ascii) (a b : string) : occurs c (a ++ b) = occurs c a || occurs c b.
Proof.
  induction a as [|x a IH]; [reflexivity|].
  rewrite append_cons. simpl. by rewrite IH, orb_assoc.
Qed.

Lemma escape_char_clean (c x : ascii) :
  is_html_special x = true -> x <> "&"%char -> occurs x (escape_char c) = false.
Proof.
  intros Hx Hamp. unfold is_html_special in Hx.
  assert (Ascii.eqb x "&" = false) as Ha by (by apply Ascii.eqb_neq).
  rewrite Ha in Hx. simpl in Hx.
  unfold escape_char.
  destruct (Ascii.eqb c "&") eqn:E1;
    [destruct (Ascii.eqb x "<") eqn:?, (Ascii.eqb x ">") eqn:?,
       (Ascii.eqb x dquote) eqn:?, (Ascii.eqb x "'") eqn:?;
     repeat match goal with H : Ascii.eqb x _ = true |- _ =>
              apply Ascii.eqb_eq in H; subst x end; try reflexivity; discriminate|].
  destruct (Ascii.eqb c "<") eqn:E2;
    [destruct (Ascii.eqb x "<") eqn:?, (Ascii.eqb x ">") eqn:?,
       (Ascii.eqb x dquote) eqn:?, (Ascii.eqb x "'") eqn:?;
     repeat match goal with H : Ascii.eqb x _ = true |- _ =>
              apply Ascii.eqb_eq in H; subst x end; try reflexivity; discriminate|].
  destruct (Ascii.eqb c ">") eqn:E3;
    [destruct (Ascii.eqb x "<") eqn:?, (Ascii.eqb x ">") eqn:?,
       (Ascii.eqb x dquote) eqn:?, (Ascii.eqb x "'") eqn:?;
     repeat match goal with H : Ascii.eqb x _ = true |- _ =>
              apply Ascii.eqb_eq in H; subst x end; try reflexivity; discriminate|].
  destruct (Ascii.eqb c dquote) eqn:E4;
    [destruct (Ascii.eqb x "<") eqn:?, (Ascii.eqb x ">") eqn:?,
       (Ascii.eqb x dquote) eqn:?, (Ascii.eqb x "'") eqn:?;
     repeat match goal with H : Ascii.eqb x _ = true |- _ =>
              apply Ascii.eqb_eq in H; subst x end; try reflexivity; discriminate|].
  destruct (Ascii.eqb c "'") eqn:E5;
    [destruct (Ascii.eqb x "<") eqn:?, (Ascii.eqb x ">") eqn:?,
       (Ascii.eqb x dquote) eqn:?, (Ascii.eqb x "'") eqn:?;
     repeat match goal with H : Ascii.eqb x _ = true |- _ =>
              apply Ascii.eqb_eq in H; subst x end; try reflexivity; discriminate|].
  simpl. rewrite orb_false_r.
  destruct (Ascii.eqb c x) eqn:Ecx; [|reflexivity].
  apply Ascii.eqb_eq in Ecx. subst c.
  rewrite E2, E3, E4, E5 in Hx. discriminate.
Qed.

(** Escaped text holds no [<], [>], double quote or apostrophe; text without
    the five special characters is left as it is. *)
Theorem escapeHtml_removes_markup (s : string) :
  (forall x, is_html_special x = true -> x <> "&"%char -> occurs x (escapeHtml s) = false)
  /\ (forallb_string (fun c => negb (is_html_special c)) s = true -> escapeHtml s = s).
Proof.
  split.
  - intros x Hx Hamp. induction s as [|c s IH]; [reflexivity|].
    rewrite escapeHtml_cons, occurs_app, IH, orb_false_r.
    by apply escape_char_clean.
  - induction s as [|c s IH]; [reflexivity|]. simpl.
    intros H. apply andb_true_iff in H as [Hc Hs].
    rewrite escapeHtml_cons, (IH Hs). unfold escape_char.
    unfold is_html_special in Hc. apply negb_true_iff in Hc.
    rewrite !orb_false_iff in Hc. destruct Hc as ((((-> & ->) & ->) & ->) & ->).
    reflexivity.
Qed.

(** Escaping distributes over concatenation and works character by
    character, so fragments escaped separately can be joined. *)
Theorem escapeHtml_concatenation (a b : string) :
  escapeHtml (a ++ b) = escapeHtml a ++ escapeHtml b
  /\ (forall c, escapeHtml (String c a) = escape_char c ++ escapeHtml a)
  /\ escapeHtml "" = "".
Proof.
  split; [apply escapeHtml_app|]. split; [intros c; apply escapeHtml_cons|reflexivity].
Qed.

(** ** Slot resolver *)

Lemma resolveSlotHref_is_string (href : string) (slotUrls : gmap string string) :
  exists s, resolveSlotHref href slotUrls = VStr s.
Proof.
  unfold resolveSlotHref.
  destruct (slot_ref_re href) as [name|] eqn:E; [|eauto].
  apply slot_ref_re_spec in E as (_ & _ & Hall).
  unfold slot_get. destruct (slotUrls !! name); [simpl; eauto|].
  rewrite (slot_name_not_inherited _ Hall). simpl. eauto.
Qed.

(** [resolveSlotHref] always returns a string: the href itself unless it is
    a reference [{{slot:NAME}}], where [NAME] is a non-empty run of the
    upper-case letters [A-Z], the digits, the underscore and the hyphen, for
    which it returns the URL of [NAME] in the table, or [#] when the table
    has none. *)
Theorem resolveSlotHref_returns_string (href : string) (slotUrls : gmap string string) :
  (exists s, resolveSlotHref href slotUrls = VStr s)
  /\ (forall name, href = "{{slot:" ++ name ++ "}}" -> name <> "" ->
        forallb_string is_slot_char name = true ->
        resolveSlotHref href slotUrls = VStr (default "#" (slotUrls !! name)))
  /\ ((forall name, name <> "" -> forallb_string is_slot_char name = true ->
                    href <> "{{slot:" ++ name ++ "}}") ->
      resolveSlotHref href slotUrls = VStr href).
Proof.
  split; [|split].
  - unfold resolveSlotHref.
    destruct (slot_ref_re href) as [name|] eqn:E; [|eauto].
    apply slot_ref_re_spec in E as (_ & _ & Hall).
    unfold slot_get. destruct (slotUrls !! name); [simpl; eauto|].
    rewrite (slot_name_not_inherited _ Hall). simpl. eauto.
  - intros name -> Hne Hall. by apply resolveSlotHref_reference.
  - apply resolveSlotHref_plain.
Qed.

Lemma slot_fold_value (links : list LinkAssignment) (p : string) (m : gmap string string) :
  is_prototype_key p = false ->
  fold_left slot_step links m !! p
  = match m !! p with
    | Some u => if String.eqb u "" then
                  match slot_value p links with Some v => Some v | None => Some "" end
                else Some u
    | None => slot_value p links
    end.
Proof.
  intros Hp. revert m. induction links as [|a links IH]; intros m.
  - simpl. unfold slot_value. simpl. destruct (m !! p) as [u|]; [|reflexivity].
    destruct (String.eqb u "") eqn:E; [|reflexivity].
    apply String.eqb_eq in E. by subst.
  - simpl. rewrite IH. unfold slot_step, slot_value. simpl.
    destruct (isEnabled a) eqn:Hen; simpl; [|reflexivity].
    destruct (String.eqb (placement a) p) eqn:Epl; simpl.
    + apply String.eqb_eq in Epl. subst p.
      unfold slot_get. destruct (m !! placement a) as [u|] eqn:Hm; simpl.
      * destruct (String.eqb u "") eqn:Eu; simpl.
        -- unfold slot_set.
           destruct (String.eqb (placement a) "__proto__") eqn:Epr.
           { apply String.eqb_eq in Epr. rewrite Epr in Hp. discriminate. }
           rewrite lookup_insert_eq.
           destruct (String.eqb (assignment_url a) "") eqn:Ea; simpl; [|reflexivity].
           destruct (List.find _ links); [reflexivity|].
           by destruct (existsb _ links).
        -- by rewrite Hm, Eu.
      * rewrite Hp. simpl. unfold slot_set.
        destruct (String.eqb (placement a) "__proto__") eqn:Epr.
        { apply String.eqb_eq in Epr. rewrite Epr in Hp. discriminate. }
        rewrite lookup_insert_eq.
        destruct (String.eqb (assignment_url a) "") eqn:Ea; simpl; [|reflexivity].
        destruct (List.find _ links); [reflexivity|].
        by destruct (existsb _ links).
    + assert (forall m', (if truthy (slot_get m (placement a)) then m
                          else slot_set m (placement a) (assignment_url a)) = m' ->
                         m' !! p = m !! p) as Hsame.
      { intros m' <-. destruct (truthy _); [reflexivity|].
        unfold slot_set. destruct (String.eqb (placement a) "__proto__"); [reflexivity|].
        apply String.eqb_neq in Epl. by rewrite lookup_insert_ne. }
      by rewrite (Hsame _ eq_refl).
Qed.

(** For a placement that is not an inherited name, the slot table holds the
    URL of the first enabled assignment whose URL is not empty; disabled
    assignments and later ones are ignored.  An empty URL is kept only when
    no enabled assignment of the placement has another. *)
Theorem slot_table_value (links : list LinkAssignment) (p : string) :
  is_prototype_key p = false ->
  buildSlotUrls links !! p = slot_value p links
  /\ ((forall a, a ∈ links -> isEnabled a = true -> assignment_url a <> "") ->
      buildSlotUrls links !! p = assignment_url <$> first_enabled p links)
  /\ (buildSlotUrls links !! p = None <->
      forall a, a ∈ links -> placement a = p -> isEnabled a = false).
Proof.
  intros Hp.
  assert (buildSlotUrls links !! p = slot_value p links) as Hval.
  { unfold buildSlotUrls. rewrite slot_fold_value by done. by rewrite lookup_empty. }
  split; [exact Hval|]. split; [by apply buildSlotUrls_first_enabled|].
  rewrite Hval. unfold slot_value. split.
  - destruct (List.find _ links); [discriminate|].
    destruct (existsb _ links) eqn:E; [discriminate|]. intros _ a Ha Hpl.
    destruct (isEnabled a) eqn:Hen; [|reflexivity].
    assert (existsb (fun a => isEnabled a && String.eqb (placement a) p) links = true) as Hex.
    { apply existsb_exists. exists a. split; [by apply list_elem_of_In|].
      rewrite Hen, Hpl. simpl. apply String.eqb_refl. }
    congruence.
  - intros Hall.
    destruct (List.find _ links) as [a|] eqn:Ef.
    + apply find_some in Ef as [Hin Ha].
      apply andb_true_iff in Ha as [Ha _]. apply andb_true_iff in Ha as [Hen Hpl].
      apply String.eqb_eq in Hpl. apply list_elem_of_In in Hin.
      rewrite (Hall a Hin Hpl) in Hen. discriminate.
    + destruct (existsb _ links) eqn:E; [|reflexivity].
      apply existsb_exists in E as (a & Hin & Ha).
      apply andb_true_iff in Ha as [Hen Hpl].
      apply String.eqb_eq in Hpl. apply list_elem_of_In in Hin.
      rewrite (Hall a Hin Hpl) in Hen. discriminate.
Qed.

(** The slot table for the sample assignments. *)
Lemma slot_table_value_witness :
  buildSlotUrls hero_links !! "HERO_CTA" = slot_value "HERO_CTA" hero_links
  /\ slot_value "HERO_CTA" hero_links = Some "https://a.example/".
Proof.
  destruct (slot_table_value hero_links "HERO_CTA") as (H & _); [reflexivity|].
  split; [exact H|reflexivity].
Defined.

(** ** Frames and triples for the store monad *)

Lemma keeps_ret {A T : Type} (proj : Store -> T) (a : A) : keeps proj (ret a).
Proof. intros s. reflexivity. Qed.

Lemma keeps_throw {A T : Type} (proj : Store -> T) (msg : string) : keeps proj (@throw A msg).
Proof. intros s. reflexivity. Qed.

Lemma keeps_get_store {T : Type} (proj : Store -> T) : keeps proj get_store.
Proof. intros s. reflexivity. Qed.

Lemma keeps_bind {A B T : Type} (proj : Store -> T) (m : M A) (k : A -> M B) :
  keeps proj m -> (forall a, keeps proj (k a)) -> keeps proj (bindM m k).
Proof.
  intros Hm Hk s. unfold bindM. specialize (Hm s).
  destruct (m s) as [[a | e] s1]; simpl in *; [|exact Hm].
  rewrite (Hk a s1). exact Hm.
Qed.

Lemma keeps_modify {T : Type} (proj : Store -> T) (f : Store -> Store) :
  (forall s, proj (f s) = proj s) -> keeps proj (modify f).
Proof. intros Hf s. apply Hf. Qed.

Lemma keeps_for_each {A T : Type} (proj : Store -> T) (l : list A) (body : A -> M unit) :
  (forall x, keeps proj (body x)) -> keeps proj (for_each l body).
Proof.
  intros Hb. induction l as [|x l IH]; simpl; [apply keeps_ret|].
  apply keeps_bind; [apply Hb|intros _; exact IH].
Qed.

Ltac keeps_step :=
  first
    [ apply keeps_ret
    | apply keeps_throw
    | apply keeps_get_store
    | apply keeps_modify; intros ?; reflexivity
    | apply keeps_for_each; intros ?
    | apply keeps_bind; [|intros ?]
    | match goal with
      | |- keeps _ (match ?x with _ => _ end) => destruct x
      | |- keeps _ (if ?b then _ else _) => destruct b
      end ].

Lemma hoare_ret {A : Type} (P : Store -> Prop) (a : A) (Q : A -> Store -> Prop)
    (R : string -> Store -> Prop) :
  (forall s, P s -> Q a s) -> hoare P (ret a) Q R.
Proof. intros H s Hs. simpl. by apply H. Qed.

Lemma hoare_throw {A : Type} (P : Store -> Prop) (msg : string) (Q : A -> Store -> Prop)
    (R : string -> Store -> Prop) :
  (forall s, P s -> R msg s) -> hoare P (throw msg) Q R.
Proof. intros H s Hs. simpl. by apply H. Qed.

Lemma hoare_bind {A B : Type} (P : Store -> Prop) (m : M A) (k : A -> M B)
    (Q1 : A -> Store -> Prop) (Q : B -> Store -> Prop) (R : string -> Store -> Prop) :
  hoare P m Q1 R -> (forall a, hoare (Q1 a) (k a) Q R) -> hoare P (bindM m k) Q R.
Proof.
  intros Hm Hk s Hs. unfold bindM. specialize (Hm s Hs).
  destruct (m s) as [[a | e] s1]; [|exact Hm]. by apply Hk.
Qed.

Lemma hoare_conseq {A : Type} (P P' : Store -> Prop) (m : M A)
    (Q Q' : A -> Store -> Prop) (R R' : string -> Store -> Prop) :
  hoare P' m Q' R' ->
  (forall s, P s -> P' s) -> (forall a s, Q' a s -> Q a s) ->
  (forall e s, R' e s -> R e s) ->
  hoare P m Q R.
Proof.
  intros H HP HQ HR s Hs. specialize (H s (HP s Hs)).
  destruct (m s) as [[a | e] s1]; auto.
Qed.

(** A computation that keeps a component keeps every fact about it. *)
Lemma hoare_keeps {A T : Type} (proj : Store -> T) (m : M A) (I : T -> Prop) :
  keeps proj m ->
  hoare (fun s => I (proj s)) m (fun _ s => I (proj s)) (fun _ s => I (proj s)).
Proof.
  intros Hk s Hs. specialize (Hk s).
  destruct (m s) as [[a | e] s1]; simpl in Hk; by rewrite Hk.
Qed.

Lemma update_where_last {A : Type} (id_of : A -> nat) (id : nat) (f : A -> A)
    (l : list A) (r : A) :
  Forall (fun x => id_of x <> id) l -> id_of r = id ->
  update_where id_of id f (l ++ [r]) = (l ++ [f r])%list.
Proof.
  intros Hl Hr. unfold update_where. rewrite map_app. simpl.
  rewrite Hr, Nat.eqb_refl. f_equal.
  induction Hl as [|x l Hx _ IH]; simpl; [reflexivity|].
  apply Nat.eqb_neq in Hx. by rewrite Hx, IH.
Qed.

(** ** Index page *)

Lemma find_app_none {A : Type} (f : A -> bool) (l1 l2 : list A) :
  find f l1 = None -> find f (l1 ++ l2) = find f l2.
Proof.
  induction l1 as [|x l1 IH]; simpl; [reflexivity|].
  destruct (f x); [discriminate|exact IH].
Qed.



(** ** Publish pipeline: outcomes *)

(** What a publish leaves behind, by the renderer's answer.  Without the
    site it throws and changes nothing.  Otherwise one build is appended:
    [published] with the artifact path, and the site becomes [published],
    when the renderer succeeds; [failed] with the renderer's text as log
    when it answers with an error; still [queued] when the call itself is
    rejected.  In the two failure cases the sites are left as they were. *)
Theorem publish_outcome (now : Z) (resp : FetchOutcome) (siteId : nat) (s : Store) :
  Forall (fun b => build_id b <> next_id s) (builds s) ->
  let r := internalPublishSite now resp siteId s in
  match find (fun x => Nat.eqb (site_id x) siteId) (sites s) with
  | None => r = (Throw "Site not found", s)
  | Some _ =>
      next_id (snd r) = S (next_id s)
      /\ match resp with
         | FetchOk path =>
             fst r = Ok {| buildId := next_id s; result_artifactPath := path |}
             /\ builds (snd r)
                = (builds s ++ [build_mark_published path now (queued_build siteId s)])%list
             /\ sites (snd r)
                = update_where site_id siteId (set_site_status site_published) (sites s)
         | FetchNotOk t =>
             fst r = Throw ("Renderer error: " ++ t)
             /\ builds (snd r) = (builds s ++ [build_mark_failed t (queued_build siteId s)])%list
             /\ sites (snd r) = sites s
         | FetchRejected msg =>
             fst r = Throw msg
             /\ builds (snd r) = (builds s ++ [queued_build siteId s])%list
             /\ sites (snd r) = sites s
         end
  end.
Proof.
  intros Hfresh r.
  assert (r = internalPublishSite now resp siteId s) as Hr by reflexivity.
  clearbody r.
  destruct (find (fun x => Nat.eqb (site_id x) siteId) (sites s)) as [site|] eqn:Hfind.
  - assert (site_id site = siteId) as Hid.
    { apply find_some in Hfind as [_ H]. by apply Nat.eqb_eq in H. }
    unfold internalPublishSite, bindM at 1, site_findUnique, bindM at 1, get_store, ret in Hr.
    rewrite Hfind in Hr. rewrite Hid in Hr.
    unfold bindM at 1 in Hr. unfold page_findMany_bySite, bindM at 1, get_store, ret in Hr.
    unfold bindM at 1 in Hr.
    destruct (publish_latest_versions_frame
                (List.filter (fun p => Nat.eqb (page_siteId p) siteId) (pages s)) s)
      as (s1 & Hrun & Hb & Hsi & Hn & _ & _).
    rewrite Hrun in Hr.
    unfold bindM at 1, build_findFirst_last, bindM at 1, get_store, ret in Hr.
    rewrite Hb in Hr. fold (next_build_number siteId s) in Hr.
    destruct resp as [msg | t | path];
      cbn -[update_where next_build_number String.append] in Hr;
      rewrite ?Hb, ?Hsi, ?Hn in Hr; fold (queued_build siteId s) in Hr;
      rewrite ?(update_where_last build_id (next_id s) _ (builds s) (queued_build siteId s))
        in Hr by (done || reflexivity);
      subst r; repeat split;
      unfold throw, set_sites, set_builds; cbn [snd builds];
      by apply update_where_last.
  - unfold internalPublishSite, bindM at 1, site_findUnique, bindM at 1, get_store, ret in Hr.
    by rewrite Hfind in Hr.
Qed.

(** A publish that the renderer refuses, on the store with three builds. *)
Lemma publish_outcome_witness :
  fst (internalPublishSite 0 (FetchNotOk "boom") 1 store_three_builds)
  = Throw "Renderer error: boom"
  /\ sites (snd (internalPublishSite 0 (FetchNotOk "boom") 1 store_three_builds))
     = sites store_three_builds.
Proof.
  pose proof (publish_outcome 0 (FetchNotOk "boom") 1 store_three_builds) as H.
  cbv zeta in H.
  assert (Forall (fun b => build_id b <> next_id store_three_builds)
            (builds store_three_builds)) as Hfresh
    by (repeat constructor; discriminate).
  specialize (H Hfresh).
  change (find (fun x => Nat.eqb (site_id x) 1) (sites store_three_builds))
    with (Some {| site_id := 1; site_status := site_published; site_theme := "Demo";
                  site_language := Some "en" |}) in H.
  destruct H as (_ & Hr & _ & Hs). split; [exact Hr|exact Hs].
Defined.

Lemma mark_published_twice (a b : list nat) (p : Page) :
  mark_published a (mark_published b p) = mark_published (b ++ a) p.
Proof.
  unfold mark_published. rewrite existsb_app.
  destruct (existsb (Nat.eqb (page_id p)) b) eqn:Eb; cbn [orb].
  - change (page_id (set_page_status page_published p)) with (page_id p).
    by destruct (existsb (Nat.eqb (page_id p)) a).
  - reflexivity.
Qed.

Lemma update_where_mark (id : nat) (ps : list Page) :
  update_where page_id id (set_page_status page_published) ps
  = map (mark_published [id]) ps.
Proof.
  unfold update_where, mark_published. apply map_ext. intros p. simpl.
  by rewrite orb_false_r.
Qed.

Lemma pages_with_version_promote (ids : list nat) (ps : list Page) (vs : list PageVersion) :
  pages_with_version ps (map (promote ids) vs) = pages_with_version ps vs.
Proof.
  unfold pages_with_version. induction ps as [|p ps IH]; simpl; [reflexivity|].
  rewrite IH, latest_version_promote.
  by destruct (latest_version (page_id p) vs).
Qed.

Lemma publish_latest_versions_pages (ps : list Page) (s : Store) :
  pages (snd (publish_latest_versions ps s))
  = map (mark_published (pages_with_version ps (versions s))) (pages s).
Proof.
  revert s. induction ps as [|p ps IH]; intros s.
  - simpl. rewrite <- (map_id (pages s)) at 1. apply map_ext. intros x. reflexivity.
  - unfold publish_latest_versions in *. simpl.
    unfold bindM at 1. unfold bindM at 1.
    unfold pageVersion_findFirst_latest at 1. unfold bindM at 1. simpl.
    fold (latest_version (page_id p) (versions s)).
    destruct (latest_version (page_id p) (versions s)) as [latest|]; simpl.
    + unfold bindM at 1. simpl. rewrite IH. simpl.
      rewrite update_where_promote, pages_with_version_promote.
      rewrite update_where_mark, map_map.
      apply map_ext. intros x. apply mark_published_twice.
    + apply IH.
Qed.

(** A publish of an existing site sets the status [published] on the pages
    of the site that have a version and changes no other field of any page;
    a page of the site without version keeps its status, as do the pages
    whose id is not that of such a page. *)
Theorem publish_page_status (now : Z) (resp : FetchOutcome) (siteId : nat)
    (s : Store) (site : Site) :
  find (fun x => Nat.eqb (site_id x) siteId) (sites s) = Some site ->
  let s' := snd (internalPublishSite now resp siteId s) in
  let ids := pages_with_version
               (List.filter (fun p => Nat.eqb (page_siteId p) siteId) (pages s))
               (versions s) in
  pages s' = map (mark_published ids) (pages s)
  /\ (forall p, In p (pages s) -> page_siteId p = siteId ->
        latest_version (page_id p) (versions s) <> None ->
        In (set_page_status page_published p) (pages s'))
  /\ (forall p, In p (pages s) -> ~ In (page_id p) ids -> In p (pages s'))
  /\ (forall p, In p (pages s) ->
        latest_version (page_id p) (versions s) = None -> In p (pages s')).
Proof.
  intros Hfind s' ids.
  assert (site_id site = siteId) as Hid.
  { apply find_some in Hfind as [_ H]. by apply Nat.eqb_eq in H. }
  assert (pages s' = map (mark_published ids) (pages s)) as Hpages.
  { unfold s', internalPublishSite, bindM at 1, site_findUnique, bindM at 1, get_store, ret.
    rewrite Hfind. rewrite Hid.
    unfold bindM at 1. unfold page_findMany_bySite, bindM at 1, get_store, ret.
    unfold bindM at 1.
    pose proof (publish_latest_versions_pages
                  (List.filter (fun p => Nat.eqb (page_siteId p) siteId) (pages s)) s) as Hp.
    destruct (publish_latest_versions_frame
                (List.filter (fun p => Nat.eqb (page_siteId p) siteId) (pages s)) s)
      as (s1 & Hrun & _).
    rewrite Hrun in Hp |- *. simpl in Hp. fold ids in Hp.
    destruct resp as [msg | t | path];
      cbn -[update_where mark_published]; exact Hp. }
  assert (forall p, In p (pages s) -> ~ In (page_id p) ids -> In p (pages s')) as Hkeep.
  { intros p Hp Hnot. rewrite Hpages. apply in_map_iff. exists p. split; [|exact Hp].
    unfold mark_published.
    destruct (existsb (Nat.eqb (page_id p)) ids) eqn:E; [|reflexivity].
    apply existsb_exists in E as (x & Hx & Hxe). apply Nat.eqb_eq in Hxe. by subst x. }
  split; [exact Hpages|]. split; [|split; [exact Hkeep|]].
  - intros p Hp Hsite Hlatest. rewrite Hpages. apply in_map_iff.
    exists p. split; [|exact Hp]. unfold mark_published.
    assert (existsb (Nat.eqb (page_id p)) ids = true) as ->; [|reflexivity].
    apply existsb_exists. exists (page_id p). split; [|apply Nat.eqb_refl].
    unfold ids, pages_with_version. apply in_flat_map. exists p. split.
    + apply filter_In. split; [exact Hp|]. by apply Nat.eqb_eq.
    + destruct (latest_version (page_id p) (versions s)); [by left|congruence].
  - intros p Hp Hnone. apply Hkeep; [exact Hp|].
    unfold ids, pages_with_version. intros Hin.
    apply in_flat_map in Hin as (p' & _ & Hin).
    destruct (latest_version (page_id p') (versions s)) eqn:E; [|destruct Hin].
    destruct Hin as [Heq | []]. rewrite Heq in E. congruence.
Qed.

(** Page statuses after the publish that follows the second autopost run. *)
Lemma publish_page_status_witness :
  let s := store_before_second_publish in
  let s' := snd (internalPublishSite 0 (FetchOk "/srv/www/demo") 1 s) in
  pages s'
  = map (mark_published
           (pages_with_version
              (List.filter (fun p => Nat.eqb (page_siteId p) 1) (pages s)) (versions s)))
      (pages s).
Proof.
  destruct (publish_page_status 0 (FetchOk "/srv/www/demo") 1 store_before_second_publish
              {| site_id := 1; site_status := site_published; site_theme := "Demo";
                 site_language := Some "en" |}) as (H & _).
  - vm_compute. reflexivity.
  - exact H.
Defined.

(** ** Autopost: the schedule after a run *)

Lemma hoare_bind_keeps {A B T : Type} (proj : Store -> T) (I : T -> Prop) (m : M A)
    (k : A -> M B) (Q : B -> Store -> Prop) (R : string -> Store -> Prop) :
  keeps proj m ->
  (forall a, hoare (fun s => I (proj s)) (k a) Q R) ->
  (forall e s, I (proj s) -> R e s) ->
  hoare (fun s => I (proj s)) (bindM m k) Q R.
Proof.
  intros Hk Hrest HR. eapply hoare_bind.
  - eapply hoare_conseq; [apply (hoare_keeps proj m I Hk)|auto|intros a s H; exact H|].
    intros e s H. simpl in H. by apply HR.
  - intros a. apply Hrest.
Qed.

Lemma hoare_try_catch {A : Type} (P : Store -> Prop) (m : M A) (h : string -> M A)
    (Q : A -> Store -> Prop) (R1 R : string -> Store -> Prop) :
  hoare P m Q R1 -> (forall e, hoare (R1 e) (h e) Q R) -> hoare P (try_catch m h) Q R.
Proof.
  intros Hm Hh s Hs. unfold try_catch. specialize (Hm s Hs).
  destruct (m s) as [[a | e] s1]; [exact Hm|]. by apply Hh.
Qed.

Lemma keeps_schedules_internalPublishSite (now : Z) (resp : FetchOutcome) (siteId : nat) :
  keeps schedules (internalPublishSite now resp siteId).
Proof.
  unfold internalPublishSite, site_findUnique, page_findMany_bySite,
    publish_latest_versions, pageVersion_findFirst_latest,
    pageVersion_update_isPublished, page_update_status, build_findFirst_last,
    build_create, build_update, site_update_status, fresh_id.
  repeat first [ apply keeps_modify; intros ?; reflexivity
               | (intros s; reflexivity) | keeps_step ].
Qed.

Lemma keeps_schedules_page_create (now : Z) (siteId : nat) (route pageType : string)
    (slug : option string) :
  keeps schedules (page_create now siteId route pageType slug).
Proof.
  unfold page_create, site_findUnique, page_findUnique_siteId_route, fresh_id.
  repeat first [ (intros s; reflexivity) | keeps_step ].
Qed.

Lemma keeps_schedules_pageVersion_create (pageId : nat) (n : Z) (b : bool)
    (c seo sch : value) :
  keeps schedules (pageVersion_create pageId n b c seo sch).
Proof.
  unfold pageVersion_create, fresh_id.
  repeat first [ (intros s; reflexivity) | keeps_step ].
Qed.

Lemma keeps_schedules_ensureIndexPage (now : Z) (siteId : nat)
    (route pageType title : string) :
  keeps schedules (ensureIndexPage now siteId route pageType title).
Proof.
  unfold ensureIndexPage, page_findUnique_siteId_route.
  repeat first [ apply keeps_schedules_page_create
               | apply keeps_schedules_pageVersion_create | keeps_step ].
Qed.

Lemma keeps_schedules_run_create (scheduleId : nat) : keeps schedules (run_create scheduleId).
Proof.
  unfold run_create, fresh_id. repeat first [ (intros s; reflexivity) | keeps_step ].
Qed.

Lemma keeps_schedules_run_update (id : nat) (f : AutopostRun -> AutopostRun) :
  keeps schedules (run_update id f).
Proof. unfold run_update. keeps_step. Qed.

(** The steps of the [try] block and the schedule table. *)
Lemma autopost_steps_schedules (now : Z) (resp : FetchOutcome) (tza : Z)
    (schedule : AutopostSchedule) (site : option Site) (S0 : list AutopostSchedule) :
  hoare (fun s => schedules s = S0)
    (autopost_steps now resp tza schedule site)
    (fun _ s =>
       exists next,
         computeNextRunAt tza now (cadenceType schedule) (cadenceJson schedule) = Some next
         /\ schedules s
            = update_where sched_id (sched_id schedule) (set_schedule_run now next) S0)
    (fun _ s =>
       schedules s = S0
       \/ (requireApproval schedule = false
           /\ exists next,
                computeNextRunAt tza now (cadenceType schedule) (cadenceJson schedule)
                = Some next
                /\ schedules s
                   = update_where sched_id (sched_id schedule) (set_schedule_run now next) S0)).
Proof.
  unfold autopost_steps. cbv zeta.
  apply (hoare_bind_keeps schedules (fun x => x = S0));
    [apply keeps_schedules_page_create| |intros; by left].
  intros postPage. destruct site as [site|]; [|apply hoare_throw; intros; by left].
  apply (hoare_bind_keeps schedules (fun x => x = S0));
    [apply keeps_schedules_pageVersion_create| |intros; by left].
  intros _.
  apply (hoare_bind_keeps schedules (fun x => x = S0));
    [apply keeps_schedules_ensureIndexPage| |intros; by left].
  intros indexPageId.
  apply (hoare_bind_keeps schedules (fun x => x = S0));
    [unfold pageVersion_findFirst_latest; repeat keeps_step| |intros; by left].
  intros indexLatest.
  apply (hoare_bind_keeps schedules (fun x => x = S0));
    [unfold page_findMany_posts; repeat keeps_step| |intros; by left].
  intros allPosts.
  apply (hoare_bind_keeps schedules (fun x => x = S0));
    [apply keeps_schedules_pageVersion_create| |intros; by left].
  intros _.
  destruct (computeNextRunAt tza now (cadenceType schedule) (cadenceJson schedule))
    as [next|] eqn:Enext.
  - eapply hoare_bind with
      (Q1 := fun _ s => schedules s
                        = update_where sched_id (sched_id schedule)
                            (set_schedule_run now next) S0).
    + intros s Hs. simpl. by rewrite Hs.
    + intros _.
      destruct (requireApproval schedule) eqn:Happ; simpl.
      * eapply hoare_bind with
          (Q1 := fun _ s => schedules s
                            = update_where sched_id (sched_id schedule)
                                (set_schedule_run now next) S0).
        -- apply hoare_ret. auto.
        -- intros published. apply hoare_ret. eauto.
      * eapply hoare_bind with
          (Q1 := fun _ s => schedules s
                            = update_where sched_id (sched_id schedule)
                                (set_schedule_run now next) S0).
        -- apply (hoare_bind_keeps schedules
                    (fun x => x = update_where sched_id (sched_id schedule)
                                    (set_schedule_run now next) S0));
             [apply keeps_schedules_internalPublishSite
             |intros r; apply hoare_ret; auto
             |intros e s Hs; right; eauto].
        -- intros published. apply hoare_ret. eauto.
  - eapply hoare_bind with (Q1 := fun _ _ => False).
    + apply hoare_throw. intros; by left.
    + intros _ s [].
Qed.

(** After a run of an enabled schedule that returns, the schedule row has
    [lastRunAt] set to the time of the run and [nextRunAt] recomputed by the
    cadence calculator.  After a run that throws, the schedule table is
    either untouched (the failure came before the cadence update) or updated
    in the same way (the failure came from the nested publish, which runs
    only when no approval is required). *)
Theorem autopost_advances_schedule (now : Z) (resp : FetchOutcome) (tza : Z)
    (scheduleId : nat) (s : Store) (schedule : AutopostSchedule) :
  find (fun x => Nat.eqb (sched_id x) scheduleId) (schedules s) = Some schedule ->
  sched_isEnabled schedule = true ->
  let advanced next :=
    update_where sched_id scheduleId (set_schedule_run now next) (schedules s) in
  match runAutopostSchedule now resp tza scheduleId s with
  | (Ok _, s') =>
      exists next,
        computeNextRunAt tza now (cadenceType schedule) (cadenceJson schedule) = Some next
        /\ schedules s' = advanced next
  | (Throw _, s') =>
      schedules s' = schedules s
      \/ (requireApproval schedule = false
          /\ exists next,
               computeNextRunAt tza now (cadenceType schedule) (cadenceJson schedule)
               = Some next
               /\ schedules s' = advanced next)
  end.
Proof.
  intros Hfind Hen advanced.
  assert (sched_id schedule = scheduleId) as Hid.
  { apply find_some in Hfind as [_ H]. by apply Nat.eqb_eq in H. }
  assert (runAutopostSchedule now resp tza scheduleId s
          = bindM (run_create (sched_id schedule))
              (fun run =>
                 try_catch
                   (autopost_body now resp tza schedule
                      (find (fun x => Nat.eqb (site_id x) (sched_siteId schedule)) (sites s))
                      run)
                   (fun e => bindM (run_update (run_id run) (run_mark_failed now e))
                               (fun _ => throw e))) s) as ->.
  { unfold runAutopostSchedule, bindM at 1, schedule_findUnique,
      bindM at 1, get_store, ret.
    rewrite Hfind. unfold bindM at 1, site_findUnique, bindM at 1, get_store, ret.
    rewrite Hen. reflexivity. }
  unfold advanced. rewrite <- Hid.
  apply (hoare_bind_keeps schedules (fun x => x = schedules s) (run_create (sched_id schedule))
           _ _ _ (keeps_schedules_run_create _)); [|intros; by left|reflexivity].
  intros run.
  eapply hoare_try_catch.
  - unfold autopost_body. eapply hoare_bind.
    + apply autopost_steps_schedules.
    + intros o. simpl.
      set (S1 := fun x => exists next,
                   computeNextRunAt tza now (cadenceType schedule) (cadenceJson schedule)
                   = Some next
                   /\ x = update_where sched_id (sched_id schedule)
                            (set_schedule_run now next) (schedules s)).
      eapply hoare_bind with (Q1 := fun _ s' => S1 (schedules s')).
      * intros s' H. exact H.
      * intros _. apply hoare_ret. intros s' H. exact H.
  - intros e. simpl.
    set (I := fun x => x = schedules s
                \/ (requireApproval schedule = false
                    /\ exists next,
                         computeNextRunAt tza now (cadenceType schedule) (cadenceJson schedule)
                         = Some next
                         /\ x = update_where sched_id (sched_id schedule)
                                  (set_schedule_run now next) (schedules s))).
    apply (hoare_bind_keeps schedules I); [apply keeps_schedules_run_update| |].
    + intros _. apply hoare_throw. intros s' H. exact H.
    + intros e' s' H. exact H.
Qed.

(** The schedule after a weekly run whose nested publish is refused. *)
Lemma autopost_advances_schedule_witness :
  let schedule :=
    {| sched_id := 2; sched_siteId := 1; section := "blog";
       cadenceType := weekly; cadenceJson := VObj [];
       requireApproval := false; sched_isEnabled := true;
       nextRunAt := 0; lastRunAt := None |} in
  let advanced next :=
    update_where sched_id 2 (set_schedule_run wednesday_afternoon next)
      (schedules store_two_schedules) in
  match runAutopostSchedule wednesday_afternoon (FetchNotOk "boom") 0 2 store_two_schedules with
  | (Ok _, s') =>
      exists next,
        computeNextRunAt 0 wednesday_afternoon (cadenceType schedule) (cadenceJson schedule)
        = Some next
        /\ schedules s' = advanced next
  | (Throw _, s') =>
      schedules s' = schedules store_two_schedules
      \/ (requireApproval schedule = false
          /\ exists next,
               computeNextRunAt 0 wednesday_afternoon (cadenceType schedule)
                 (cadenceJson schedule) = Some next
               /\ schedules s' = advanced next)
  end.
Proof.
  exact (autopost_advances_schedule wednesday_afternoon (FetchNotOk "boom") 0 2
           store_two_schedules
           {| sched_id := 2; sched_siteId := 1; section := "blog";
              cadenceType := weekly; cadenceJson := VObj [];
              requireApproval := false; sched_isEnabled := true;
              nextRunAt := 0; lastRunAt := None |} eq_refl eq_refl).
Defined.

(** ** Generated content and the renderer *)

Lemma render_hero_generated (h1 subheading label href : string)
    (slotUrls : gmap string string) :
  exists out, render_hero (hero_block h1 subheading label href) slotUrls = Ok out.
Proof.
  unfold render_hero, hero_block.
  destruct (resolveSlotHref_is_string href slotUrls) as (target & Ht).
  cbn -[String.append attr escapeHtml render_cta resolveSlotHref nl].
  unfold cta_href. cbn -[String.append attr escapeHtml render_cta resolveSlotHref nl].
  rewrite Ht. unfold render_cta at 1.
  cbn -[String.append attr escapeHtml resolveSlotHref nl].
  destruct (negb (String.eqb target "")); cbn -[String.append attr escapeHtml nl]; eauto.
Qed.

Lemma render_footer_generated (slotUrls : gmap string string) :
  render_footer_links footer_links_block slotUrls
  = Ok [ container_card
           ("<h3>Resources</h3><ul>"
            ++ ("<li><a " ++ attr "href" (escapeHtml (default "#" (slotUrls !! "FOOTER")))
                ++ ">Primary</a></li>")
            ++ "</ul>") ].
Proof.
  unfold render_footer_links, footer_links_block.
  cbn -[String.append attr escapeHtml resolveSlotHref container_card].
  rewrite (resolveSlotHref_reference "FOOTER") by (done || reflexivity).
  cbn -[String.append attr escapeHtml container_card]. reflexivity.
Qed.

(** The blocks that an autopost run stores for a post or for the index
    page (hero, content, footer links) render without exception, whatever
    their texts and whatever the slot table: the output has the hero, the
    content HTML as it is, the footer link resolved through the slot
    [FOOTER] (or [#]), and the credit. *)
Theorem generated_blocks_render (h1 subheading label href html : string)
    (slotUrls : gmap string string) :
  exists hero,
    render_parts [ hero_block h1 subheading label href; content_block html;
                   footer_links_block ] slotUrls
    = Ok [ hero;
           container_card html;
           container_card
             ("<h3>Resources</h3><ul>"
              ++ ("<li><a " ++ attr "href" (escapeHtml (default "#" (slotUrls !! "FOOTER")))
                  ++ ">Primary</a></li>")
              ++ "</ul>");
           generator_credit ].
Proof.
  destruct (render_hero_generated h1 subheading label href slotUrls) as (hero & Hh).
  exists hero. unfold render_parts, block_section.
  cbn -[String.append attr render_hero render_content render_footer_links
        hero_block content_block footer_links_block generator_credit container_card
        block_pred].
  unfold block_pred, hero_block, content_block, footer_links_block.
  cbn -[String.append attr render_hero render_content render_footer_links
        generator_credit container_card].
  fold (hero_block h1 subheading label href). rewrite Hh.
  fold footer_links_block. rewrite render_footer_generated.
  reflexivity.
Qed.

(** ** Cadence calculator: any parameters *)

(** For [weekly] and integer parameters, in or out of their documented
    ranges: on a server whose local time is at a fixed offset from UTC, when
    [hour] and [minute] are at most 1000000000 in absolute value and the date
    stays in the range of dates after the change of the day and after the
    change of the time, the next run is [hour] hours and [minute] minutes
    after the local midnight that starts the target day (an hour of 25 lands
    on the day after). *)
Theorem weekly_any_parameters (tza now : Z) (cadenceJson : value) (dow hour minute : Z) :
  cadence_param cadenceJson "dow" 1 = Some dow ->
  cadence_param cadenceJson "hour" 10 = Some hour ->
  cadence_param cadenceJson "minute" 0 = Some minute ->
  Z.abs hour <= 1000000000 -> Z.abs minute <= 1000000000 ->
  time_value now ->
  time_value (now + weekly_days_ahead (LocalTime tza now) dow * msPerDay) ->
  time_value (weekly_run tza now dow hour minute) ->
  computeNextRunAt tza now weekly cadenceJson = Some (weekly_run tza now dow hour minute)
  /\ LocalTime tza (weekly_run tza now dow hour minute)
     = (Day (LocalTime tza now) + weekly_days_ahead (LocalTime tza now) dow) * msPerDay
       + hour * msPerHour + minute * msPerMinute.
Proof.
  intros Hd Hh Hm _ _ _ _ _.
  destruct (weekly_local_result tza now cadenceJson dow hour minute Hd Hh Hm)
    as (r & Hr & Hlr).
  assert (r = weekly_run tza now dow hour minute) as <-.
  { unfold weekly_run, weekly_days_ahead. rewrite <- Hlr. unfold LocalTime. lia. }
  split; [exact Hr|]. exact Hlr.
Qed.

(** On the sample Wednesday, an hour of 25 for Mondays: Tuesday 2024-01-09
    at 01:00. *)
Lemma weekly_any_parameters_witness :
  computeNextRunAt 0 wednesday_afternoon weekly (VObj [("dow", VNum 1); ("hour", VNum 25)])
  = Some 1704762000000
  /\ LocalTime 0 1704762000000 = (19725 + 5) * msPerDay + 25 * msPerHour + 0 * msPerMinute.
Proof.
  change (computeNextRunAt 0 wednesday_afternoon weekly
            (VObj [("dow", VNum 1); ("hour", VNum 25)])
          = Some (weekly_run 0 wednesday_afternoon 1 25 0)
          /\ LocalTime 0 (weekly_run 0 wednesday_afternoon 1 25 0)
             = (Day (LocalTime 0 wednesday_afternoon)
                + weekly_days_ahead (LocalTime 0 wednesday_afternoon) 1) * msPerDay
               + 25 * msPerHour + 0 * msPerMinute).
  apply (weekly_any_parameters 0 wednesday_afternoon
           (VObj [("dow", VNum 1); ("hour", VNum 25)]) 1 25 0);
    solve [reflexivity | vm_compute; discriminate | vm_compute; split; discriminate].
Defined.

(** An hour of 25 on the sample Wednesday: Monday next week at ten becomes
    Tuesday at one; a parameter that is not a number gives no date. *)
Example weekly_out_of_range_samples :
  computeNextRunAt 0 wednesday_afternoon weekly (VObj [("hour", VNum 25)])
  = Some (1704708000000 + 15 * msPerHour)
  /\ computeNextRunAt 0 wednesday_afternoon weekly (VObj [("dow", VStr "monday")]) = None
  /\ computeNextRunAt 0 wednesday_afternoon every_n_days (VObj [("n", VNum (-3))])
     = Some (wednesday_afternoon + msPerDay).
Proof. repeat split; vm_compute; reflexivity. Qed.

(** ** The two guards of the admin token *)

(** The renderer's [requireAdmin] accepts exactly a header equal to the
    token, or a header list whose first element is the token.  The guard of
    the API accepts the same headers as long as the token is not empty (the
    environment schema asks for 16 characters); for an empty token the two
    differ on the empty header. *)
Theorem admin_guards_agree (ADMIN_TOKEN : string) (header : value) :
  ADMIN_TOKEN <> "" ->
  SiteRender.requireAdmin ADMIN_TOKEN header = Auth.requireAdmin ADMIN_TOKEN header
  /\ (Auth.requireAdmin ADMIN_TOKEN header = true <->
      header = VStr ADMIN_TOKEN \/ exists l, header = VArr (VStr ADMIN_TOKEN :: l)).
Proof.
  intros Hne. unfold SiteRender.requireAdmin, Auth.requireAdmin. split.
  - destruct header as [| | b | n | s | l | f | k]; simpl;
      rewrite ?orb_true_r; try reflexivity.
    + destruct (String.eqb_spec s ADMIN_TOKEN) as [-> | Hs]; simpl.
      * destruct (String.eqb_spec ADMIN_TOKEN "") as [E | _]; [contradiction | reflexivity].
      * destruct (negb (s =? "")%string); reflexivity.
    + destruct (strict_eq_str (nth 0 l VUndef) ADMIN_TOKEN); reflexivity.
  - split.
    + destruct header as [| | b | n | s | l | f | k]; simpl;
        try (destruct b); try (destruct (negb (n =? 0))); try discriminate.
      * destruct (String.eqb_spec s ADMIN_TOKEN) as [-> | Hs].
        -- intros _. left. reflexivity.
        -- destruct (negb (s =? "")%string); discriminate.
      * destruct l as [| x l]; simpl; [discriminate |].
        destruct x as [| | b | n | s | l' | f | k]; simpl; try discriminate.
        destruct (String.eqb_spec s ADMIN_TOKEN) as [-> | Hs]; [| discriminate].
        intros _. right. exists l. reflexivity.
    + intros [-> | [l ->]]; simpl; rewrite String.eqb_refl; simpl.
      * destruct (String.eqb_spec ADMIN_TOKEN "") as [E | _]; [contradiction | reflexivity].
      * reflexivity.
Qed.

Lemma admin_guards_agree_witness :
  SiteRender.requireAdmin "0123456789abcdef" (VArr [VStr "0123456789abcdef"; VStr "x"])
  = Auth.requireAdmin "0123456789abcdef" (VArr [VStr "0123456789abcdef"; VStr "x"])
  /\ (Auth.requireAdmin "0123456789abcdef" (VArr [VStr "0123456789abcdef"; VStr "x"]) = true <->
      VArr [VStr "0123456789abcdef"; VStr "x"] = VStr "0123456789abcdef"
      \/ exists l, VArr [VStr "0123456789abcdef"; VStr "x"] = VArr (VStr "0123456789abcdef" :: l)).
Proof.
  apply (admin_guards_agree "0123456789abcdef" (VArr [VStr "0123456789abcdef"; VStr "x"])).
  discriminate.
Defined.

(** With an empty token the guards differ: the renderer accepts the empty
    header, the API refuses it. *)
Example empty_token_guards_differ :
  SiteRender.requireAdmin "" (VStr "") = true /\ Auth.requireAdmin "" (VStr "") = false.
Proof. split; reflexivity. Qed.

(** ** The version of a page that is rendered *)

Lemma insert_version_desc_head (v : SiteVersion) (l : list SiteVersion) :
  exists w r, insert_version_desc v l = w :: r.
Proof.
  destruct l as [| x l]; simpl; [eauto |].
  destruct (sv_versionNumber v <? sv_versionNumber x); eauto.
Qed.

(** The head of the sorted list is the first version, in the stored order,
    that carries the highest number. *)
Lemma sort_versions_desc_head (vs : list SiteVersion) :
  match head (sort_versions_desc vs) with
  | None => vs = []
  | Some v =>
      exists l1 l2, vs = (l1 ++ v :: l2)%list
        /\ Forall (fun x => sv_versionNumber x < sv_versionNumber v) l1
        /\ Forall (fun x => sv_versionNumber x <= sv_versionNumber v) l2
  end.
Proof.
  induction vs as [| a vs IH]; simpl; [reflexivity |].
  destruct (sort_versions_desc vs) as [| x r] eqn:E; simpl in *.
  - subst vs. exists [], []. repeat split; constructor.
  - destruct IH as (l1 & l2 & -> & H1 & H2).
    destruct (Z.ltb_spec (sv_versionNumber a) (sv_versionNumber x)) as [Hlt | Hge]; simpl.
    + exists (a :: l1), l2. repeat split; [constructor; assumption | assumption].
    + exists [], (l1 ++ x :: l2)%list. repeat split; [constructor |].
      apply Forall_app. split.
      * eapply Forall_impl; [exact H1 |]. simpl. intros; lia.
      * constructor; [lia |]. eapply Forall_impl; [exact H2 |]. simpl. intros; lia.
Qed.

Lemma find_first {A : Type} (f : A -> bool) (l : list A) :
  match List.find f l with
  | Some v => exists l1 l2, l = (l1 ++ v :: l2)%list /\ f v = true
                            /\ Forall (fun x => f x = false) l1
  | None => Forall (fun x => f x = false) l
  end.
Proof.
  induction l as [| a l IH]; simpl; [constructor |].
  destruct (f a) eqn:Ha.
  - exists [], l. repeat split; [assumption | constructor].
  - destruct (List.find f l) as [v |].
    + destruct IH as (l1 & l2 & -> & Hv & H1).
      exists (a :: l1), l2. repeat split; [assumption | constructor; assumption].
    + constructor; assumption.
Qed.

Lemma authoritative_version_none (vs : list SiteVersion) :
  authoritative_version vs = None <-> vs = [].
Proof.
  split.
  - unfold authoritative_version. intros H.
    destruct (List.find sv_isPublished vs); [discriminate |].
    pose proof (sort_versions_desc_head vs) as Hs. rewrite H in Hs. exact Hs.
  - intros ->. reflexivity.
Qed.

(** The version that the renderer takes for a page.  No version is taken
    only for a page without versions.  A published version wins whatever its
    number, and of several published ones the first in the stored order.
    Without a published version it is the one of the highest number, the
    first such in the stored order. *)
Theorem authoritative_version_choice (vs : list SiteVersion) :
  match authoritative_version vs with
  | None => vs = []
  | Some v =>
      exists l1 l2, vs = (l1 ++ v :: l2)%list
        /\ Forall unpublished l1
        /\ (unpublished v ->
            Forall unpublished l2
            /\ Forall (fun x => sv_versionNumber x < sv_versionNumber v) l1
            /\ Forall (fun x => sv_versionNumber x <= sv_versionNumber v) l2)
  end.
Proof.
  unfold authoritative_version.
  pose proof (find_first sv_isPublished vs) as Hf.
  destruct (List.find sv_isPublished vs) as [v |].
  - destruct Hf as (l1 & l2 & -> & Hv & H1).
    exists l1, l2. repeat split; try assumption;
      unfold unpublished in *; congruence.
  - pose proof (sort_versions_desc_head vs) as Hs.
    destruct (head (sort_versions_desc vs)) as [v |]; [| assumption].
    destruct Hs as (l1 & l2 & -> & H1 & H2).
    apply Forall_app in Hf as [Hf1 Hf2].
    exists l1, l2. repeat split; try assumption.
    inversion Hf2; assumption.
Qed.

(** ** The site handler of the renderer *)

Lemma written_paths_app (l1 l2 : list Effect) :
  written_paths (l1 ++ l2) = (written_paths l1 ++ written_paths l2)%list.
Proof.
  induction l1 as [| e l1 IH]; simpl; [reflexivity |].
  destruct e; simpl; rewrite IH; reflexivity.
Qed.

Lemma build_ready_effects_app (l1 l2 : list Effect) :
  build_ready_effects (l1 ++ l2) = (build_ready_effects l1 ++ build_ready_effects l2)%list.
Proof. unfold build_ready_effects. apply List.filter_app. Qed.

Lemma has_version_authoritative (p : SitePage) :
  has_version p = false <-> authoritative_version (sp_versions p) = None.
Proof.
  rewrite authoritative_version_none. unfold has_version.
  destruct (sp_versions p); split; intros H; congruence.
Qed.

(** A call that is carried out is entered at the end of the log; a call
    that rejects leaves the log. *)
Lemma perform_outcome (io_error : list Effect -> Effect -> option string)
    (call : Effect) (log : list Effect) :
  match perform io_error call log with
  | (Ok _, l) => l = (log ++ [call])%list /\ io_error log call = None
  | (Throw e, l) => l = log /\ io_error log call = Some e
  end.
Proof. unfold perform. destruct (io_error log call); auto. Qed.

(** The loop over the pages: it ends with a route and a file for each page
    that has a version, in the order of the pages; or it stops at a page
    that has a version, the files of the pages before it written.  When no
    call is refused, it stops only at a page whose HTML cannot be
    produced. *)
Lemma render_pages_outcome (io_error : list Effect -> Effect -> option string)
    (ctx : PageContext) (ps : list SitePage) :
  forall routes log,
  match render_pages io_error ctx ps routes log with
  | (Ok r, l) =>
      r = (routes ++ map page_route_entry (rendered_pages ps))%list
      /\ written_paths l
         = (written_paths log ++ map (page_path (ctx_outDir ctx)) (rendered_pages ps))%list
      /\ build_ready_effects l = build_ready_effects log
  | (Throw e, l) =>
      exists ps1 p ps2 v,
        ps = (ps1 ++ p :: ps2)%list
        /\ authoritative_version (sp_versions p) = Some v
        /\ written_paths l
           = (written_paths log ++ map (page_path (ctx_outDir ctx)) (rendered_pages ps1))%list
        /\ build_ready_effects l = build_ready_effects log
        /\ ((forall l0 c, io_error l0 c = None) -> page_html ctx v = Throw e)
  end.
Proof.
  induction ps as [| p ps IH]; intros routes log; simpl.
  - rewrite !app_nil_r. auto.
  - destruct (authoritative_version (sp_versions p)) as [v |] eqn:Hv.
    + assert (has_version p = true) as Hp.
      { destruct (has_version p) eqn:E; [reflexivity |].
        apply has_version_authoritative in E. congruence. }
      pose proof (perform_outcome io_error
                    (Mkdir (page_dir (ctx_outDir ctx) (sp_route p))) log) as Hmk.
      destruct (perform io_error (Mkdir (page_dir (ctx_outDir ctx) (sp_route p))) log)
        as [[[] | e] log1]; destruct Hmk as [-> Hio1].
      2:{ exists [], p, ps, v. simpl. rewrite !app_nil_r.
          repeat split; try assumption. intros Hok. rewrite Hok in Hio1. discriminate. }
      destruct (page_html ctx v) as [html | e] eqn:Hh.
      2:{ exists [], p, ps, v. simpl.
          rewrite written_paths_app, build_ready_effects_app. simpl.
          rewrite !app_nil_r. repeat split; try assumption. intros _. exact Hh. }
      pose proof (perform_outcome io_error
                    (WriteFile (page_file (ctx_outDir ctx) (sp_route p)) html)
                    (log ++ [Mkdir (page_dir (ctx_outDir ctx) (sp_route p))])%list) as Hwr.
      destruct (perform io_error (WriteFile (page_file (ctx_outDir ctx) (sp_route p)) html)
                  (log ++ [Mkdir (page_dir (ctx_outDir ctx) (sp_route p))])%list)
        as [[[] | e] log2]; destruct Hwr as [-> Hio2].
      2:{ exists [], p, ps, v. simpl.
          rewrite written_paths_app, build_ready_effects_app. simpl.
          rewrite !app_nil_r. repeat split; try assumption.
          intros Hok. rewrite Hok in Hio2. discriminate. }
      specialize (IH (routes ++ [route_entry (sp_route p)])%list
                    ((log ++ [Mkdir (page_dir (ctx_outDir ctx) (sp_route p))])
                       ++ [WriteFile (page_file (ctx_outDir ctx) (sp_route p)) html])%list).
      destruct (render_pages io_error ctx ps _ _) as [[r | e] l].
      * destruct IH as (-> & Hw & Hb). unfold rendered_pages. simpl. rewrite Hp.
        simpl. rewrite <- !app_assoc. simpl. split; [reflexivity |]. split.
        -- rewrite Hw, !written_paths_app. simpl. rewrite app_nil_r.
           rewrite <- !app_assoc. reflexivity.
        -- rewrite Hb, !build_ready_effects_app. simpl. rewrite !app_nil_r. reflexivity.
      * destruct IH as (ps1 & p' & ps2 & v' & -> & Hv' & Hw & Hb & Hc).
        exists (p :: ps1), p', ps2, v'. simpl. repeat split; try assumption.
        -- rewrite Hw, !written_paths_app. unfold rendered_pages. simpl. rewrite Hp.
           simpl. rewrite app_nil_r, <- !app_assoc. reflexivity.
        -- rewrite Hb, !build_ready_effects_app. simpl. rewrite !app_nil_r. reflexivity.
    + apply has_version_authoritative in Hv.
      specialize (IH routes log).
      destruct (render_pages io_error ctx ps routes log) as [[r | e] l].
      * unfold rendered_pages. simpl. rewrite Hv. exact IH.
      * destruct IH as (ps1 & p' & ps2 & v' & -> & Hv' & Hw & Hb & Hc).
        exists (p :: ps1), p', ps2, v'. repeat split; try assumption.
        unfold rendered_pages. simpl. rewrite Hv. exact Hw.
Qed.

(** The outcomes of [POST /render/site/:siteId], whatever the file system
    and the store answer to its calls.  A refusal (401 or 404) makes no
    call.  A success has written one file for each page that has a version,
    in the order of the pages, then [robots.txt] and [sitemap.xml], the
    sitemap listing those pages, and has marked the build ready as its last
    call; the reply counts those pages.  A failure never marks the build
    ready; the files written are those of the pages before some page, or
    those of all pages followed by [robots.txt], or by [robots.txt] and
    [sitemap.xml] (the later call having failed); and when no call is
    refused, a failure comes before [robots.txt] is written. *)
Theorem render_site_outcomes (ADMIN_TOKEN OUTPUT_ROOT : string)
    (io_error : list Effect -> Effect -> option string) (header : value)
    (ids_valid : bool) (site : res (option SiteRow)) (buildId : nat) :
  match render_site ADMIN_TOKEN OUTPUT_ROOT io_error header ids_valid site buildId with
  | (Ok Unauthorized, log) =>
      SiteRender.requireAdmin ADMIN_TOKEN header = false /\ log = []
  | (Ok SiteNotFound, log) => site = Ok None /\ log = []
  | (Ok (Rendered artifactPath outDir n), log) =>
      exists s, site = Ok (Some s)
        /\ SiteRender.requireAdmin ADMIN_TOKEN header = true
        /\ artifactPath = path_join [OUTPUT_ROOT; ss_domainName s]
        /\ outDir = path_join [OUTPUT_ROOT; ss_domainName s]
        /\ n = length (rendered_pages (ss_pages s))
        /\ written_paths log
           = (map (page_path outDir) (rendered_pages (ss_pages s))
              ++ [path_join [outDir; "robots.txt"]; path_join [outDir; "sitemap.xml"]])%list
        /\ In (WriteFile (path_join [outDir; "sitemap.xml"])
                 (sitemap_xml (ss_domainName s)
                    (map page_route_entry (rendered_pages (ss_pages s))))) log
        /\ build_ready_effects log
           = [BuildReady buildId (path_join [outDir; "sitemap.xml"])
                (path_join [outDir; "robots.txt"])]
        /\ last log = Some (BuildReady buildId (path_join [outDir; "sitemap.xml"])
                              (path_join [outDir; "robots.txt"]))
  | (Throw e, log) =>
      build_ready_effects log = []
      /\ (ids_valid = false -> log = [])
      /\ forall s, site = Ok (Some s) -> ids_valid = true ->
           let outDir := path_join [OUTPUT_ROOT; ss_domainName s] in
           exists done rest tail,
             ss_pages s = (done ++ rest)%list
             /\ written_paths log = (map (page_path outDir) (rendered_pages done) ++ tail)%list
             /\ (tail = []
                 \/ (rest = []
                     /\ (tail = [path_join [outDir; "robots.txt"]]
                         \/ tail = [path_join [outDir; "robots.txt"];
                                    path_join [outDir; "sitemap.xml"]])))
             /\ ((forall l c, io_error l c = None) -> tail = [])
  end.
Proof.
  unfold render_site.
  destruct (SiteRender.requireAdmin ADMIN_TOKEN header) eqn:Hadm; simpl; [| auto].
  destruct ids_valid; simpl.
  2:{ split; [reflexivity |]. split; [reflexivity |]. intros; discriminate. }
  destruct site as [[s |] | e0]; [| auto |].
  2:{ split; [reflexivity |]. split; [discriminate |]. intros; discriminate. }
  set (outDir := path_join [OUTPUT_ROOT; ss_domainName s]).
  pose proof (perform_outcome io_error (Mkdir outDir) []) as Hmk.
  destruct (perform io_error (Mkdir outDir) []) as [[[] | e] log0]; destruct Hmk as [-> Hio0].
  2:{ split; [reflexivity |]. split; [discriminate |].
      intros s' [= <-] _. exists [], (ss_pages s), []. simpl.
      split; [reflexivity |]. split; [reflexivity |]. split; [by left | reflexivity]. }
  simpl.
  match goal with |- context [bind ?m ?k] => destruct (bind m k) as [ctx | e] eqn:Hctx end.
  2:{ split; [reflexivity |]. split; [discriminate |].
      intros s' [= <-] _. exists [], (ss_pages s), []. simpl.
      split; [reflexivity |]. split; [reflexivity |]. split; [by left | reflexivity]. }
  assert (ctx_outDir ctx = outDir) as Hout.
  { apply bind_Ok in Hctx as (css & _ & Hctx).
    apply bind_Ok in Hctx as (he & _ & Hctx).
    apply bind_Ok in Hctx as (be & _ & Hctx).
    injection Hctx as <-. reflexivity. }
  pose proof (render_pages_outcome io_error ctx (ss_pages s) [] [Mkdir outDir]) as Hp.
  destruct (render_pages io_error ctx (ss_pages s) [] [Mkdir outDir]) as [[routes | e] log].
  2:{ destruct Hp as (ps1 & p & ps2 & v & Hps & _ & Hw & Hb & _).
      rewrite Hout in Hw. simpl in Hw, Hb.
      split; [exact Hb |]. split; [discriminate |].
      intros s' [= <-] _. exists ps1, (p :: ps2), []. rewrite app_nil_r.
      split; [exact Hps |]. split; [exact Hw |]. split; [by left | reflexivity]. }
  destruct Hp as (-> & Hw & Hb). rewrite Hout in Hw. simpl in Hw, Hb.
  cbn [app].
  set (robots := WriteFile (path_join [outDir; "robots.txt"]) (robots_txt (ss_domainName s))).
  set (sitemap := WriteFile (path_join [outDir; "sitemap.xml"])
                    (sitemap_xml (ss_domainName s)
                       (map page_route_entry (rendered_pages (ss_pages s))))).
  set (ready := BuildReady buildId (path_join [outDir; "sitemap.xml"])
                  (path_join [outDir; "robots.txt"])).
  pose proof (perform_outcome io_error robots log) as H1.
  destruct (perform io_error robots log) as [[[] | e] log1]; destruct H1 as [-> Hio1].
  2:{ split; [exact Hb |]. split; [discriminate |].
      intros s' [= <-] _. exists (ss_pages s), [], []. rewrite !app_nil_r.
      split; [reflexivity |]. split; [exact Hw |]. split; [by left | reflexivity]. }
  pose proof (perform_outcome io_error sitemap (log ++ [robots])%list) as H2.
  destruct (perform io_error sitemap (log ++ [robots])%list) as [[[] | e] log2];
    destruct H2 as [-> Hio2].
  2:{ split; [rewrite build_ready_effects_app, Hb; reflexivity |].
      split; [discriminate |].
      intros s' [= <-] _.
      exists (ss_pages s), [], [path_join [outDir; "robots.txt"]]. rewrite app_nil_r.
      split; [reflexivity |]. split; [rewrite written_paths_app, Hw; reflexivity |].
      split; [right; auto |].
      intros Hok. rewrite Hok in Hio2. discriminate. }
  pose proof (perform_outcome io_error ready ((log ++ [robots]) ++ [sitemap])%list) as H3.
  destruct (perform io_error ready ((log ++ [robots]) ++ [sitemap])%list) as [[[] | e] log3];
    destruct H3 as [-> Hio3].
  2:{ split; [rewrite !build_ready_effects_app, Hb; reflexivity |].
      split; [discriminate |].
      intros s' [= <-] _.
      exists (ss_pages s), [],
        [path_join [outDir; "robots.txt"]; path_join [outDir; "sitemap.xml"]].
      rewrite app_nil_r.
      split; [reflexivity |].
      split; [rewrite !written_paths_app, Hw; simpl; rewrite <- app_assoc; reflexivity |].
      split; [right; auto |].
      intros Hok. rewrite Hok in Hio3. discriminate. }
  exists s. repeat split.
  - simpl. rewrite length_map. reflexivity.
  - rewrite !written_paths_app, Hw. simpl. rewrite <- !app_assoc. reflexivity.
  - apply in_or_app. left. apply in_or_app. right. left. reflexivity.
  - rewrite !build_ready_effects_app, Hb. reflexivity.
  - apply last_snoc.
Qed.

(** ** The page shell and the theme *)

Lemma truthy_nullish_empty (d : value) :
  truthy (nullish d (VStr "")) = truthy d.
Proof. destruct d; reflexivity. Qed.

(** [htmlPage] produces a page exactly when the title is a string and the
    description is a string or falsy; a falsy description (absent, [null],
    the empty string, [0], [false]) gives the page of an absent one. *)
Theorem htmlPage_defined (title description : value) (body css headExtras bodyEndExtras : string) :
  ((exists html, htmlPage title description body css headExtras bodyEndExtras = Ok html)
   <-> is_str title = true /\ (truthy description = false \/ is_str description = true))
  /\ (truthy description = false ->
      htmlPage title description body css headExtras bodyEndExtras
      = htmlPage title VUndef body css headExtras bodyEndExtras).
Proof.
  unfold htmlPage. rewrite truthy_nullish_empty. split; [split |].
  - intros [html H].
    destruct title as [| | b | n | t | l | f | k]; simpl in H; try discriminate.
    split; [reflexivity |].
    destruct (truthy description) eqn:Ht; [right | left; reflexivity].
    destruct description as [| | b | n | d | l | f | k]; simpl in *; try discriminate.
    reflexivity.
  - intros [Ht Hd].
    destruct title as [| | b | n | t | l | f | k]; simpl in Ht; try discriminate.
    destruct Hd as [Hd | Hd].
    + rewrite Hd. simpl. eauto.
    + destruct description as [| | b | n | d | l | f | k]; simpl in Hd; try discriminate.
      simpl. destruct (negb (d =? "")%string); simpl; eauto.
  - intros Hd. rewrite Hd. reflexivity.
Qed.

(** The primary button of the stylesheet: a [hero.cta_style] of the
    component preset, when there is one, decides alone, whatever the
    [buttons] of the theme; without one the preset has no part; and any
    style other than the string [gradient] gives the stylesheet of
    [solid]. *)
Theorem css_primary_style_sources (theme preset : value) :
  let cta := oprop (oprop preset "hero") "cta_style" in
  (forall theme', nullish cta VNull <> VNull ->
     oprop theme "colors" = oprop theme' "colors" ->
     oprop theme "radius" = oprop theme' "radius" ->
     cssFromTheme theme preset = cssFromTheme theme' preset)
  /\ (nullish cta VNull = VNull -> cssFromTheme theme preset = cssFromTheme theme VUndef)
  /\ (nullish cta VNull <> VNull -> strict_eq_str cta "gradient" = false ->
      cssFromTheme theme preset
      = cssFromTheme theme (VObj [("hero", VObj [("cta_style", VStr "solid")])])).
Proof.
  intros cta. unfold cssFromTheme. fold cta. repeat split.
  - intros theme' Hc Hcol Hrad. rewrite Hcol, Hrad.
    destruct cta; simpl in *; try congruence.
  - intros Hc. destruct cta; simpl in *; try congruence.
  - intros Hc Hg.
    change (oprop (oprop (VObj [("hero", VObj [("cta_style", VStr "solid")])]) "hero")
              "cta_style") with (VStr "solid").
    destruct cta; simpl in *; try congruence; rewrite ?Hg; reflexivity.
Qed.

(** ** The background loop *)

Lemma reschedules_refl (ids : list nat) (S0 : list AutopostSchedule) :
  reschedules ids S0 S0.
Proof. unfold reschedules. induction S0; constructor; auto. Qed.

Lemma reschedules_trans (ids : list nat) (S0 S1 S2 : list AutopostSchedule) :
  reschedules ids S0 S1 -> reschedules ids S1 S2 -> reschedules ids S0 S2.
Proof.
  unfold reschedules. intros H01. revert S2.
  induction H01 as [| x y l0 l1 Hxy _ IH]; intros S2 H12; inversion H12; subst;
    constructor; [| by apply IH].
  match goal with H : _ \/ _ |- _ => destruct H as [-> | (Hin & last & next & ->)] end;
    [exact Hxy |].
  destruct Hxy as [-> | (Hin' & last' & next' & ->)]; right.
  - split; [exact Hin | eauto].
  - split; [exact Hin' |]. exists last, next. reflexivity.
Qed.

Lemma reschedules_weaken (ids ids' : list nat) (S0 S1 : list AutopostSchedule) :
  (forall i, In i ids -> In i ids') -> reschedules ids S0 S1 -> reschedules ids' S0 S1.
Proof.
  intros Hsub H. unfold reschedules in *.
  eapply Forall2_impl; [exact H |]. simpl.
  intros x y [-> | (Hin & Hy)]; [by left | right; split; auto].
Qed.

Lemma reschedules_update (id : nat) (last next : Z) (S0 : list AutopostSchedule) :
  reschedules [id] S0 (update_where sched_id id (set_schedule_run last next) S0).
Proof.
  unfold reschedules, update_where. induction S0 as [| x l IH]; simpl; constructor; [| exact IH].
  destruct (Nat.eqb_spec (sched_id x) id) as [E | _]; [right | by left].
  split; [left; by symmetry | eauto].
Qed.

(** A run changes the schedule table at most in the run times of its own
    schedule. *)
Lemma runAutopostSchedule_reschedules (now : Z) (resp : FetchOutcome) (tza : Z)
    (scheduleId : nat) (s : Store) :
  reschedules [scheduleId] (schedules s)
    (schedules (snd (runAutopostSchedule now resp tza scheduleId s))).
Proof.
  destruct (find (fun x => Nat.eqb (sched_id x) scheduleId) (schedules s))
    as [schedule |] eqn:Hfind.
  2:{ unfold runAutopostSchedule, bindM at 1, schedule_findUnique,
        bindM at 1, get_store, ret.
      rewrite Hfind. simpl. apply reschedules_refl. }
  assert (sched_id schedule = scheduleId) as Hid.
  { apply find_some in Hfind as [_ H]. by apply Nat.eqb_eq in H. }
  destruct (sched_isEnabled schedule) eqn:Hen.
  2:{ unfold runAutopostSchedule, bindM at 1, schedule_findUnique,
        bindM at 1, get_store, ret.
      rewrite Hfind. unfold bindM at 1, site_findUnique, bindM at 1, get_store, ret.
      rewrite Hen. simpl. apply reschedules_refl. }
  assert (runAutopostSchedule now resp tza scheduleId s
          = bindM (run_create (sched_id schedule))
              (fun run =>
                 try_catch
                   (autopost_body now resp tza schedule
                      (find (fun x => Nat.eqb (site_id x) (sched_siteId schedule)) (sites s))
                      run)
                   (fun e => bindM (run_update (run_id run) (run_mark_failed now e))
                               (fun _ => throw e))) s) as ->.
  { unfold runAutopostSchedule, bindM at 1, schedule_findUnique,
      bindM at 1, get_store, ret.
    rewrite Hfind. unfold bindM at 1, site_findUnique, bindM at 1, get_store, ret.
    rewrite Hen. reflexivity. }
  set (I := fun x => x = schedules s
              \/ exists next, x = update_where sched_id (sched_id schedule)
                                    (set_schedule_run now next) (schedules s)).
  assert (hoare (fun s0 => schedules s0 = schedules s)
            (bindM (run_create (sched_id schedule))
               (fun run =>
                  try_catch
                    (autopost_body now resp tza schedule
                       (find (fun x => Nat.eqb (site_id x) (sched_siteId schedule)) (sites s))
                       run)
                    (fun e => bindM (run_update (run_id run) (run_mark_failed now e))
                                (fun _ => throw e))))
            (fun _ s' => I (schedules s')) (fun _ s' => I (schedules s'))) as Hh.
  { apply (hoare_bind_keeps schedules (fun x => x = schedules s)
             (run_create (sched_id schedule)) _ _ _ (keeps_schedules_run_create _));
      [| intros; by left].
    intros run. eapply hoare_try_catch.
    - unfold autopost_body.
      eapply hoare_bind with (Q1 := fun _ s' => I (schedules s'))
                             (R := fun _ s' => I (schedules s')).
      + eapply hoare_conseq; [apply autopost_steps_schedules | | |]; simpl.
        * intros s0 H. exact H.
        * intros _ s0 (next & _ & H). right. eauto.
        * intros _ s0 [H | (_ & next & _ & H)]; [by left | right; eauto].
      + intros o. simpl.
        apply (hoare_bind_keeps schedules I); [apply keeps_schedules_run_update | |].
        * intros _. apply hoare_ret. intros s' H. exact H.
        * intros e' s' H. exact H.
    - intros e. simpl.
      apply (hoare_bind_keeps schedules I); [apply keeps_schedules_run_update | |].
      + intros _. apply hoare_throw. intros s' H. exact H.
      + intros e' s' H. exact H. }
  specialize (Hh s eq_refl).
  destruct (bindM _ _ s) as [[a | e] s']; simpl;
    (destruct Hh as [-> | [next ->]];
     [apply reschedules_refl | rewrite Hid; apply reschedules_update]).
Qed.

Lemma run_due_reschedules (run_now : nat -> Z) (run_resp : nat -> FetchOutcome) (tza : Z)
    (due : list AutopostSchedule) :
  forall i s,
    reschedules (map sched_id due) (schedules s)
      (schedules (snd (run_due run_now run_resp tza i due s))).
Proof.
  induction due as [| d rest IH]; intros i s; simpl; [apply reschedules_refl |].
  unfold bindM.
  pose proof (runAutopostSchedule_reschedules (run_now i) (run_resp i) tza (sched_id d) s)
    as Hrun.
  destruct (runAutopostSchedule (run_now i) (run_resp i) tza (sched_id d) s)
    as [[a | e] s1]; simpl in *.
  - eapply reschedules_trans.
    + eapply reschedules_weaken; [| exact Hrun]. intros j [<- | []]. by left.
    + eapply reschedules_weaken; [| apply IH]. intros j Hj. by right.
  - eapply reschedules_weaken; [| exact Hrun]. intros j [<- | []]. by left.
Qed.

(** A tick of the background loop never throws.  It takes at most five
    due schedules, and changes nothing in the schedule table but the run
    times of those.  The [try] holds the whole loop: when the run of the
    first due schedule throws, the tick ends in the store which that run
    left, the other due schedules not run. *)
Theorem scheduler_tick_outcome (now : Z) (run_now : nat -> Z)
    (run_resp : nat -> FetchOutcome) (tza : Z) (s : Store) :
  let due := firstn 5 (List.filter (fun x => sched_isEnabled x && (nextRunAt x <=? now))
                         (schedules s)) in
  exists s',
    scheduler_tick now run_now run_resp tza s = (Ok tt, s')
    /\ (length due <= 5)%nat
    /\ reschedules (map sched_id due) (schedules s) (schedules s')
    /\ (due = [] -> s' = s)
    /\ (forall d rest e s1,
          due = d :: rest ->
          runAutopostSchedule (run_now 0%nat) (run_resp 0%nat) tza (sched_id d) s
          = (Throw e, s1) ->
          s' = s1).
Proof.
  intros due.
  assert (scheduler_tick now run_now run_resp tza s
          = match run_due run_now run_resp tza 0 due s with
            | (Ok a, s') => (Ok a, s')
            | (Throw _, s') => (Ok tt, s')
            end) as Htick by reflexivity.
  pose proof (run_due_reschedules run_now run_resp tza due 0 s) as Hres.
  exists (snd (run_due run_now run_resp tza 0 due s)).
  split; [| split; [| split; [exact Hres | split]]].
  - rewrite Htick. destruct (run_due run_now run_resp tza 0 due s) as [[[] | e] s']; reflexivity.
  - apply firstn_le_length.
  - intros ->. reflexivity.
  - intros d rest e s1 -> Hrun. simpl. unfold bindM. rewrite Hrun. reflexivity.
Qed.

(** A schedule whose cadence cannot be computed fails at every tick before
    its run times are written, so it stays due and at the head of the
    batch: the second schedule is never run, while each tick leaves one
    more failed run and one more draft post of the first. *)
Example tick_stuck_behind_failing_schedule :
  let tick t := scheduler_tick t (fun _ => t) (fun _ => FetchOk "/out") 0 in
  let s1 := snd (tick wednesday_afternoon store_stuck_schedule) in
  let s2 := snd (tick (wednesday_afternoon + 60000) s1) in
  schedules s1 = schedules store_stuck_schedule
  /\ map run_scheduleId (runs s1) = [2%nat]
  /\ map run_status (runs s1) = [run_failed]
  /\ schedules s2 = schedules store_stuck_schedule
  /\ map run_scheduleId (runs s2) = [2%nat; 2%nat]
  /\ map page_route (pages s2) = ["/blog/blog-1704295800000"; "/blog"; "/blog/blog-1704295860000"].
Proof. vm_compute. repeat split; reflexivity. Qed.

(** ** Bulk operations on links *)

(** [replaceAll] on samples: matches do not overlap, and a dollar in the
    replacement is a pattern. *)
Example replaceAll_samples :
  replaceAll "aaa" "aa" "b" = "ba"
  /\ replaceAll "http://old.example/x" "old" "new" = "http://new.example/x"
  /\ replaceAll "a-b" "-" "$$&$&" = "a$&-b"
  /\ replaceAll "a-b" "-" "[$`|$']" = "a[a|b]b"
  /\ replaceAll "a-b" "-" "$1$" = "a$1$b"
  /\ replaceAll "https://a.example" "https://a.example" "" = "".
Proof. vm_compute. repeat split; reflexivity. Qed.

Lemma update_where_ids {A : Type} (id_of : A -> nat) (id : nat) (f : A -> A) (l : list A) :
  (forall x, id_of (f x) = id_of x) ->
  map id_of (update_where id_of id f l) = map id_of l.
Proof.
  intros Hf. unfold update_where. rewrite map_map. apply map_ext.
  intros x. destruct (Nat.eqb (id_of x) id); [apply Hf | reflexivity].
Qed.

Lemma existsb_id {A : Type} (id_of : A -> nat) (id : nat) (l : list A) :
  existsb (fun x => Nat.eqb (id_of x) id) l = true <-> In id (map id_of l).
Proof.
  rewrite existsb_exists, in_map_iff. split.
  - intros (x & Hx & E). apply Nat.eqb_eq in E. eauto.
  - intros (x & E & Hx). exists x. split; [exact Hx | by apply Nat.eqb_eq].
Qed.

(** The loop of updates, when every key names a row and no key comes
    twice: each row is updated by the entry of its id, if there is one. *)
Lemma update_rows_map {A B : Type} (id_of : A -> nat) (key : B -> nat) (f : B -> A -> A)
    (l : list B) :
  (forall b x, id_of (f b x) = id_of x) ->
  NoDup (map key l) ->
  forall table,
    (forall b, In b l -> In (key b) (map id_of table)) ->
    let table' :=
      map (fun x => match find (fun b => Nat.eqb (key b) (id_of x)) l with
                    | Some b => f b x
                    | None => x
                    end) table in
    update_rows id_of key f l table = (Ok table', table').
Proof.
  intros Hf. induction l as [| b rest IH]; intros Hnd table Hin; simpl.
  - rewrite map_id. reflexivity.
  - inversion Hnd as [| k ks Hnotin Hnd']; subst.
    unfold update_row.
    assert (existsb (fun x => Nat.eqb (id_of x) (key b)) table = true) as ->.
    { apply existsb_id. apply Hin. by left. }
    rewrite IH; [| exact Hnd' |].
    2:{ intros b' Hb'. rewrite update_where_ids by apply Hf. apply Hin. by right. }
    assert (map (fun x => match find (fun b0 => Nat.eqb (key b0) (id_of x)) rest with
                          | Some b0 => f b0 x
                          | None => x
                          end) (update_where id_of (key b) (f b) table)
            = map (fun x => match (if Nat.eqb (key b) (id_of x) then Some b
                                   else find (fun b0 => Nat.eqb (key b0) (id_of x)) rest) with
                            | Some b0 => f b0 x
                            | None => x
                            end) table) as ->; [| reflexivity].
    unfold update_where. rewrite map_map. apply map_ext. intros x.
    rewrite (Nat.eqb_sym (key b) (id_of x)).
    destruct (Nat.eqb_spec (id_of x) (key b)) as [E | _]; [| reflexivity].
    rewrite Hf, E.
    destruct (find (fun b0 => Nat.eqb (key b0) (key b)) rest) as [b0 |] eqn:Hfind;
      [| reflexivity].
    apply find_some in Hfind as [Hb0 E0]. apply Nat.eqb_eq in E0.
    exfalso. apply Hnotin. apply list_elem_of_In. rewrite <- E0. by apply in_map.
Qed.

(** In a table of distinct ids, the selected row of the id of [x] is [x]. *)
Lemma find_selected_by_id {A : Type} (id_of : A -> nat) (p : A -> bool) (table : list A) :
  NoDup (map id_of table) ->
  forall x, In x table ->
    find (fun b => Nat.eqb (id_of b) (id_of x)) (List.filter p table)
    = if p x then Some x else None.
Proof.
  induction table as [| y table IH]; intros Hnd x Hx; [destruct Hx |].
  inversion Hnd as [| k ks Hnotin Hnd']; subst. simpl.
  destruct Hx as [-> | Hx].
  - destruct (p x) eqn:Hp; simpl.
    + by rewrite Nat.eqb_refl.
    + destruct (find _ (List.filter p table)) as [b |] eqn:Hfind; [| reflexivity].
      apply find_some in Hfind as [Hb E]. apply Nat.eqb_eq in E.
      apply filter_In in Hb as [Hb _].
      exfalso. apply Hnotin. apply list_elem_of_In. rewrite <- E. by apply in_map.
  - assert (id_of y <> id_of x) as Hne.
    { intros E. apply Hnotin. apply list_elem_of_In. rewrite E. by apply in_map. }
    destruct (p y); simpl; [| by apply IH].
    destruct (Nat.eqb_spec (id_of y) (id_of x)) as [E | _]; [contradiction | by apply IH].
Qed.

Lemma NoDup_map_filter {A : Type} (id_of : A -> nat) (p : A -> bool) (table : list A) :
  NoDup (map id_of table) -> NoDup (map id_of (List.filter p table)).
Proof.
  induction table as [| y table IH]; simpl; intros Hnd; [constructor |].
  inversion Hnd as [| k ks Hnotin Hnd']; subst.
  destruct (p y); simpl; [| by apply IH].
  constructor; [| by apply IH].
  intros Hin. apply Hnotin. apply list_elem_of_In.
  apply list_elem_of_In, in_map_iff in Hin as (z & E & Hz).
  apply filter_In in Hz as [Hz _]. rewrite <- E. by apply in_map.
Qed.

Lemma map_ext_in_id {A : Type} (g : A -> A) (l : list A) :
  (forall x, In x l -> g x = x) -> map g l = l.
Proof.
  intros H. rewrite <- (map_id l) at 2. apply map_ext_in. exact H.
Qed.

(** The last of the operations when the newest is appended. *)
Lemma max_by_snoc {A : Type} (key : A -> Z) (l : list A) (y : A) :
  Forall (fun x => key x < key y) l -> max_by key (l ++ [y])%list = Some y.
Proof.
  induction l as [| x l IH]; simpl; intros H; [reflexivity |].
  inversion H; subst. rewrite IH by assumption.
  destruct (Z.ltb_spec (key x) (key y)); [reflexivity | lia].
Qed.

Lemma update_where_absent {A : Type} (id_of : A -> nat) (id : nat) (f : A -> A) (l : list A) :
  Forall (fun x => id_of x <> id) l -> update_where id_of id f l = l.
Proof.
  intros H. unfold update_where. apply map_ext_in_id. intros x Hx.
  rewrite Forall_forall in H. apply list_elem_of_In in Hx. specialize (H x Hx).
  destruct (Nat.eqb_spec (id_of x) id); [contradiction | reflexivity].
Qed.

Lemma find_map_pair {A B : Type} (g : A -> B) (q : B -> bool) (l : list A) :
  find q (map g l) = option_map g (find (fun x => q (g x)) l).
Proof.
  induction l as [| x l IH]; simpl; [reflexivity |].
  destruct (q (g x)); [reflexivity | exact IH].
Qed.

(** The updates of the selected rows of a table of distinct ids, and the
    updates that write the saved values back. *)
Lemma update_then_restore {A V : Type} (id_of : A -> nat) (get : A -> V) (set : V -> A -> A)
    (p : A -> bool) (new : A -> V) (table : list A) :
  (forall v x, id_of (set v x) = id_of x) ->
  (forall v x, set (get x) (set v x) = x) ->
  NoDup (map id_of table) ->
  let selected := List.filter p table in
  let table1 := map (fun x => if p x then set (new x) x else x) table in
  update_rows id_of id_of (fun b => set (new b)) selected table = (Ok table1, table1)
  /\ update_rows id_of fst (fun b => set (snd b))
       (map (fun x => (id_of x, get x)) selected) table1 = (Ok table, table).
Proof.
  intros Hid Hset Hnd selected table1.
  assert (NoDup (map id_of selected)) as Hsel by by apply NoDup_map_filter.
  split.
  - rewrite update_rows_map; [| intros; apply Hid | exact Hsel |].
    2:{ intros b Hb. apply filter_In in Hb as [Hb _]. by apply in_map. }
    assert (map (fun x => match find (fun b => Nat.eqb (id_of b) (id_of x)) selected with
                          | Some b => set (new b) x
                          | None => x
                          end) table = table1) as ->; [| reflexivity].
    apply map_ext_in. intros x Hx. unfold selected.
    rewrite find_selected_by_id by assumption. destruct (p x); reflexivity.
  - rewrite update_rows_map.
    + assert (map (fun x => match find (fun b : nat * V => Nat.eqb (fst b) (id_of x))
                                   (map (fun x0 => (id_of x0, get x0)) selected) with
                            | Some b => set (snd b) x
                            | None => x
                            end) table1 = table) as ->; [| reflexivity].
      unfold table1. rewrite map_map. apply map_ext_in_id. intros x Hx.
      assert (id_of (if p x then set (new x) x else x) = id_of x) as ->.
      { destruct (p x); [apply Hid | reflexivity]. }
      rewrite find_map_pair. simpl. unfold selected.
      rewrite find_selected_by_id by assumption.
      destruct (p x); simpl; [apply Hset | reflexivity].
    + intros; apply Hid.
    + rewrite map_map. simpl. exact Hsel.
    + intros b Hb. apply in_map_iff in Hb as (x & <- & Hx). simpl.
      apply filter_In in Hx as [Hx _].
      unfold table1. rewrite map_map.
      apply in_map_iff. exists x. split; [| exact Hx].
      destruct (p x); [apply Hid | reflexivity].
Qed.

Lemma filter_snoc_links (ops : list BulkOperation) (o : BulkOperation) :
  List.filter (fun o => startsWith (op_type o) "links." && is_success o) (ops ++ [o])
  = (List.filter (fun o => startsWith (op_type o) "links." && is_success o) ops
     ++ (if startsWith (op_type o) "links." && is_success o then [o] else []))%list.
Proof. rewrite List.filter_app. reflexivity. Qed.

Lemma Forall_filter_list {A : Type} (P : A -> Prop) (p : A -> bool) (l : list A) :
  Forall P l -> Forall P (List.filter p l).
Proof.
  intros H. rewrite Forall_forall in *. intros x Hx.
  apply list_elem_of_In, filter_In in Hx as [Hx _]. apply H. by apply list_elem_of_In.
Qed.

(** A bulk replacement followed by the undo of the last operation.  The
    replacement answers with the fresh operation id and the number of rows
    that held [find]; it rewrites those rows of the table of its mode and
    no other row.  The undo that follows names that operation and puts both
    tables back as they were; the operation is then out of the way of the
    next undo, which finds the operation that was the last one before. *)
Theorem bulk_apply_then_undo (now : Z) (mode : BulkMode) (find replace : string)
    (s : LinkStore) :
  find <> "" ->
  links_store_before now s ->
  exists s1 s2,
    bulk_apply now mode find replace s
    = (Ok {| operationId := links_next_id s; updated := affected mode find s |}, s1)
    /\ libraries s1 = match mode with
                      | library_url_replace => map (replace_url find replace) (libraries s)
                      | assignment_text_replace => libraries s
                      end
    /\ assignments s1 = match mode with
                        | library_url_replace => assignments s
                        | assignment_text_replace =>
                            map (replace_text find replace) (assignments s)
                        end
    /\ bulk_undo_last s1 = (Ok (Some (links_next_id s)), s2)
    /\ libraries s2 = libraries s
    /\ assignments s2 = assignments s
    /\ last_links_operation s2 = last_links_operation s.
Proof.
  intros Hfind (Hlib & Hasg & Hfresh & Hbefore).
  assert (String.eqb find "" = false) as Hne by by apply String.eqb_neq.
  destruct mode.
  - destruct (update_then_restore ll_id ll_targetUrl set_targetUrl
                (fun l => includes (ll_targetUrl l) find)
                (fun l => replaceAll (ll_targetUrl l) find replace) (libraries s))
      as [Happly Hundo]; [reflexivity | by intros v [] | exact Hlib |].
    unfold bulk_apply. rewrite Hne. cbn [libraries assignments operations links_next_id op_id].
    rewrite Happly. eexists. eexists.
    split; [reflexivity |]. cbn [libraries assignments operations links_next_id set_op].
    split; [reflexivity |]. split; [reflexivity |].
    unfold set_op at 1. cbn [libraries assignments operations links_next_id].
    rewrite update_where_last; [| exact Hfresh | reflexivity].
    unfold bulk_undo_last, last_links_operation.
    cbn [libraries assignments operations links_next_id].
    rewrite filter_snoc_links. cbn [op_type op_status is_success op_finish mode_name].
    change (startsWith ("links." ++ "library_url_replace") "links." && true) with true.
    cbv iota.
    rewrite max_by_snoc.
    2:{ cbn [op_createdAt op_finish]. by apply Forall_filter_list. }
    cbn [op_type op_finish op_diffPreview op_id].
    change (("links." ++ "library_url_replace" =? "links.library_url_replace")%string) with true.
    cbv iota. rewrite Hundo.
    split; [reflexivity |].
    cbn [libraries assignments operations links_next_id set_op].
    split; [reflexivity |]. split; [reflexivity |].
    rewrite update_where_last; [| exact Hfresh | reflexivity].
    rewrite filter_snoc_links. cbn [op_type op_status is_success op_set_status op_finish].
    rewrite andb_false_r, app_nil_r. reflexivity.
  - destruct (update_then_restore la_id la_displayTextOverride set_displayTextOverride
                (text_contains find)
                (fun a => Some (replaceAll (text_or_empty (la_displayTextOverride a))
                                  find replace)) (assignments s))
      as [Happly Hundo]; [reflexivity | by intros v [] | exact Hasg |].
    unfold bulk_apply. rewrite Hne. cbn [libraries assignments operations links_next_id op_id].
    rewrite Happly. eexists. eexists.
    split; [reflexivity |]. cbn [libraries assignments operations links_next_id set_op].
    split; [reflexivity |]. split.
    { apply map_ext. intros a. unfold replace_text, text_contains.
      destruct (la_displayTextOverride a); reflexivity. }
    unfold set_op at 1. cbn [libraries assignments operations links_next_id].
    rewrite update_where_last; [| exact Hfresh | reflexivity].
    unfold bulk_undo_last, last_links_operation.
    cbn [libraries assignments operations links_next_id].
    rewrite filter_snoc_links. cbn [op_type op_status is_success op_finish mode_name].
    change (startsWith ("links." ++ "assignment_text_replace") "links." && true) with true.
    cbv iota.
    rewrite max_by_snoc.
    2:{ cbn [op_createdAt op_finish]. by apply Forall_filter_list. }
    cbn [op_type op_finish op_diffPreview op_id].
    change (("links." ++ "assignment_text_replace" =? "links.library_url_replace")%string)
      with false.
    change (("links." ++ "assignment_text_replace" =? "links.assignment_text_replace")%string)
      with true.
    cbv iota. rewrite Hundo.
    split; [reflexivity |].
    cbn [libraries assignments operations links_next_id set_op].
    split; [reflexivity |]. split; [reflexivity |].
    rewrite update_where_last; [| exact Hfresh | reflexivity].
    rewrite filter_snoc_links. cbn [op_type op_status is_success op_set_status op_finish].
    rewrite andb_false_r, app_nil_r. reflexivity.
Qed.

Lemma bulk_apply_then_undo_witness :
  exists s1 s2,
    bulk_apply 2000 library_url_replace "old" "new" demo_links_store
    = (Ok {| operationId := links_next_id demo_links_store;
             updated := affected library_url_replace "old" demo_links_store |}, s1)
    /\ libraries s1 = map (replace_url "old" "new") (libraries demo_links_store)
    /\ assignments s1 = assignments demo_links_store
    /\ bulk_undo_last s1 = (Ok (Some (links_next_id demo_links_store)), s2)
    /\ libraries s2 = libraries demo_links_store
    /\ assignments s2 = assignments demo_links_store
    /\ last_links_operation s2 = last_links_operation demo_links_store.
Proof.
  apply (bulk_apply_then_undo 2000 library_url_replace "old" "new" demo_links_store).
  - discriminate.
  - unfold links_store_before. simpl.
    split; [| split; [| split]]; apply (bool_decide_unpack _); vm_compute; exact I.
Defined.

(** The sample store: the replacement reaches one link, and the undo after
    it leaves the earlier operation as the last one. *)
Example bulk_apply_sample :
  let s1 := snd (bulk_apply 2000 library_url_replace "old" "new" demo_links_store) in
  map ll_targetUrl (libraries s1) = ["https://new.example/a"; "https://other.example"]
  /\ option_map op_id (last_links_operation s1) = Some 6%nat
  /\ option_map op_id (last_links_operation (snd (bulk_undo_last s1))) = Some 5%nat.
Proof. vm_compute. repeat split; reflexivity. Qed.

(** ** Import of domains *)

Lemma domain_findUnique_names (name : string) (s : DomainStore) :
  match domain_findUnique name s with
  | Some _ => In name (map domainName (domains s))
  | None => ~ In name (map domainName (domains s))
  end.
Proof.
  unfold domain_findUnique.
  destruct (find _ (domains s)) as [d |] eqn:Hf.
  - apply find_some in Hf as [Hd E]. apply String.eqb_eq in E. subst name. by apply in_map.
  - intros Hin. apply in_map_iff in Hin as (d & E & Hd).
    pose proof (find_none _ _ Hf d Hd) as Hn. simpl in Hn.
    rewrite E, String.eqb_refl in Hn. discriminate.
Qed.

Lemma import_loop_outcome (normalise : string -> string) (status : DomainStatus)
    (raws : list string) :
  forall acc s,
    exists new,
      fst (import_loop normalise status raws acc s) = (acc ++ new)%list
      /\ domains (snd (import_loop normalise status raws acc s)) = (domains s ++ new)%list
      /\ (forall d, In d new ->
            domainName d <> ""
            /\ domain_status d = status
            /\ (exists raw, In raw raws /\ domainName d = normalise raw)
            /\ ~ In (domainName d) (map domainName (domains s)))
      /\ (forall raw, In raw raws -> normalise raw <> "" ->
            In (normalise raw)
              (map domainName (domains (snd (import_loop normalise status raws acc s)))))
      /\ (NoDup (map domainName (domains s)) ->
          NoDup (map domainName (domains (snd (import_loop normalise status raws acc s))))).
Proof.
  induction raws as [| raw rest IH]; intros acc s; simpl.
  - exists []. rewrite !app_nil_r.
    split; [reflexivity |]. split; [reflexivity |].
    split; [intros d [] |]. split; [intros raw [] | auto].
  - destruct (String.eqb_spec (normalise raw) "") as [Hempty | Hname].
    { destruct (IH acc s) as (new & H1 & H2 & H3 & H4 & H5).
      exists new. refine (conj H1 (conj H2 (conj _ (conj _ H5)))).
      - intros d Hd. destruct (H3 d Hd) as (? & ? & (r & ? & ?) & ?).
        repeat split; eauto.
      - intros r [<- | Hr] Hne; [contradiction | by apply H4]. }
    pose proof (domain_findUnique_names (normalise raw) s) as Hfind.
    destruct (domain_findUnique (normalise raw) s) as [existing |].
    { destruct (IH acc s) as (new & H1 & H2 & H3 & H4 & H5).
      exists new. refine (conj H1 (conj H2 (conj _ (conj _ H5)))).
      - intros d Hd. destruct (H3 d Hd) as (? & ? & (r & ? & ?) & ?).
        repeat split; eauto.
      - intros r [<- | Hr] Hne; [| by apply H4].
        rewrite H2, map_app. apply in_or_app. by left. }
    set (row := {| domain_id := domains_next_id s; domainName := normalise raw;
                   domain_status := status |}).
    set (s2 := {| domains := (domains s ++ [row])%list;
                  domains_next_id := S (domains_next_id s) |}).
    destruct (IH (acc ++ [row])%list s2) as (new & H1 & H2 & H3 & H4 & H5).
    exists (row :: new). simpl in H2. rewrite <- !app_assoc in *. simpl in *.
    refine (conj H1 (conj H2 (conj _ (conj _ _)))).
    + intros d' [<- | Hd'].
      * repeat split; eauto.
      * destruct (H3 d' Hd') as (? & ? & (r & ? & ?) & Hnot).
        repeat split; eauto.
        intros Hin. apply Hnot. rewrite map_app. apply in_or_app. by left.
    + intros r [<- | Hr] Hne; [| by apply H4].
      rewrite H2, map_app. apply in_or_app. right. by left.
    + intros Hnd. apply H5. rewrite map_app. apply NoDup_app.
      split; [exact Hnd |]. split; [| apply NoDup_singleton].
      intros x Hx Hx'. apply list_elem_of_In in Hx. simpl in Hx'.
      apply list_elem_of_In in Hx' as [<- | []]. contradiction.
Qed.

Lemma import_loop_known (normalise : string -> string) (status : DomainStatus)
    (raws : list string) (acc : list Domain) (s : DomainStore) :
  (forall raw, In raw raws ->
     normalise raw <> "" -> In (normalise raw) (map domainName (domains s))) ->
  import_loop normalise status raws acc s = (acc, s).
Proof.
  induction raws as [| raw rest IH]; intros Hknown; simpl; [reflexivity |].
  destruct (String.eqb_spec (normalise raw) "") as [Hempty | Hname].
  - apply IH. intros r Hr. apply Hknown. by right.
  - pose proof (domain_findUnique_names (normalise raw) s) as Hfind.
    destruct (domain_findUnique (normalise raw) s) as [existing |].
    + apply IH. intros r Hr. apply Hknown. by right.
    + exfalso. apply Hfind. apply Hknown; [by left | exact Hname].
Qed.

(** The import of domains.  A list that is empty or holds a name shorter
    than three is refused before any row is written.  Otherwise the rows
    created are appended to the table; each has the normalised form of a
    given name, not empty and not in the table before, and the status asked
    for or [draft]; every given name that is not blank is in the table
    afterwards; names stay distinct; and the same import once more creates
    nothing. *)
Theorem bulk_import_outcome (normalise : string -> string) (string_length : string -> nat)
    (raws : list string) (status : option DomainStatus) (s : DomainStore) :
  match bulk_import normalise string_length raws status s with
  | (Throw _, s') =>
      s' = s /\ (raws = [] \/ exists raw, In raw raws /\ (string_length raw < 3)%nat)
  | (Ok r, s1) =>
      createdCount r = length (created r)
      /\ domains s1 = (domains s ++ created r)%list
      /\ (forall d, In d (created r) ->
            domainName d <> ""
            /\ domain_status d = match status with Some st => st | None => domain_draft end
            /\ (exists raw, In raw raws /\ domainName d = normalise raw)
            /\ ~ In (domainName d) (map domainName (domains s)))
      /\ (forall raw, In raw raws -> normalise raw <> "" ->
            In (normalise raw) (map domainName (domains s1)))
      /\ (NoDup (map domainName (domains s)) -> NoDup (map domainName (domains s1)))
      /\ bulk_import normalise string_length raws status s1
         = (Ok {| createdCount := 0; created := [] |}, s1)
  end.
Proof.
  unfold bulk_import.
  destruct (_ || _) eqn:Hzod.
  - split; [reflexivity |]. apply orb_true_iff in Hzod as [H | H].
    + left. by destruct raws.
    + right. apply existsb_exists in H as (raw & Hraw & Hlt).
      exists raw. split; [exact Hraw | by apply Nat.ltb_lt].
  - set (st := match status with Some st => st | None => domain_draft end).
    destruct (import_loop_outcome normalise st raws [] s) as (new & H1 & H2 & H3 & H4 & H5).
    destruct (import_loop normalise st raws [] s) as [made s1] eqn:Hloop.
    simpl in H1, H2, H4, H5. subst made.
    refine (conj eq_refl (conj H2 (conj H3 (conj H4 (conj H5 _))))).
    rewrite (import_loop_known normalise st raws [] s1 H4). reflexivity.
Qed.

(** ** The pages of a new site and the renderer *)

Lemma render_hero_starter (theme : string) (slotUrls : gmap string string) :
  exists out, render_hero (starter_hero theme) slotUrls = Ok out.
Proof.
  unfold render_hero, starter_hero.
  cbn -[String.append attr escapeHtml render_cta resolveSlotHref nl].
  unfold cta_href. cbn -[String.append attr escapeHtml render_cta resolveSlotHref nl].
  rewrite (resolveSlotHref_reference "HERO_CTA") by (done || reflexivity).
  rewrite (resolveSlotHref_plain "/contacts").
  2:{ intros name _ _. discriminate. }
  unfold render_cta.
  cbn -[String.append attr escapeHtml nl].
  destruct (negb (String.eqb (default "#" (slotUrls !! "HERO_CTA")) ""));
    cbn -[String.append attr escapeHtml nl]; eauto.
Qed.

Lemma render_footer_starter (slotUrls : gmap string string) :
  render_footer_links starter_footer slotUrls
  = Ok [ container_card
           ("<h3>Resources</h3><ul>"
            ++ ("<li><a " ++ attr "href" (escapeHtml (default "#" (slotUrls !! "FOOTER")))
                ++ ">Primary link</a></li>")
            ++ "</ul>") ].
Proof.
  unfold render_footer_links, starter_footer.
  cbn -[String.append attr escapeHtml resolveSlotHref container_card].
  rewrite (resolveSlotHref_reference "FOOTER") by (done || reflexivity).
  cbn -[String.append attr escapeHtml container_card]. reflexivity.
Qed.

Lemma render_faq_starter (b : bool) :
  exists out, render_faq (starter_faq b) = Ok [out].
Proof. unfold render_faq, starter_faq. cbn. eauto. Qed.

Lemma render_contacts_starter (b : bool) (theme : string) :
  exists out, render_contacts (starter_contacts b theme) = Ok out.
Proof.
  unfold render_contacts, starter_contacts.
  cbn -[String.append attr escapeHtml container_card contact_line contact_keys join concat map].
  eauto.
Qed.

Lemma block_pred_starter (ty : string) :
  (forall theme, block_pred ty (starter_hero theme) = Ok (String.eqb "hero" ty))
  /\ (forall b, block_pred ty (starter_faq b) = Ok (String.eqb "faq" ty && b))
  /\ (forall b theme,
        block_pred ty (starter_contacts b theme) = Ok (String.eqb "contacts" ty && b))
  /\ block_pred ty starter_footer = Ok (String.eqb "footer_links" ty).
Proof.
  unfold block_pred, starter_hero, starter_faq, starter_contacts, starter_footer.
  repeat split; intros; cbn -[String.eqb obj_get];
    repeat match goal with
           | |- context [obj_get ?f ?k] =>
               let v := eval vm_compute in (obj_get f k) in change (obj_get f k) with v
           end;
    cbn -[String.eqb];
    repeat match goal with
           | |- context [String.eqb ?a ty] => destruct (String.eqb a ty)
           | b : bool |- _ => destruct b
           end; reflexivity.
Qed.

(** The first version that [POST /sites] stores for a page renders without
    exception, whatever the theme text, the language, the route and the
    slot table: the hero, the contacts card on a page of type [contacts]
    only, the FAQ on a page of type [home] only, the footer link resolved
    through the slot [FOOTER] (or [#]), and the credit; and the page shell
    is produced around them. *)
Theorem starter_page_renders (r : TemplateRoute) (theme language : string)
    (ctx : PageContext) :
  exists hero faq contacts footer,
    render_hero (starter_hero theme) (ctx_slotUrls ctx) = Ok hero
    /\ render_faq (starter_faq true) = Ok [faq]
    /\ render_contacts (starter_contacts true theme) = Ok contacts
    /\ render_footer_links starter_footer (ctx_slotUrls ctx) = Ok [footer]
    /\ render_parts (starter_blocks (tr_pageType r) theme) (ctx_slotUrls ctx)
       = Ok ([hero]
             ++ (if String.eqb (tr_pageType r) "contacts" then [contacts] else [])
             ++ (if String.eqb (tr_pageType r) "home" then [faq] else [])
             ++ [footer; generator_credit])%list
    /\ exists html,
         page_html ctx {| sv_isPublished := false; sv_versionNumber := 1;
                          sv_contentJson := starter_content r theme language;
                          sv_seoJson := starter_seo theme |} = Ok html.
Proof.
  destruct (render_hero_starter theme (ctx_slotUrls ctx)) as (hero & Hh).
  destruct (render_faq_starter true) as (faq & Hf).
  destruct (render_contacts_starter true theme) as (contacts & Hc).
  pose proof (render_footer_starter (ctx_slotUrls ctx)) as Hfoot.
  eexists hero, faq, contacts, _.
  split; [exact Hh |]. split; [exact Hf |]. split; [exact Hc |]. split; [exact Hfoot |].
  assert (render_parts (starter_blocks (tr_pageType r) theme) (ctx_slotUrls ctx)
          = Ok ([hero]
                ++ (if String.eqb (tr_pageType r) "contacts" then [contacts] else [])
                ++ (if String.eqb (tr_pageType r) "home" then [faq] else [])
                ++ [container_card
                      ("<h3>Resources</h3><ul>"
                       ++ ("<li><a "
                           ++ attr "href"
                                (escapeHtml (default "#" (ctx_slotUrls ctx !! "FOOTER")))
                           ++ ">Primary link</a></li>")
                       ++ "</ul>");
                    generator_credit])%list) as Hparts.
  { unfold render_parts, block_section, starter_blocks.
    destruct (String.eqb (tr_pageType r) "home"), (String.eqb (tr_pageType r) "contacts");
      unfold array_find;
      repeat (first [ rewrite (proj1 (block_pred_starter _))
                    | rewrite (proj1 (proj2 (block_pred_starter _)))
                    | rewrite (proj1 (proj2 (proj2 (block_pred_starter _))))
                    | rewrite (proj2 (proj2 (proj2 (block_pred_starter _)))) ];
              cbn -[String.append attr render_hero render_faq render_contacts
                    render_footer_links starter_hero starter_faq starter_contacts
                    starter_footer generator_credit container_card block_pred]);
      rewrite ?Hh, ?Hf, ?Hc, ?Hfoot;
      cbn -[String.append attr generator_credit container_card];
      rewrite ?Hh, ?Hf, ?Hc, ?Hfoot;
      cbn -[String.append attr generator_credit container_card];
      rewrite ?Hh, ?Hf, ?Hc, ?Hfoot;
      cbn -[String.append attr generator_credit container_card];
      rewrite ?Hh, ?Hf, ?Hc, ?Hfoot;
      reflexivity. }
  split; [exact Hparts |].
  unfold page_html, starter_content, starter_seo.
  cbn -[String.append attr renderBlocksWithSlots htmlPage starter_blocks].
  unfold renderBlocksWithSlots. rewrite Hparts.
  cbn -[String.append attr generator_credit container_card join nl].
  destruct (negb (String.eqb theme "")); simpl; eauto.
Qed.

Lemma page_create_fresh (now : Z) (siteId : nat) (route pageType : string)
    (slug : option string) (s : Store) (site : Site) :
  find (fun x => Nat.eqb (site_id x) siteId) (sites s) = Some site ->
  find (fun p => Nat.eqb (page_siteId p) siteId && String.eqb (page_route p) route)
    (pages s) = None ->
  let p := {| page_id := next_id s; page_siteId := siteId; page_route := route;
              page_pageType := pageType; page_status := page_draft;
              page_slug := slug; page_createdAt := now |} in
  page_create now siteId route pageType slug s
  = (Ok p, {| sites := sites s; pages := (pages s ++ [p])%list; versions := versions s;
              builds := builds s; schedules := schedules s; runs := runs s;
              next_id := S (next_id s) |}).
Proof.
  intros Hsite Hpage p.
  unfold page_create, site_findUnique, page_findUnique_siteId_route.
  unfold bindM, get_store, ret.
  rewrite Hsite, Hpage. reflexivity.
Qed.

(** The pages of a new site: for a site that exists and has no page at the
    static routes of the template, these being distinct, the loop creates
    one draft page per static route, in order, each with one unpublished
    version numbered 1 holding the starter content; the routes with a
    [:slug] are passed over, and nothing else in the store changes. *)
Theorem create_initial_pages_outcome (now : Z) (siteId : nat) (theme language : string)
    (routes : list TemplateRoute) (s : Store) (site : Site) :
  find (fun x => Nat.eqb (site_id x) siteId) (sites s) = Some site ->
  NoDup (map tr_route (static_routes routes)) ->
  Forall (fun r =>
            find (fun p => Nat.eqb (page_siteId p) siteId
                           && String.eqb (page_route p) (tr_route r)) (pages s) = None)
    (static_routes routes) ->
  let rows := starter_rows now siteId theme language (next_id s) (static_routes routes) in
  create_initial_pages now siteId theme language routes s
  = (Ok tt,
     {| sites := sites s; pages := (pages s ++ fst rows)%list;
        versions := (versions s ++ snd rows)%list;
        builds := builds s; schedules := schedules s; runs := runs s;
        next_id := (next_id s + 2 * length (static_routes routes))%nat |}).
Proof.
  revert s. induction routes as [| r routes IH]; intros s Hsite Hnd Hnone; simpl.
  - rewrite !app_nil_r, Nat.add_0_r. by destruct s.
  - unfold create_initial_pages. simpl. fold (create_initial_pages now siteId theme language routes).
    unfold static_routes in *. simpl in *.
    destruct (includes (tr_route r) ":slug") eqn:Hslug; simpl in *.
    + unfold bindM at 1. simpl. by apply IH.
    + inversion Hnd as [| x l Hnotin Hnd']; subst.
      inversion Hnone as [| x l Hr Hrest]; subst.
      unfold bindM at 1, bindM at 1.
      rewrite (page_create_fresh now siteId (tr_route r) (tr_pageType r) None s site Hsite Hr).
      cbn [page_id].
      unfold pageVersion_create, bindM at 1, fresh_id at 1. cbn [next_id].
      unfold bindM at 1, modify at 1, ret at 1, bindM at 1, ret at 1.
      unfold set_versions. cbn [sites pages versions builds schedules runs next_id].
      rewrite IH; cbn [sites pages versions builds schedules runs next_id].
      * destruct (starter_rows now siteId theme language (S (S (next_id s)))
                    (List.filter (fun r0 => negb (includes (tr_route r0) ":slug")) routes))
          as [ps vs].
        cbn [fst snd]. rewrite <- !app_assoc. simpl.
        do 2 f_equal. lia.
      * exact Hsite.
      * exact Hnd'.
      * rewrite Forall_forall in *. intros r' Hr'.
        rewrite find_app_none by (by apply Hrest).
        simpl. rewrite Nat.eqb_refl. simpl.
        destruct (String.eqb_spec (tr_route r) (tr_route r')) as [E | _]; [| reflexivity].
        exfalso. apply Hnotin. rewrite E. apply list_elem_of_In, in_map.
        by apply list_elem_of_In.
Qed.

Lemma create_initial_pages_outcome_witness :
  let routes := (default_routes
                 ++ [ {| tr_route := "/blog/:slug"; tr_pageType := "blog_post" |} ])%list in
  let rows := starter_rows 5 1 "Acme" "en" (next_id store_two_schedules)
                (static_routes routes) in
  create_initial_pages 5 1 "Acme" "en" routes store_two_schedules
  = (Ok tt,
     {| sites := sites store_two_schedules;
        pages := (pages store_two_schedules ++ fst rows)%list;
        versions := (versions store_two_schedules ++ snd rows)%list;
        builds := builds store_two_schedules;
        schedules := schedules store_two_schedules;
        runs := runs store_two_schedules;
        next_id := (next_id store_two_schedules + 2 * length (static_routes routes))%nat |}).
Proof.
  apply (create_initial_pages_outcome 5 1 "Acme" "en"
           (default_routes
            ++ [ {| tr_route := "/blog/:slug"; tr_pageType := "blog_post" |} ])%list
           store_two_schedules
           {| site_id := 1; site_status := site_draft; site_theme := "Demo";
              site_language := Some "en" |}).
  - reflexivity.
  - apply (bool_decide_unpack _). vm_compute. exact I.
  - vm_compute. repeat constructor.
Defined.

(** The routes of the sample: the page of [/blog/:slug] is not created. *)
Example create_initial_pages_sample :
  map page_route
    (pages (snd (create_initial_pages 5 1 "Acme" "en"
                   (default_routes
                    ++ [ {| tr_route := "/blog/:slug"; tr_pageType := "blog_post" |} ])%list
                   store_two_schedules)))
  = ["/"; "/contacts"].
Proof. vm_compute. reflexivity. Qed.

Lemma changes_map {A : Type} (id_of : A -> nat) (get : A -> string) (p : A -> bool)
    (g : A -> A) (table : list A) :
  changes id_of get p table (map g table)
  = map (fun x => {| pr_id := id_of x; pr_before := get x; pr_after := get (g x) |})
      (List.filter p table).
Proof.
  unfold changes. induction table as [| x table IH]; simpl; [reflexivity |].
  destruct (p x); simpl; by rewrite IH.
Qed.

(** The preview of a bulk replacement tells what the replacement does: it
    counts the rows that the replacement reports as updated, and lists for
    exactly those rows the value before and the value that the replacement
    leaves in the table. *)
Theorem bulk_preview_matches_apply (now : Z) (mode : BulkMode) (find replace : string)
    (s : LinkStore) :
  find <> "" ->
  NoDup (map ll_id (libraries s)) ->
  NoDup (map la_id (assignments s)) ->
  let s1 := snd (bulk_apply now mode find replace s) in
  bulk_preview mode find replace s
  = Ok {| count := affected mode find s;
          preview :=
            match mode with
            | library_url_replace =>
                changes ll_id ll_targetUrl (fun l => includes (ll_targetUrl l) find)
                  (libraries s) (libraries s1)
            | assignment_text_replace =>
                changes la_id (fun a => text_or_empty (la_displayTextOverride a))
                  (text_contains find) (assignments s) (assignments s1)
            end |}.
Proof.
  intros Hfind Hlib Hasg.
  assert (String.eqb find "" = false) as Hne by by apply String.eqb_neq.
  unfold bulk_preview, bulk_apply. rewrite Hne.
  destruct mode; cbn [libraries assignments operations links_next_id op_id].
  - destruct (update_then_restore ll_id ll_targetUrl set_targetUrl
                (fun l => includes (ll_targetUrl l) find)
                (fun l => replaceAll (ll_targetUrl l) find replace) (libraries s))
      as [Happly _]; [reflexivity | by intros v [] | exact Hlib |].
    rewrite Happly. cbn [snd set_op libraries]. rewrite changes_map.
    unfold affected. rewrite length_map. do 2 f_equal.
    apply map_ext_in. intros l Hl. apply filter_In in Hl as [_ ->]. reflexivity.
  - destruct (update_then_restore la_id la_displayTextOverride set_displayTextOverride
                (text_contains find)
                (fun a => Some (replaceAll (text_or_empty (la_displayTextOverride a))
                                  find replace)) (assignments s))
      as [Happly _]; [reflexivity | by intros v [] | exact Hasg |].
    rewrite Happly. cbn [snd set_op assignments]. rewrite changes_map.
    unfold affected. rewrite length_map. do 2 f_equal.
    apply map_ext_in. intros a Ha. apply filter_In in Ha as [_ ->]. reflexivity.
Qed.

Lemma bulk_preview_matches_apply_witness :
  bulk_preview library_url_replace "old" "new" demo_links_store
  = Ok {| count := affected library_url_replace "old" demo_links_store;
          preview :=
            changes ll_id ll_targetUrl (fun l => includes (ll_targetUrl l) "old")
              (libraries demo_links_store)
              (libraries (snd (bulk_apply 2000 library_url_replace "old" "new"
                                 demo_links_store))) |}.
Proof.
  apply (bulk_preview_matches_apply 2000 library_url_replace "old" "new" demo_links_store).
  - discriminate.
  - apply (bool_decide_unpack _). vm_compute. exact I.
  - apply (bool_decide_unpack _). vm_compute. exact I.
Defined.

(** ** The site handler on samples *)

(** The seeded theme with the seeded preset: the tokens [xl] and [lg]
    become lengths and the primary button is solid. *)
Example seed_theme_css :
  exists rest,
    cssFromTheme seed_theme seed_preset
    = Ok (":root{--bg:#ffffff;--surface:#f8fafc;--text:#0f172a;--muted:#475569;"
          ++ "--border:#e2e8f0;--r-card:16px;--r-btn:14px;}" ++ rest)
    /\ cssFromTheme seed_theme VUndef
       <> cssFromTheme seed_theme
            (VObj [("hero", VObj [("cta_style", VStr "gradient")])]).
Proof.
  eexists. split; [vm_compute; reflexivity |].
  vm_compute. discriminate.
Qed.

(** A site whose second page has no version: one page is written, the
    sitemap lists it, and the build is marked ready. *)
Example render_site_sample :
  let '(r, log) := render_site "0123456789abcdef" "/out" io_ok (VStr "0123456789abcdef") true
                     (Ok (Some demo_site_row)) 7 in
  r = Ok (Rendered "/out/acme.example" "/out/acme.example" 1)
  /\ written_paths log
     = [ "/out/acme.example/index.html";
         "/out/acme.example/robots.txt";
         "/out/acme.example/sitemap.xml" ]
  /\ build_ready_effects log
     = [ BuildReady 7 "/out/acme.example/sitemap.xml" "/out/acme.example/robots.txt" ].
Proof. vm_compute. repeat split; reflexivity. Qed.

(** A page whose content is [null] stops the render: the page before it is
    on the disk, the page after it is not, and neither the sitemap nor the
    ready mark is written. *)
Example render_site_stops_at_broken_page :
  let '(r, log) := render_site "0123456789abcdef" "/out" io_ok (VStr "0123456789abcdef") true
                     (Ok (Some broken_site_row)) 7 in
  r = Throw "TypeError: Cannot read properties of undefined"
  /\ written_paths log = [ "/out/acme.example/index.html" ]
  /\ build_ready_effects log = [].
Proof. vm_compute. repeat split; reflexivity. Qed.

(** A page of route [/sitemap.xml] makes a directory where the sitemap
    goes: the pages and [robots.txt] are written, the sitemap is refused,
    and the build is not marked ready. *)
Example render_site_sitemap_route :
  let '(r, log) := render_site "0123456789abcdef" "/out" disk_io (VStr "0123456789abcdef")
                     true (Ok (Some sitemap_route_site_row)) 7 in
  r = Throw "EISDIR: illegal operation on a directory, open '/out/acme.example/sitemap.xml'"
  /\ written_paths log
     = [ "/out/acme.example/index.html";
         "/out/acme.example/sitemap.xml/index.html";
         "/out/acme.example/robots.txt" ]
  /\ build_ready_effects log = [].
Proof. vm_compute. repeat split; reflexivity. Qed.

(** A lookup of the site that fails, and ids that are not UUIDs: the
    handler throws before any call. *)
Example render_site_throws_before_any_call :
  render_site "0123456789abcdef" "/out" io_ok (VStr "0123456789abcdef") true
    (Throw "PrismaClientKnownRequestError") 7
  = (Throw "PrismaClientKnownRequestError", [])
  /\ render_site "0123456789abcdef" "/out" io_ok (VStr "0123456789abcdef") false
       (Ok (Some demo_site_row)) 7
     = (Throw "ZodError", []).
Proof. split; reflexivity. Qed.
